(** * AI_algotrading_async: decision and simulation engine

    A shallow embedding of the strategy decision module
    ([src/strategies/base.py], [src/strategies/macd_ema_bb.py]), the pattern
    detector ([src/core/patterns.py]), the signal helpers of
    [src/core/indicators.py], the simulation engine ([src/backtest/engine.py])
    and the grid-search driver ([src/backtest/optimizer.py]).

    Conventions of the embedding:
    - prices and indicator values are exact rationals ([Q]); the comparisons
      are the boolean ones of the source ([<=], [<], [>=], [>]).  Rounding
      and the undefined values of the warm-up bars (NaN) are outside the
      model, and a quotient with a zero denominator is 0;
    - a [DataFrame] is the list of its rows, every column having the same
      length; a row holds the columns the decision code reads; [iloc] at a
      position past the end raises [IndexError];
    - bar positions are natural numbers; the integer settings of the
      configuration are [Z];
    - a Python exception is the [Raise] case of [result];
    - a method that may assign to a field of [self] is a state transformer
      over the strategy object. *)

From Stdlib Require Import String QArith Qminmax ZArith List Sorted Bool Arith Lia Lqa.
Import ListNotations.

Open Scope string_scope.
Open Scope list_scope.
Open Scope Q_scope.

(** ** Numbers *)

Module Num.

Definition leb (x y : Q) : bool := Qle_bool x y.
Definition ltb (x y : Q) : bool := negb (Qle_bool y x).
Definition geb (x y : Q) : bool := leb y x.
Definition gtb (x y : Q) : bool := ltb y x.
(** Truth value of a float: [x] is falsy exactly when it is zero. *)
Definition truthy (x : Q) : bool := negb (Qeq_bool x 0).

(** Python's [max(a, b)] keeps [a] unless [b > a]; [min(a, b)] keeps [a]
    unless [b < a]. *)
Definition py_max (a b : Q) : Q := if gtb b a then b else a.
Definition py_min (a b : Q) : Q := if ltb b a then b else a.

End Num.

Notation "x <=? y" := (Num.leb x y) : Q_scope.
Notation "x <? y" := (Num.ltb x y) : Q_scope.
Notation "x >=? y" := (Num.geb x y) : Q_scope.
Notation "x >? y" := (Num.gtb x y) : Q_scope.

(** ** Exceptions and the state-and-error monad *)

Inductive exn : Type :=
| IndexError
| ValueError
| TypeError.

Inductive result (A : Type) : Type :=
| Ok (a : A)
| Raise (e : exn).
Arguments Ok {A} a.
Arguments Raise {A} e.

Definition rbind {A B} (r : result A) (k : A -> result B) : result B :=
  match r with
  | Ok a => k a
  | Raise e => Raise e
  end.

(** A method of an object of type [S]: it reads [self], may assign to its
    fields, and returns or raises. *)
Definition M (S A : Type) : Type := S -> result (A * S).

Definition ret {S A} (a : A) : M S A := fun s => Ok (a, s).
Definition bind {S A B} (m : M S A) (k : A -> M S B) : M S B :=
  fun s => match m s with
           | Ok (a, s') => k a s'
           | Raise e => Raise e
           end.
Definition raise {S A} (e : exn) : M S A := fun _ => Raise e.
Definition lift {S A} (r : result A) : M S A :=
  fun s => match r with Ok a => Ok (a, s) | Raise e => Raise e end.
Definition get {S} : M S S := fun s => Ok (s, s).

Declare Scope monad_scope.
Delimit Scope monad_scope with monad.
Notation "x <- m ;; k" := (bind m (fun x => k))
  (at level 61, m at next level, right associativity) : monad_scope.
Notation "' p <- m ;; k" := (bind m (fun x => match x with p => k end))
  (at level 61, p pattern, m at next level, right associativity) : monad_scope.
Notation "x <-- r ;; k" := (rbind r (fun x => k))
  (at level 61, r at next level, right associativity) : monad_scope.
Open Scope monad_scope.

(** ** Enriched bars *)

Record Row : Type := mkRow {
  high : Q; low : Q; close : Q; volume : Q;
  ema : Q; macd : Q; signal : Q;
  bb_upper : Q; bb_mid : Q; bb_lower : Q; bb_width : Q;
  atr : Q; vol_avg : Q
}.

Definition DataFrame : Type := list Row.

(** [df[col].iloc[idx]] *)
Definition iloc (col : Row -> Q) (df : DataFrame) (idx : nat) : result Q :=
  match nth_error df idx with
  | Some r => Ok (col r)
  | None => Raise IndexError
  end.

(** ** Signal helpers of [core/indicators.py]

    The helpers receive columns of one frame; here they receive the frame. *)

Definition check_macd_cross_up (df : DataFrame) (idx : nat) : result bool :=
  if (idx <? 1)%nat then Ok false
  else
    m <-- iloc macd df idx ;;
    s <-- iloc signal df idx ;;
    if m >? s then
      m' <-- iloc macd df (idx - 1) ;;
      s' <-- iloc signal df (idx - 1) ;;
      Ok (m' <=? s')
    else Ok false.

Definition check_macd_cross_down (df : DataFrame) (idx : nat) : result bool :=
  if (idx <? 1)%nat then Ok false
  else
    m <-- iloc macd df idx ;;
    s <-- iloc signal df idx ;;
    if m <? s then
      m' <-- iloc macd df (idx - 1) ;;
      s' <-- iloc signal df (idx - 1) ;;
      Ok (m' >=? s')
    else Ok false.

Definition check_price_above_ema (df : DataFrame) (idx : nat) : result bool :=
  c <-- iloc close df idx ;;
  e <-- iloc ema df idx ;;
  Ok (c >? e).

Definition check_price_below_ema (df : DataFrame) (idx : nat) : result bool :=
  c <-- iloc close df idx ;;
  e <-- iloc ema df idx ;;
  Ok (c <? e).

(** ** Local extrema: [scipy.signal.argrelextrema]

    The function belongs to the SciPy library, which [core/patterns.py]
    imports.  It is modelled after the library's implementation
    ([_boolrelextrema]): an order below 1 raises [ValueError]; otherwise every
    point is compared with its neighbours at distance [1..order] on both
    sides, a neighbour past either end being read with [mode='clip'], that
    is, at the nearest valid position; the positions where all comparisons
    hold are returned in increasing order. *)

Module Scipy.

(** [data.take(i, mode='clip')] *)
Definition take_clip (data : list Q) (i : Z) : Q :=
  nth (Z.to_nat (Z.max 0 (Z.min i (Z.of_nat (length data) - 1)))) data 0.

(** One round of the [for shift in range(1, order + 1)] loop at position
    [i]: [comparator(main, plus) & comparator(main, minus)]. *)
Definition shift_ok (cmp : Q -> Q -> bool) (data : list Q)
           (i shift : nat) : bool :=
  cmp (take_clip data (Z.of_nat i))
      (take_clip data (Z.of_nat i + Z.of_nat shift))
  && cmp (take_clip data (Z.of_nat i))
         (take_clip data (Z.of_nat i - Z.of_nat shift)).

Definition _boolrelextrema (data : list Q) (cmp : Q -> Q -> bool)
           (order : Z) : result (list bool) :=
  if (order <? 1)%Z then Raise ValueError
  else Ok (map (fun i => forallb (shift_ok cmp data i)
                                 (seq 1 (Z.to_nat order)))
               (seq 0 (length data))).

(** [np.nonzero]: the positions holding [True], in increasing order. *)
Fixpoint nonzero_from (start : nat) (bs : list bool) : list nat :=
  match bs with
  | [] => []
  | b :: bs' =>
      if b then start :: nonzero_from (S start) bs'
      else nonzero_from (S start) bs'
  end.

Definition argrelextrema (data : list Q) (cmp : Q -> Q -> bool)
           (order : Z) : result (list nat) :=
  results <-- _boolrelextrema data cmp order ;;
  Ok (nonzero_from 0 results).

End Scipy.

(** ** Pattern detector ([core/patterns.py]) *)

(** [df[col][:stop].values] *)
Definition column_prefix (col : Row -> Q) (df : DataFrame) (stop : nat)
  : list Q :=
  map col (firstn stop df).

(** The positions returned by [argrelextrema] lie within [prices], so
    [prices[i]] is read with [nth]. *)
Definition detect_qml_bull (df : DataFrame) (idx : nat) (order recency : Z)
  : result (option Q) :=
  let prices := column_prefix low df (idx + 1) in
  local_min_idx <-- Scipy.argrelextrema prices Num.ltb order ;;
  if (length local_min_idx <? 3)%nat then Ok None
  else
    match rev local_min_idx with
    | idx3 :: idx2 :: idx1 :: _ =>
        let low1 := nth idx1 prices 0 in
        let low2 := nth idx2 prices 0 in
        let low3 := nth idx3 prices 0 in
        if (low2 <? low1) && (low3 >? low2)
           && (Z.of_nat idx - Z.of_nat idx3 <? recency)%Z
        then Ok (Some low2)
        else Ok None
    | _ => Ok None
    end.

Definition detect_qml_bear (df : DataFrame) (idx : nat) (order recency : Z)
  : result (option Q) :=
  let prices := column_prefix high df (idx + 1) in
  local_max_idx <-- Scipy.argrelextrema prices Num.gtb order ;;
  if (length local_max_idx <? 3)%nat then Ok None
  else
    match rev local_max_idx with
    | idx3 :: idx2 :: idx1 :: _ =>
        let high1 := nth idx1 prices 0 in
        let high2 := nth idx2 prices 0 in
        let high3 := nth idx3 prices 0 in
        if (high2 >? high1) && (high3 <? high2)
           && (Z.of_nat idx - Z.of_nat idx3 <? recency)%Z
        then Ok (Some high2)
        else Ok None
    | _ => Ok None
    end.

(** ** Strategy interface ([strategies/base.py]) *)

Module Signal.
Record t : Type := mk {
  side : string;
  entry_price : Q;
  stop_loss : Q;
  take_profit : Q;
  quantity : option Q
}.

Definition risk (self : t) : Q :=
  if String.eqb (side self) "long" then entry_price self - stop_loss self
  else stop_loss self - entry_price self.

Definition reward (self : t) : Q :=
  if String.eqb (side self) "long" then take_profit self - entry_price self
  else entry_price self - take_profit self.

Definition rr_ratio (self : t) : Q :=
  if Qeq_bool (risk self) 0 then 0 else reward self / risk self.
End Signal.

Record StrategyConfig : Type := mkConfig {
  ema_period : Z;
  macd_fast : Z;
  macd_slow : Z;
  macd_signal : Z;
  bb_period : Z;
  bb_std : Q;
  atr_period : Z;
  atr_sl_mult : Q;
  rr_ratio : Q;
  qml_order : Z;
  qml_recency : Z;
  use_qml : bool;
  use_qml_extreme_sl : bool;
  use_vol_filter : bool;
  vol_filter_mult : Q;
  squeeze_threshold : Q;
  vol_period : Z
}.

(** [StrategyConfig()] *)
Definition default_config : StrategyConfig :=
  {| ema_period := 100; macd_fast := 12; macd_slow := 26; macd_signal := 9;
     bb_period := 20; bb_std := 2; atr_period := 14; atr_sl_mult := 3 # 2;
     rr_ratio := 2; qml_order := 3; qml_recency := 20; use_qml := false;
     use_qml_extreme_sl := false; use_vol_filter := false;
     vol_filter_mult := 8 # 10; squeeze_threshold := 1; vol_period := 20 |}.

(** The methods a strategy object offers to the engine.  The first three are
    the abstract methods of [BaseStrategy]; the last two are the ones the
    engine calls on the concrete strategy. *)
Class BaseStrategy (S : Type) : Type := {
  config : S -> StrategyConfig;
  check_long_signal : DataFrame -> nat -> M S bool;
  check_short_signal : DataFrame -> nat -> M S bool;
  calculate_sl_tp : Q -> string -> Q -> option Q -> M S (Q * Q);
  check_exit_conditions :
    DataFrame -> nat -> string -> Q -> Q -> Q ->
    M S (bool * option Q * string);
  update_trailing_stop :
    DataFrame -> nat -> string -> Q -> Q -> bool -> M S (Q * bool)
}.

Section Base.
Context {S : Type} `{BaseStrategy S}.

Definition check_filters (self : S) (df : DataFrame) (idx : nat)
  : result bool :=
  let config := config self in
  vol_ok <-- (if use_vol_filter config then
                v <-- iloc volume df idx ;;
                a <-- iloc vol_avg df idx ;;
                Ok (negb (v <=? a * vol_filter_mult config))
              else Ok true) ;;
  if negb vol_ok then Ok false
  else
    w <-- iloc bb_width df idx ;;
    if w <? squeeze_threshold config then Ok false else Ok true.

(** [current_price or df["close"].iloc[idx]] *)
Definition entry_price_of (current_price : option Q) (df : DataFrame)
           (idx : nat) : result Q :=
  match current_price with
  | Some p => if Num.truthy p then Ok p else iloc close df idx
  | None => iloc close df idx
  end.

Definition generate_signal (df : DataFrame) (idx : nat)
           (current_price : option Q) : M S (option Signal.t) :=
  self <- get ;;
  pass <- lift (check_filters self df idx) ;;
  if negb pass then ret None
  else
    entry_price <- lift (entry_price_of current_price df idx) ;;
    atr <- lift (iloc atr df idx) ;;
    is_long <- check_long_signal df idx ;;
    if is_long then
      '(sl, tp) <- calculate_sl_tp entry_price "long" atr None ;;
      ret (Some (Signal.mk "long" entry_price sl tp None))
    else
      is_short <- check_short_signal df idx ;;
      if is_short then
        '(sl, tp) <- calculate_sl_tp entry_price "short" atr None ;;
        ret (Some (Signal.mk "short" entry_price sl tp None))
      else ret None.

End Base.

(** ** The MACD + EMA + Bollinger strategy ([strategies/macd_ema_bb.py]) *)

Module MacdEmaBbStrategy.

Record t : Type := mk {
  config : StrategyConfig;
  _last_qml_bull : option Q;
  _last_qml_bear : option Q
}.

(** [__init__]: [config or StrategyConfig()], no remembered level. *)
Definition init (config : option StrategyConfig) : t :=
  mk (match config with Some c => c | None => default_config end) None None.

Definition set_last_qml_bull (v : Q) : M t unit :=
  fun self => Ok (tt, mk (config self) (Some v) (_last_qml_bear self)).

Definition set_last_qml_bear (v : Q) : M t unit :=
  fun self => Ok (tt, mk (config self) (_last_qml_bull self) (Some v)).

Definition check_long_signal (df : DataFrame) (idx : nat) : M t bool :=
  self <- get ;;
  up <- lift (check_macd_cross_up df idx) ;;
  if negb up then ret false
  else
    above <- lift (check_price_above_ema df idx) ;;
    if negb above then ret false
    else if use_qml (config self) then
      qml_level <- lift (detect_qml_bull df idx (qml_order (config self))
                                         (qml_recency (config self))) ;;
      match qml_level with
      | None => ret false
      | Some level => _ <- set_last_qml_bull level ;; ret true
      end
    else ret true.

Definition check_short_signal (df : DataFrame) (idx : nat) : M t bool :=
  self <- get ;;
  down <- lift (check_macd_cross_down df idx) ;;
  if negb down then ret false
  else
    below <- lift (check_price_below_ema df idx) ;;
    if negb below then ret false
    else if use_qml (config self) then
      qml_level <- lift (detect_qml_bear df idx (qml_order (config self))
                                         (qml_recency (config self))) ;;
      match qml_level with
      | None => ret false
      | Some level => _ <- set_last_qml_bear level ;; ret true
      end
    else ret true.

(** The parameter [qml_level] is accepted and never read. *)
Definition calculate_sl_tp (self : t) (entry_price : Q) (side : string)
           (atr : Q) (qml_level : option Q) : Q * Q :=
  let config := config self in
  let atr_offset := atr * atr_sl_mult config in
  if String.eqb side "long" then
    let sl :=
      match use_qml_extreme_sl config, _last_qml_bull self with
      | true, Some level => level - atr_offset
      | _, _ => entry_price - atr_offset
      end in
    let risk := entry_price - sl in
    let tp := entry_price + risk * rr_ratio config in
    (sl, tp)
  else
    let sl :=
      match use_qml_extreme_sl config, _last_qml_bear self with
      | true, Some level => level + atr_offset
      | _, _ => entry_price + atr_offset
      end in
    let risk := sl - entry_price in
    let tp := entry_price - risk * rr_ratio config in
    (sl, tp).

Definition check_exit_conditions (df : DataFrame) (idx : nat)
           (position_side : string) (entry_price stop_loss take_profit : Q)
  : result (bool * option Q * string) :=
  high <-- iloc high df idx ;;
  low <-- iloc low df idx ;;
  close <-- iloc close df idx ;;
  if String.eqb position_side "long" then
    if low <=? stop_loss then Ok (true, Some stop_loss, "stop_loss")
    else if high >=? take_profit then
      Ok (true, Some take_profit, "take_profit")
    else
      down <-- check_macd_cross_down df idx ;;
      if down then Ok (true, Some close, "macd_reverse")
      else
        upper <-- iloc bb_upper df idx ;;
        if high >=? upper then Ok (true, Some upper, "bb_touch")
        else Ok (false, None, "")
  else
    if high >=? stop_loss then Ok (true, Some stop_loss, "stop_loss")
    else if low <=? take_profit then
      Ok (true, Some take_profit, "take_profit")
    else
      up <-- check_macd_cross_up df idx ;;
      if up then Ok (true, Some close, "macd_reverse")
      else
        lower <-- iloc bb_lower df idx ;;
        if low <=? lower then Ok (true, Some lower, "bb_touch")
        else Ok (false, None, "").

Definition update_trailing_stop (df : DataFrame) (idx : nat)
           (position_side : string) (entry_price current_sl : Q)
           (reached_1to1 : bool) : result (Q * bool) :=
  high <-- iloc high df idx ;;
  low <-- iloc low df idx ;;
  bb_mid <-- iloc bb_mid df idx ;;
  if String.eqb position_side "long" then
    let risk := entry_price - current_sl in
    let target_1to1 := entry_price + risk in
    let new_reached :=
      if negb reached_1to1 && (high >=? target_1to1) then true
      else reached_1to1 in
    let new_sl :=
      if new_reached then Num.py_max current_sl bb_mid else current_sl in
    Ok (new_sl, new_reached)
  else
    let risk := current_sl - entry_price in
    let target_1to1 := entry_price - risk in
    let new_reached :=
      if negb reached_1to1 && (low <=? target_1to1) then true
      else reached_1to1 in
    let new_sl :=
      if new_reached then Num.py_min current_sl bb_mid else current_sl in
    Ok (new_sl, new_reached).

End MacdEmaBbStrategy.

#[export] Instance MacdEmaBb_BaseStrategy : BaseStrategy MacdEmaBbStrategy.t := {
  config := MacdEmaBbStrategy.config;
  check_long_signal := MacdEmaBbStrategy.check_long_signal;
  check_short_signal := MacdEmaBbStrategy.check_short_signal;
  calculate_sl_tp := fun entry_price side atr qml_level self =>
    Ok (MacdEmaBbStrategy.calculate_sl_tp self entry_price side atr qml_level,
        self);
  check_exit_conditions := fun df idx side entry_price sl tp =>
    lift (MacdEmaBbStrategy.check_exit_conditions df idx side entry_price sl tp);
  update_trailing_stop := fun df idx side entry_price sl reached =>
    lift (MacdEmaBbStrategy.update_trailing_stop df idx side entry_price sl
                                                  reached)
}.

(** ** Simulation engine ([backtest/engine.py]) *)

Module Trade.
Record t : Type := mk {
  entry_idx : nat;
  exit_idx : nat;
  entry_price : Q;
  exit_price : Q;
  side : string;
  pnl_pct : Q;
  exit_reason : string
}.
End Trade.

(** The dictionary [position] of [BacktestEngine.run]. *)
Module Position.
Record t : Type := mk {
  entry_idx : nat;
  entry_price : Q;
  sl : Q;
  tp : Q;
  side : string;
  reached_1to1 : bool
}.
End Position.

Record BacktestResult : Type := mkResult {
  total_pnl_pct : Q;
  win_rate : Q;
  num_trades : nat;
  avg_pnl : Q;
  max_drawdown : Q;
  trades : list Trade.t;
  equity_curve : list Q
}.

Definition of_nat (n : nat) : Q := inject_Z (Z.of_nat n).

(** [sum(xs)] *)
Definition py_sum (xs : list Q) : Q := fold_left Qplus xs 0.

(** [np.maximum.accumulate] *)
Fixpoint maximum_accumulate_from (m : Q) (xs : list Q) : list Q :=
  match xs with
  | [] => []
  | x :: xs' =>
      let m' := Num.py_max m x in m' :: maximum_accumulate_from m' xs'
  end.

Definition maximum_accumulate (xs : list Q) : list Q :=
  match xs with
  | [] => []
  | x :: xs' => x :: maximum_accumulate_from x xs'
  end.

(** [np.max]; it raises on an empty array. *)
Definition np_max (xs : list Q) : result Q :=
  match xs with
  | [] => Raise ValueError
  | x :: xs' => Ok (fold_left Num.py_max xs' x)
  end.

Definition _calculate_stats (trades : list Trade.t) (equity_curve : list Q)
  : result BacktestResult :=
  match trades with
  | [] => Ok (mkResult 0 0 0 0 0 [] [1])
  | _ :: _ =>
      let pnls := map Trade.pnl_pct trades in
      let total_pnl := py_sum pnls in
      let win_rate :=
        of_nat (length (filter (fun p => p >? 0) pnls))
        / of_nat (length pnls) * 100 in
      let avg_pnl := py_sum pnls / of_nat (length pnls) in
      let running_max := maximum_accumulate equity_curve in
      let drawdowns :=
        map (fun '(m, e) => (m - e) / m * 100)
            (combine running_max equity_curve) in
      max_drawdown <-- np_max drawdowns ;;
      Ok (mkResult total_pnl win_rate (length trades) avg_pnl max_drawdown
                   trades equity_curve)
  end.

(** [range(start, stop)] *)
Definition range (start stop : nat) : list nat := seq start (stop - start).

Section Engine.
Context {S : Type} `{BaseStrategy S}.
Variable use_trailing : bool.

(** The local variables of [run] that the loop assigns. *)
Record Locals : Type := mkLocals {
  l_trades : list Trade.t;
  l_equity_curve : list Q;
  l_current_equity : Q;
  l_in_position : bool;
  l_position : option Position.t
}.

Definition initial_locals : Locals := mkLocals [] [1] 1 false None.

Definition open_position (v : Locals) (i : nat) (sg : Signal.t) : Locals :=
  mkLocals (l_trades v) (l_equity_curve v) (l_current_equity v) true
           (Some (Position.mk i (Signal.entry_price sg)
                              (Signal.stop_loss sg) (Signal.take_profit sg)
                              (Signal.side sg) false)).

Definition keep_position (v : Locals) (pos : Position.t) : Locals :=
  mkLocals (l_trades v) (l_equity_curve v) (l_current_equity v)
           (l_in_position v) (Some pos).

Definition close_position (v : Locals) (pos : Position.t) (i : nat)
           (exit_price : Q) (exit_reason : string) : Locals :=
  let pnl_pct :=
    if String.eqb (Position.side pos) "long" then
      (exit_price - Position.entry_price pos) / Position.entry_price pos
      * 100
    else
      (Position.entry_price pos - exit_price) / Position.entry_price pos
      * 100 in
  let trade :=
    Trade.mk (Position.entry_idx pos) i (Position.entry_price pos)
             exit_price (Position.side pos) pnl_pct exit_reason in
  let current_equity := l_current_equity v * (1 + pnl_pct / 100) in
  mkLocals (l_trades v ++ [trade]) (l_equity_curve v ++ [current_equity])
           current_equity false None.

(** The trailing-stop block: it assigns [pos["sl"]] and
    [pos["reached_1to1"]]. *)
Definition trail (df : DataFrame) (i : nat) (pos : Position.t)
  : M S Position.t :=
  if use_trailing then
    '(new_sl, new_reached) <-
      update_trailing_stop df i (Position.side pos)
        (Position.entry_price pos) (Position.sl pos)
        (Position.reached_1to1 pos) ;;
    ret (Position.mk (Position.entry_idx pos) (Position.entry_price pos)
                     new_sl (Position.tp pos) (Position.side pos)
                     new_reached)
  else ret pos.

(** One iteration of the [for i in range(max_lookback, len(df))] loop. *)
Definition loop_body (df : DataFrame) (v : Locals) (i : nat) : M S Locals :=
  if negb (l_in_position v) then
    sg <- generate_signal df i None ;;
    match sg with
    | Some sg => ret (open_position v i sg)
    | None => ret v
    end
  else
    match l_position v with
    | None => raise TypeError
    | Some pos =>
        pos <- trail df i pos ;;
        '(should_exit, exit_price, exit_reason) <-
          check_exit_conditions df i (Position.side pos)
            (Position.entry_price pos) (Position.sl pos)
            (Position.tp pos) ;;
        if should_exit : bool then
          match exit_price with
          | Some exit_price =>
              ret (close_position v pos i exit_price exit_reason)
          | None => raise TypeError
          end
        else ret (keep_position v pos)
    end.

Fixpoint for_each (body : Locals -> nat -> M S Locals) (indices : list nat)
         (v : Locals) : M S Locals :=
  match indices with
  | [] => ret v
  | i :: rest => v' <- body v i ;; for_each body rest v'
  end.

Definition run (df : DataFrame) (max_lookback : nat) : M S BacktestResult :=
  v <- for_each (loop_body df) (range max_lookback (length df))
                initial_locals ;;
  lift (_calculate_stats (l_trades v) (l_equity_curve v)).

End Engine.

(** ** Grid search ([backtest/optimizer.py]) *)

(** A candidate value of the parameter grid. *)
Inductive pyval : Type :=
| PInt (z : Z)
| PFloat (q : Q)
| PBool (b : bool)
| PStr (s : string).

(** [dict(zip(keys, combo))], in key order. *)
Definition Params : Type := list (string * pyval).
Definition ParamGrid : Type := list (string * list pyval).

(** [itertools.product] of the lists: the last list varies fastest. *)
Fixpoint product {A : Type} (lists : list (list A)) : list (list A) :=
  match lists with
  | [] => [[]]
  | l :: rest => flat_map (fun x => map (cons x) (product rest)) l
  end.

Definition DEFAULT_PARAM_GRID : ParamGrid :=
  [ ("interval", [PStr "1h"]);
    ("ema_period", [PInt 50; PInt 100; PInt 200]);
    ("bb_std", [PFloat (3 # 2); PFloat 2; PFloat (5 # 2)]);
    ("atr_sl_mult", [PFloat 1; PFloat (3 # 2); PFloat 2]);
    ("rr_ratio", [PFloat (3 # 2); PFloat 2; PFloat (5 # 2)]);
    ("qml_order", [PInt 3; PInt 5]);
    ("qml_recency", [PInt 15; PInt 20; PInt 30]);
    ("use_vol_filter", [PBool false; PBool true]);
    ("squeeze_threshold", [PFloat (1 # 2); PFloat 1; PFloat (3 # 2)]);
    ("use_qml", [PBool false]);
    ("use_qml_extreme_sl", [PBool false]) ].

(** The numeric attributes of a [BacktestResult] that [metric] can name
    (the default is [total_pnl_pct]). *)
Inductive Metric : Type :=
| metric_total_pnl_pct
| metric_win_rate
| metric_num_trades
| metric_avg_pnl
| metric_max_drawdown.

(** [getattr(result, metric)] *)
Definition getattr (result : BacktestResult) (metric : Metric) : Q :=
  match metric with
  | metric_total_pnl_pct => total_pnl_pct result
  | metric_win_rate => win_rate result
  | metric_num_trades => of_nat (num_trades result)
  | metric_avg_pnl => avg_pnl result
  | metric_max_drawdown => max_drawdown result
  end.

(** An entry of [all_results]. *)
Record Summary : Type := mkSummary {
  s_params : Params;
  s_score : Q;
  s_total_pnl_pct : Q;
  s_win_rate : Q;
  s_num_trades : nat;
  s_avg_pnl : Q;
  s_max_drawdown : Q
}.

Record OptimizationResult : Type := mkOptimizationResult {
  best_params : Params;
  best_result : BacktestResult;
  best_df : DataFrame;
  all_results : list Summary
}.

Module GridSearchOptimizer.

(** The fields of the optimizer.  [backtest_combo params] stands for the
    part of the [try] block that produces the combination's frame and
    result: fetching the data, computing the indicators and running the
    engine; an exception of any of the three is its [Raise] case. *)
Record t : Type := mk {
  backtest_combo : Params -> result (DataFrame * BacktestResult);
  param_grid : ParamGrid;
  min_trades : Z;
  metric : Metric
}.

(** [__init__]: [param_grid or DEFAULT_PARAM_GRID], [min_trades=10],
    [metric="total_pnl_pct"]. *)
Definition init (backtest_combo : Params -> result (DataFrame * BacktestResult))
           (param_grid : option ParamGrid) (min_trades : option Z)
           (metric : option Metric) : t :=
  mk backtest_combo
     (match param_grid with
      | Some ((_ :: _) as g) => g
      | _ => DEFAULT_PARAM_GRID
      end)
     (match min_trades with Some n => n | None => 10%Z end)
     (match metric with Some m => m | None => metric_total_pnl_pct end).

Definition _calculate_score (self : t) (result : BacktestResult)
           (params : Params) : Q :=
  if (Z.of_nat (num_trades result) <? min_trades self)%Z
  then getattr result (metric self) - 1000
  else getattr result (metric self).

(** The local variables of [run] that the loop assigns; [l_best_score] is
    [None] while it is [float("-inf")]. *)
Record Locals : Type := mkLocals {
  l_best_result : option BacktestResult;
  l_best_params : option Params;
  l_best_score : option Q;
  l_best_df : option DataFrame;
  l_all_results : list Summary
}.

Definition initial_locals : Locals := mkLocals None None None None [].

(** [score > best_score] *)
Definition beats (score : Q) (best_score : option Q) : bool :=
  match best_score with
  | None => true
  | Some b => score >? b
  end.

(** One iteration of [for i, combo in enumerate(combos, 1)]; the [except]
    clause logs and goes on to the next combination. *)
Definition loop_body (self : t) (v : Locals) (params : Params) : Locals :=
  match backtest_combo self params with
  | Raise _ => v
  | Ok (df, result) =>
      let score := _calculate_score self result params in
      let all_results :=
        l_all_results v ++
        [mkSummary params score (total_pnl_pct result) (win_rate result)
                   (num_trades result) (avg_pnl result)
                   (max_drawdown result)] in
      if beats score (l_best_score v) then
        mkLocals (Some result) (Some params) (Some score) (Some df)
                 all_results
      else
        mkLocals (l_best_result v) (l_best_params v) (l_best_score v)
                 (l_best_df v) all_results
  end.

Definition combinations (grid : ParamGrid) : list Params :=
  let keys := map fst grid in
  map (fun combo => combine keys combo) (product (map snd grid)).

Definition run (self : t) : result OptimizationResult :=
  let v := fold_left (loop_body self) (combinations (param_grid self))
                     initial_locals in
  match l_best_result v, l_best_params v, l_best_df v with
  | Some result, Some params, Some df =>
      Ok (mkOptimizationResult params result df (l_all_results v))
  | None, _, _ => Raise ValueError
  | _, _, _ => Raise TypeError
  end.

End GridSearchOptimizer.

(** ** The pattern rule in the words of the specification *)

Module PatternSpec.

(** [j] is another point within [order] positions of [i], on either side. *)
Definition within (order : Z) (i j : nat) : bool :=
  negb (i =? j)%nat && (Z.abs (Z.of_nat j - Z.of_nat i) <=? order)%Z.

(** The point at [i] compares strictly ([cmp] is [<] for a minimum, [>] for a
    maximum) with every point within [order] positions on both sides. *)
Definition local_extremum (cmp : Q -> Q -> bool) (prices : list Q)
           (order : Z) (i : nat) : bool :=
  forallb (fun j => implb (within order i j)
                          (cmp (nth i prices 0) (nth j prices 0)))
          (seq 0 (length prices)).

(** All such points, in sequence order. *)
Definition local_extrema (cmp : Q -> Q -> bool) (prices : list Q)
           (order : Z) : list nat :=
  filter (local_extremum cmp prices order) (seq 0 (length prices)).

(** The point at [i] has a neighbour on each side: it is neither the first
    nor the last point of the sequence. *)
Definition interior (prices : list Q) (i : nat) : bool :=
  (0 <? i)%nat && (i + 1 <? length prices)%nat.

Definition interior_extrema (cmp : Q -> Q -> bool) (prices : list Q)
           (order : Z) : list nat :=
  filter (fun i => interior prices i && local_extremum cmp prices order i)
         (seq 0 (length prices)).

(** With [e1], [e2], [e3] the three most recent extrema: the sweep [e2]
    passes [e1], [e3] turns back, and [e3] is recent.  For the bullish rule
    [cmp] is [<] ([e2 < e1], [e3 > e2]); for the bearish rule it is [>]. *)
Definition three_point_rule (cmp : Q -> Q -> bool) (prices : list Q)
           (idx : nat) (recency : Z) (extrema : list nat) : option Q :=
  if (length extrema <? 3)%nat then None
  else
    match rev extrema with
    | i3 :: i2 :: i1 :: _ =>
        let e1 := nth i1 prices 0 in
        let e2 := nth i2 prices 0 in
        let e3 := nth i3 prices 0 in
        if cmp e2 e1 && cmp e2 e3 && (Z.of_nat idx - Z.of_nat i3 <? recency)%Z
        then Some e2
        else None
    | _ => None
    end.

(** The claim as worded: every point that beats its neighbours counts. *)
Definition qml_bull_spec (df : DataFrame) (idx : nat) (order recency : Z)
  : option Q :=
  let lows := column_prefix low df (idx + 1) in
  three_point_rule Num.ltb lows idx recency (local_extrema Num.ltb lows order).

Definition qml_bear_spec (df : DataFrame) (idx : nat) (order recency : Z)
  : option Q :=
  let highs := column_prefix high df (idx + 1) in
  three_point_rule Num.gtb highs idx recency
                   (local_extrema Num.gtb highs order).

(** The rule over the points that have a neighbour on each side. *)
Definition qml_bull_interior (df : DataFrame) (idx : nat) (order recency : Z)
  : option Q :=
  let lows := column_prefix low df (idx + 1) in
  three_point_rule Num.ltb lows idx recency
                   (interior_extrema Num.ltb lows order).

Definition qml_bear_interior (df : DataFrame) (idx : nat) (order recency : Z)
  : option Q :=
  let highs := column_prefix high df (idx + 1) in
  three_point_rule Num.gtb highs idx recency
                   (interior_extrema Num.gtb highs order).

End PatternSpec.

(** ** Sample frames *)

Module Samples.

(** A bar with its price fields only; the indicator columns are zero. *)
Definition bar (h l c : Q) : Row :=
  mkRow h l c 0 0 0 0 0 0 0 0 0 0.

(** Scenario C: bar 1 spans both the stop (95) and the target (110). *)
Definition scenario_C : DataFrame :=
  [ bar 101 99 100; bar 112 94 100 ].

(** Lows 5, 6, 3, 6, 4, 6: the first point is below its only neighbour. *)
Definition edge_lows : DataFrame :=
  [ bar 6 5 5; bar 7 6 6; bar 4 3 3; bar 7 6 6; bar 5 4 4; bar 7 6 6 ].

(** A frame of five bars: the oscillator crosses upward on bar 1 with the
    close above the trend average (a long entry at 100 with ATR 2), and bar 2
    reaches the target. *)
Definition one_trade : DataFrame :=
  [ mkRow 101 99 100 10 90 0 0 110 98 90 2 2 10;
    mkRow 101 99 100 10 90 1 0 110 98 90 2 2 10;
    mkRow 107 99 105 10 90 1 0 110 98 90 2 2 10;
    mkRow 106 104 105 10 90 1 0 110 98 90 2 2 10;
    mkRow 106 104 105 10 90 1 0 110 98 90 2 2 10 ].

(** The frame above continued: the oscillator falls back to its signal line
    on bar 3 and crosses upward again on bar 4 (a second long entry at 105,
    stop 102, target 111); bar 5 falls to the stop. *)
Definition two_trades : DataFrame :=
  [ mkRow 101 99 100 10 90 0 0 110 98 90 2 2 10;
    mkRow 101 99 100 10 90 1 0 110 98 90 2 2 10;
    mkRow 107 99 105 10 90 1 0 110 98 90 2 2 10;
    mkRow 106 104 105 10 90 0 0 110 98 90 2 2 10;
    mkRow 106 104 105 10 90 1 0 110 98 90 2 2 10;
    mkRow 106 101 102 10 90 1 0 110 98 90 2 2 10 ].

(** Lows 9, 5, 9, 3, 9, 4, 9: three minima, the second below the first and
    the third above the second. *)
Definition sweep_lows : DataFrame :=
  [ bar 10 9 9; bar 6 5 5; bar 10 9 9; bar 4 3 3; bar 10 9 9; bar 5 4 4;
    bar 10 9 9 ].

(** Three local minima of the lows (18, 16, 17 at bars 1, 3, 5), then a bar
    closing at 6, far below the sweep level 16, on which the oscillator
    crosses upward with the close above the trend average; ATR is 1. *)
Definition below_sweep : DataFrame :=
  [ mkRow 22 20 21 10 5 0 0 30 20 10 2 1 10;
    mkRow 20 18 19 10 5 0 0 30 20 10 2 1 10;
    mkRow 22 20 21 10 5 0 0 30 20 10 2 1 10;
    mkRow 18 16 17 10 5 0 0 30 20 10 2 1 10;
    mkRow 22 20 21 10 5 0 0 30 20 10 2 1 10;
    mkRow 19 17 18 10 5 0 0 30 20 10 2 1 10;
    mkRow 22 20 21 10 5 0 0 30 20 10 2 1 10;
    mkRow 7 5 6 10 5 1 0 30 20 10 2 1 10 ].

(** Pattern-gating and extreme-stop mode enabled, [qml_order = 1]. *)
Definition extreme_config : StrategyConfig :=
  mkConfig 100 12 26 9 20 2 14 (3 # 2) 2 1 20 true true false (8 # 10) 1 20.

(** The default settings with a negative reward:risk ratio. *)
Definition negative_rr_config : StrategyConfig :=
  mkConfig 100 12 26 9 20 2 14 (3 # 2) (-1) 3 20 false false false (8 # 10) 1 20.

(** The default settings with the volume filter on. *)
Definition volume_config : StrategyConfig :=
  mkConfig 100 12 26 9 20 2 14 (3 # 2) 2 3 20 false false true (8 # 10) 1 20.

(** A bar whose band width (1/2) is below the default squeeze threshold. *)
Definition squeezed : DataFrame :=
  [ mkRow 101 99 100 10 90 0 0 110 98 90 (1 # 2) 2 10;
    mkRow 101 99 100 10 90 1 0 110 98 90 (1 # 2) 2 10 ].

(** A 2 x 2 grid. *)
Definition grid_2x2 : ParamGrid :=
  [ ("ema_period", [PInt 50; PInt 100]);
    ("rr_ratio", [PFloat (3 # 2); PFloat 2]) ].

(** Two long trades of -5% each; one long trade of +1100%. *)
Definition two_losses : list Trade.t :=
  [ Trade.mk 100 105 100 95 "long" (-5) "stop_loss";
    Trade.mk 110 115 100 95 "long" (-5) "stop_loss" ].
Definition one_big_win : list Trade.t :=
  [ Trade.mk 100 105 1 12 "long" 1100 "take_profit" ].

(** Backtests of the grid: the combination (100, 2) records the two losing
    trades, every other one the single winning trade. *)
Definition backtest_2x2 (params : Params)
  : result (DataFrame * BacktestResult) :=
  match params with
  | [(_, PInt 100%Z); (_, PFloat q)] =>
      if Qeq_bool q 2 then
        r <-- _calculate_stats two_losses [1; 95 # 100; 9025 # 10000] ;;
        Ok ([], r)
      else r <-- _calculate_stats one_big_win [1; 12] ;; Ok ([], r)
  | _ => r <-- _calculate_stats one_big_win [1; 12] ;; Ok ([], r)
  end.

Definition qualifying_2x2 : Params :=
  [ ("ema_period", PInt 100); ("rr_ratio", PFloat 2) ].

Definition optimizer_2x2 : GridSearchOptimizer.t :=
  GridSearchOptimizer.init backtest_2x2 (Some grid_2x2) (Some 2%Z) None.

(** The same grid where the other combinations record one trade of +20%. *)
Definition one_small_win : list Trade.t :=
  [ Trade.mk 100 105 100 120 "long" 20 "take_profit" ].

Definition backtest_2x2_small (params : Params)
  : result (DataFrame * BacktestResult) :=
  match params with
  | [(_, PInt 100%Z); (_, PFloat q)] =>
      if Qeq_bool q 2 then
        r <-- _calculate_stats two_losses [1; 95 # 100; 9025 # 10000] ;;
        Ok ([], r)
      else r <-- _calculate_stats one_small_win [1; 12 # 10] ;; Ok ([], r)
  | _ => r <-- _calculate_stats one_small_win [1; 12 # 10] ;; Ok ([], r)
  end.

Definition optimizer_2x2_small : GridSearchOptimizer.t :=
  GridSearchOptimizer.init backtest_2x2_small (Some grid_2x2) (Some 2%Z) None.

(** A grid of one combination whose backtest records no trade, with the
    default [min_trades = 10]. *)
Definition grid_1 : ParamGrid := [ ("ema_period", [PInt 100]) ].

Definition backtest_no_trades (params : Params)
  : result (DataFrame * BacktestResult) :=
  r <-- _calculate_stats [] [1] ;; Ok ([], r).

Definition optimizer_no_trades : GridSearchOptimizer.t :=
  GridSearchOptimizer.init backtest_no_trades (Some grid_1) None None.

End Samples.

(** ** Trade records as intervals of bar positions *)

(** [t1] is closed strictly before [t2] is opened. *)
Definition closed_before (t1 t2 : Trade.t) : Prop :=
  (Trade.exit_idx t1 < Trade.entry_idx t2)%nat.

(** Bar [i] lies between the opening and the closing bar of [t]. *)
Definition open_at (i : nat) (t : Trade.t) : Prop :=
  (Trade.entry_idx t <= i <= Trade.exit_idx t)%nat.

(** ** Invariants of the simulation loop *)

(** The curve has one more element than the trade list and starts at 1. *)
Definition curve_inv (v : Locals) : Prop :=
  length (l_equity_curve v) = (length (l_trades v) + 1)%nat /\
  hd_error (l_equity_curve v) = Some 1.

(** Before bar [i] is processed: the recorded trades are pairwise disjoint
    and closed before [i]; an open position was opened before [i] and after
    every recorded trade was closed. *)
Definition intervals_inv (i : nat) (v : Locals) : Prop :=
  StronglySorted closed_before (l_trades v) /\
  Forall (fun t => (Trade.entry_idx t < Trade.exit_idx t
                    /\ Trade.exit_idx t < i)%nat) (l_trades v) /\
  (forall pos, l_position v = Some pos ->
     (Position.entry_idx pos < i)%nat /\
     Forall (fun t => (Trade.exit_idx t < Position.entry_idx pos)%nat)
            (l_trades v)).

(** The settings under which the pattern detector cannot raise: pattern-gating
    is off, or [qml_order] is at least 1. *)
Definition order_ok (c : StrategyConfig) : Prop :=
  use_qml c = false \/ (1 <= qml_order c)%Z.

(** [in_position] is set only together with [position]. *)
Definition position_inv (v : Locals) : Prop :=
  l_in_position v = true -> exists pos, l_position v = Some pos.

(** ** Outcomes of the grid-search loop *)

(** The combination's backtest raised: the loop skips it. *)
Definition failed (self : GridSearchOptimizer.t) (params : Params) : Prop :=
  exists e, GridSearchOptimizer.backtest_combo self params = Raise e.

(** The combination's backtest returned [result] with at least [min_trades]
    trades. *)
Definition reaches_min_trades (self : GridSearchOptimizer.t)
           (result : BacktestResult) : Prop :=
  (GridSearchOptimizer.min_trades self <= Z.of_nat (num_trades result))%Z.

(** The combination failed, or its backtest stayed below [min_trades] and
    its penalised metric compares with [bound] as [R] says. *)
Definition penalised_below (self : GridSearchOptimizer.t)
           (R : Q -> Q -> Prop) (bound : Q) (params : Params) : Prop :=
  failed self params \/
  exists df result,
    GridSearchOptimizer.backtest_combo self params = Ok (df, result) /\
    ~ reaches_min_trades self result /\
    R (getattr result (GridSearchOptimizer.metric self) - 1000) bound.

(** A best result is recorded, with its parameters and frame. *)
Definition has_best (v : GridSearchOptimizer.Locals) : Prop :=
  exists r p d,
    GridSearchOptimizer.l_best_result v = Some r /\
    GridSearchOptimizer.l_best_params v = Some p /\
    GridSearchOptimizer.l_best_df v = Some d.

(** No best score yet, or a best score below [bound]. *)
Definition best_score_below (bound : Q) (v : GridSearchOptimizer.Locals)
  : Prop :=
  match GridSearchOptimizer.l_best_score v with
  | None => True
  | Some s => s < bound
  end.

(** The recorded best is the combination [params] with its result, frame
    and score. *)
Definition best_is (params : Params) (df : DataFrame)
           (result : BacktestResult) (score : Q)
           (v : GridSearchOptimizer.Locals) : Prop :=
  GridSearchOptimizer.l_best_result v = Some result /\
  GridSearchOptimizer.l_best_params v = Some params /\
  GridSearchOptimizer.l_best_df v = Some df /\
  GridSearchOptimizer.l_best_score v = Some score.

From Stdlib Require Qabs.

(** ** Further invariants of the simulation loop *)

(** The equity values that follow [equity] when the trades [ts] are closed
    in turn: each is the previous one times [1 + pnl_pct / 100]. *)
Fixpoint compound (equity : Q) (ts : list Trade.t) : list Q :=
  match ts with
  | [] => []
  | t :: ts' =>
      let equity' := equity * (1 + Trade.pnl_pct t / 100) in
      equity' :: compound equity' ts'
  end.

(** The equity after all of [ts] are closed. *)
Fixpoint final_equity (equity : Q) (ts : list Trade.t) : Q :=
  match ts with
  | [] => equity
  | t :: ts' => final_equity (equity * (1 + Trade.pnl_pct t / 100)) ts'
  end.

(** The curve is the compounding of the recorded trades from 1, and
    [current_equity] is its last value. *)
Definition equity_inv (v : Locals) : Prop :=
  l_equity_curve v = 1 :: compound 1 (l_trades v) /\
  l_current_equity v = final_equity 1 (l_trades v).

(** Before bar [i] is processed, in a loop started at bar [start]: every
    recorded trade and the open position lie within [start .. i - 1]. *)
Definition bounds_inv (start i : nat) (v : Locals) : Prop :=
  Forall (fun t => (start <= Trade.entry_idx t /\ Trade.exit_idx t < i)%nat)
         (l_trades v) /\
  (forall pos, l_position v = Some pos ->
               (start <= Position.entry_idx pos)%nat).

(** The percentage PNL the engine records for a trade. *)
Definition pnl_of (side : string) (entry_price exit_price : Q) : Q :=
  if String.eqb side "long" then (exit_price - entry_price) / entry_price * 100
  else (entry_price - exit_price) / entry_price * 100.

(** A trade record as the engine writes it for the MACD + EMA + Bollinger
    strategy: the side and the exit reason are among the known tags and the
    PNL is the percentage move from entry to exit. *)
Definition well_tagged (t : Trade.t) : Prop :=
  (Trade.side t = "long" \/ Trade.side t = "short") /\
  (Trade.exit_reason t = "stop_loss" \/ Trade.exit_reason t = "take_profit" \/
   Trade.exit_reason t = "macd_reverse" \/ Trade.exit_reason t = "bb_touch") /\
  Trade.pnl_pct t
  = pnl_of (Trade.side t) (Trade.entry_price t) (Trade.exit_price t).

Definition tags_inv (v : Locals) : Prop :=
  Forall well_tagged (l_trades v) /\
  (forall pos, l_position v = Some pos ->
               Position.side pos = "long" \/ Position.side pos = "short").

(** A frame on which the oscillator equals its signal line on every bar. *)
Definition flat_frame : DataFrame :=
  [ mkRow 101 99 100 10 100 0 0 110 100 90 2 2 10;
    mkRow 101 99 100 10 100 0 0 110 100 90 2 2 10;
    mkRow 101 99 100 10 100 0 0 110 100 90 2 2 10;
    mkRow 101 99 100 10 100 0 0 110 100 90 2 2 10 ].

(** ** Views of the strategy object *)

(** The configuration [c] with [use_qml_extreme_sl] set to [b]. *)
Definition with_extreme_sl (b : bool) (c : StrategyConfig) : StrategyConfig :=
  mkConfig (ema_period c) (macd_fast c) (macd_slow c) (macd_signal c)
           (bb_period c) (bb_std c) (atr_period c) (atr_sl_mult c)
           (rr_ratio c) (qml_order c) (qml_recency c) (use_qml c) b
           (use_vol_filter c) (vol_filter_mult c) (squeeze_threshold c)
           (vol_period c).

(** What the caller of a method sees: the returned value or the exception. *)
Definition returned {A S : Type} (r : result (A * S)) : result A :=
  match r with
  | Ok (a, _) => Ok a
  | Raise e => Raise e
  end.

(** ** Swing helpers of [core/patterns.py] *)

(** [df.tail(n)]: the last [n] rows; no row for [n = 0]; all rows but the
    first [-n] for a negative [n]. *)
Definition tail (n : Z) (df : DataFrame) : DataFrame :=
  if (n =? 0)%Z then []
  else if (0 <? n)%Z then skipn (length df - Z.to_nat n) df
  else skipn (Z.to_nat (- n)) df.

Definition find_swing_high (df : DataFrame) (lookback order : Z)
  : result (option Q) :=
  if (Z.of_nat (length df) <? lookback)%Z then Ok None
  else
    let prices := map high (tail lookback df) in
    local_max_idx <-- Scipy.argrelextrema prices Num.gtb order ;;
    if (length local_max_idx =? 0)%nat then Ok None
    else Ok (Some (nth (last local_max_idx 0%nat) prices 0)).

Definition find_swing_low (df : DataFrame) (lookback order : Z)
  : result (option Q) :=
  if (Z.of_nat (length df) <? lookback)%Z then Ok None
  else
    let prices := map low (tail lookback df) in
    local_min_idx <-- Scipy.argrelextrema prices Num.ltb order ;;
    if (length local_min_idx =? 0)%nat then Ok None
    else Ok (Some (nth (last local_min_idx 0%nat) prices 0)).

(** [prices[idx[-1]]] and [prices[idx[-2]]] of a list of at least two
    positions. *)
Definition last_two (prices : list Q) (idxs : list nat) : Q * Q :=
  match rev idxs with
  | i :: j :: _ => (nth i prices 0, nth j prices 0)
  | _ => (0, 0)
  end.

Definition detect_higher_high (df : DataFrame) (lookback order : Z)
  : result bool :=
  let prices := map high (tail lookback df) in
  local_max_idx <-- Scipy.argrelextrema prices Num.gtb order ;;
  if (length local_max_idx <? 2)%nat then Ok false
  else let '(latest, previous) := last_two prices local_max_idx in
       Ok (latest >? previous).

Definition detect_lower_low (df : DataFrame) (lookback order : Z)
  : result bool :=
  let prices := map low (tail lookback df) in
  local_min_idx <-- Scipy.argrelextrema prices Num.ltb order ;;
  if (length local_min_idx <? 2)%nat then Ok false
  else let '(latest, previous) := last_two prices local_min_idx in
       Ok (latest <? previous).

Definition detect_higher_low (df : DataFrame) (lookback order : Z)
  : result bool :=
  let prices := map low (tail lookback df) in
  local_min_idx <-- Scipy.argrelextrema prices Num.ltb order ;;
  if (length local_min_idx <? 2)%nat then Ok false
  else let '(latest, previous) := last_two prices local_min_idx in
       Ok (latest >? previous).

Definition detect_lower_high (df : DataFrame) (lookback order : Z)
  : result bool :=
  let prices := map high (tail lookback df) in
  local_max_idx <-- Scipy.argrelextrema prices Num.gtb order ;;
  if (length local_max_idx <? 2)%nat then Ok false
  else let '(latest, previous) := last_two prices local_max_idx in
       Ok (latest <? previous).

(** Highs 1, 3, 2, 5, 4 (lows one below): two local maxima, the later one
    higher. *)
Definition rising_highs : DataFrame :=
  [ Samples.bar 1 0 0; Samples.bar 3 2 2; Samples.bar 2 1 1;
    Samples.bar 5 4 4; Samples.bar 4 3 3 ].

(** ** Indicator pipeline ([core/indicators.py])

    The functions are thin wrappers of pandas operations, modelled after the
    library's documented behaviour.  A series that may hold undefined
    entries (NaN) is a list of [option Q], [None] being NaN; the price and
    volume columns hold no NaN and are lists of [Q]. *)

Module Pandas.

(** [series.ewm(span=span, adjust=False).mean()]: the first value seeds the
    average, then [y = (1 - a) * y_prev + a * x] with [a = 2 / (span + 1)];
    a span below 1 raises [ValueError]. *)
Definition alpha (span : Z) : Q := 2 / (inject_Z span + 1).

Fixpoint ewm_from (a prev : Q) (xs : list Q) : list Q :=
  match xs with
  | [] => []
  | x :: xs' => let y := (1 - a) * prev + a * x in y :: ewm_from a y xs'
  end.

Definition ewm_mean (span : Z) (xs : list Q) : result (list Q) :=
  if (span <? 1)%Z then Raise ValueError
  else match xs with
       | [] => Ok []
       | x :: xs' => Ok (x :: ewm_from (alpha span) x xs')
       end.

(** The entries of the window of [period] positions ending at [i]. *)
Definition window {A : Type} (period i : nat) (xs : list (option A))
  : list (option A) :=
  map (fun j => nth j xs None) (seq (i + 1 - period) (Nat.min period (i + 1))).

(** The observations of a window: its entries that are not NaN. *)
Definition observations {A : Type} (w : list (option A)) : list A :=
  flat_map (fun o => match o with Some x => [x] | None => [] end) w.

(** [series.rolling(period).mean()]: with the default [min_periods = period],
    the mean of the window when it holds [period] observations (and at least
    one), NaN otherwise; a negative window raises [ValueError]. *)
Definition rolling_mean (period : Z) (xs : list (option Q))
  : result (list (option Q)) :=
  if (period <? 0)%Z then Raise ValueError
  else
    Ok (map (fun i =>
               let obs := observations (window (Z.to_nat period) i xs) in
               if (length obs <? Z.to_nat period)%nat
                  || (length obs =? 0)%nat
               then None
               else Some (py_sum obs / of_nat (length obs)))
            (seq 0 (length xs))).

(** [series.shift(1)] *)
Definition shift1 (xs : list Q) : list (option Q) :=
  match xs with
  | [] => []
  | _ :: _ => None :: map Some (removelast xs)
  end.

(** Element-wise operations; NaN propagates. *)
Definition sub_nan (x : Q) (y : option Q) : option Q :=
  match y with Some y => Some (x - y) | None => None end.
Definition abs_nan (x : option Q) : option Q :=
  match x with Some x => Some (Qabs.Qabs x) | None => None end.
(** [np.maximum] *)
Definition maximum_nan (x y : option Q) : option Q :=
  match x, y with
  | Some x, Some y => Some (Num.py_max x y)
  | _, _ => None
  end.

End Pandas.

Definition calculate_ema (series : list Q) (period : Z) : result (list Q) :=
  Pandas.ewm_mean period series.

Definition calculate_sma (series : list Q) (period : Z)
  : result (list (option Q)) :=
  Pandas.rolling_mean period (map Some series).

Definition calculate_volume_sma (volume : list Q) (period : Z)
  : result (list (option Q)) :=
  Pandas.rolling_mean period (map Some volume).

(** [a - b] of two series over the same index. *)
Definition series_sub (xs ys : list Q) : list Q :=
  map (fun '(x, y) => x - y) (combine xs ys).

Definition calculate_macd (series : list Q)
           (fast_period slow_period signal_period : Z)
  : result (list Q * list Q * list Q) :=
  ema_fast <-- Pandas.ewm_mean fast_period series ;;
  ema_slow <-- Pandas.ewm_mean slow_period series ;;
  let macd_line := series_sub ema_fast ema_slow in
  signal_line <-- Pandas.ewm_mean signal_period macd_line ;;
  let histogram := series_sub macd_line signal_line in
  Ok (macd_line, signal_line, histogram).

(** The three columns are taken from one frame, row by row. *)
Definition true_range (bars : list (Q * Q * Q)) : list (option Q) :=
  let prev_close := Pandas.shift1 (map (fun '(_, _, c) => c) bars) in
  map (fun '((h, l, _), pc) =>
         let tr1 := Some (h - l) in
         let tr2 := Pandas.abs_nan (Pandas.sub_nan h pc) in
         let tr3 := Pandas.abs_nan (Pandas.sub_nan l pc) in
         Pandas.maximum_nan tr1 (Pandas.maximum_nan tr2 tr3))
      (combine bars prev_close).

Definition calculate_atr (bars : list (Q * Q * Q)) (period : Z)
  : result (list (option Q)) :=
  Pandas.rolling_mean period (true_range bars).

(** High, low, close of five bars. *)
Definition five_bars : list (Q * Q * Q) :=
  [ (11, 9, 10); (12, 10, 11); (13, 8, 9); (10, 9, 10); (12, 10, 12) ].

(** ** Views of the grid search *)

(** The combination's backtest returned. *)
Definition returns (self : GridSearchOptimizer.t) (params : Params) : bool :=
  match GridSearchOptimizer.backtest_combo self params with
  | Ok _ => true
  | Raise _ => false
  end.

(** After the combinations [done] were tried: the log holds the returning
    ones in order, each with its score; the recorded best is one of them,
    with the score of its own backtest, and no logged score exceeds it. *)
Definition log_inv (self : GridSearchOptimizer.t) (done : list Params)
           (v : GridSearchOptimizer.Locals) : Prop :=
  map s_params (GridSearchOptimizer.l_all_results v) = filter (returns self) done /\
  match GridSearchOptimizer.l_best_score v with
  | None =>
      GridSearchOptimizer.l_all_results v = [] /\
      GridSearchOptimizer.l_best_result v = None
  | Some s =>
      exists p df r,
        GridSearchOptimizer.l_best_params v = Some p /\
        GridSearchOptimizer.l_best_df v = Some df /\
        GridSearchOptimizer.l_best_result v = Some r /\
        GridSearchOptimizer.backtest_combo self p = Ok (df, r) /\
        s = GridSearchOptimizer._calculate_score self r p /\
        Forall (fun e => s_score e <= s) (GridSearchOptimizer.l_all_results v) /\
        In p (map s_params (GridSearchOptimizer.l_all_results v))
  end.

(** The number of combinations of a grid. *)
Definition grid_size (grid : ParamGrid) : nat :=
  fold_right (fun kv n => (length (snd kv) * n)%nat) 1%nat grid.

(** ** The live bot's schedule ([bot/trader.py]) *)

(** The fields of [datetime] that [_should_check_signal] reads. *)
Record datetime : Type := mkDatetime {
  hour : nat;
  minute : nat;
  second : nat
}.

(** [TradingBot._should_check_signal], with [self.config.interval] as
    [interval]. *)
Definition _should_check_signal (interval : string) (now : datetime) : bool :=
  if String.eqb interval "1h" then
    (minute now =? 0)%nat && (second now <? 30)%nat
  else if String.eqb interval "4h" then
    (hour now mod 4 =? 0)%nat && (minute now =? 0)%nat
    && (second now <? 30)%nat
  else if String.eqb interval "15m" then
    (minute now mod 15 =? 0)%nat && (second now <? 30)%nat
  else if String.eqb interval "5m" then
    (minute now mod 5 =? 0)%nat && (second now <? 30)%nat
  else (minute now =? 0)%nat && (second now <? 30)%nat.

(** ** Fills of a recorded trade *)

(** The trade was entered at the close of its entry bar, which is not bar 0,
    and its exit price fits its exit bar: the close for [macd_reverse]; for
    a long trade a stop at or above the low, a target or upper band at or
    below the high; mirrored for a short trade. *)
Definition filled_on (df : DataFrame) (t : Trade.t) : Prop :=
  (1 <= Trade.entry_idx t)%nat /\
  (exists r, nth_error df (Trade.entry_idx t) = Some r /\
             Trade.entry_price t = close r) /\
  (exists r, nth_error df (Trade.exit_idx t) = Some r /\
     (Trade.exit_reason t = "macd_reverse" -> Trade.exit_price t = close r) /\
     (Trade.side t = "long" ->
      (Trade.exit_reason t = "stop_loss" -> low r <= Trade.exit_price t) /\
      (Trade.exit_reason t = "take_profit" -> Trade.exit_price t <= high r) /\
      (Trade.exit_reason t = "bb_touch" ->
       Trade.exit_price t = bb_upper r /\ Trade.exit_price t <= high r)) /\
     (Trade.side t <> "long" ->
      (Trade.exit_reason t = "stop_loss" -> Trade.exit_price t <= high r) /\
      (Trade.exit_reason t = "take_profit" -> low r <= Trade.exit_price t) /\
      (Trade.exit_reason t = "bb_touch" ->
       Trade.exit_price t = bb_lower r /\ low r <= Trade.exit_price t))).

Definition fills_inv (df : DataFrame) (v : Locals) : Prop :=
  Forall (filled_on df) (l_trades v) /\
  (forall pos, l_position v = Some pos ->
     (1 <= Position.entry_idx pos)%nat /\
     exists r, nth_error df (Position.entry_idx pos) = Some r /\
               Position.entry_price pos = close r).
(** * Properties

    ** Comparisons *)

Module NumFacts.
Import Num.

Lemma leb_le x y : leb x y = true <-> x <= y.
Proof. apply Qle_bool_iff. Qed.

Lemma leb_gt x y : leb x y = false <-> y < x.
Proof.
  unfold leb. split; intro H.
  - apply Qnot_le_lt. intro L. apply Qle_bool_iff in L. congruence.
  - destruct (Qle_bool x y) eqn:E; [|reflexivity].
    apply Qle_bool_iff in E. exfalso. exact (Qlt_not_le _ _ H E).
Qed.

Lemma ltb_lt x y : ltb x y = true <-> x < y.
Proof.
  unfold ltb. rewrite negb_true_iff. apply leb_gt.
Qed.

Lemma ltb_ge x y : ltb x y = false <-> y <= x.
Proof.
  unfold ltb. rewrite negb_false_iff. apply leb_le.
Qed.

Lemma geb_ge x y : geb x y = true <-> y <= x.
Proof. apply leb_le. Qed.

Lemma gtb_gt x y : gtb x y = true <-> y < x.
Proof. apply ltb_lt. Qed.

Lemma ltb_irrefl x : ltb x x = false.
Proof. apply ltb_ge. apply Qle_refl. Qed.

Lemma py_max_ge a b : a <= py_max a b.
Proof.
  unfold py_max. destruct (gtb b a) eqn:E.
  - apply gtb_gt in E. apply Qlt_le_weak, E.
  - apply Qle_refl.
Qed.

Lemma py_min_le a b : py_min a b <= a.
Proof.
  unfold py_min. destruct (ltb b a) eqn:E.
  - apply ltb_lt in E. apply Qlt_le_weak, E.
  - apply Qle_refl.
Qed.

End NumFacts.

(** ** The monad *)

Lemma rbind_ok {A B} (r : result A) (k : A -> result B) b :
  rbind r k = Ok b -> exists a, r = Ok a /\ k a = Ok b.
Proof. destruct r; simpl; [eauto | discriminate]. Qed.

Lemma bind_ok {S A B} (m : M S A) (k : A -> M S B) s b s' :
  bind m k s = Ok (b, s') ->
  exists a s1, m s = Ok (a, s1) /\ k a s1 = Ok (b, s').
Proof.
  unfold bind. destruct (m s) as [[a s1]|]; [eauto | discriminate].
Qed.

Lemma lift_ok {S A} (r : result A) (s : S) a s' :
  lift r s = Ok (a, s') -> r = Ok a /\ s' = s.
Proof.
  unfold lift. destruct r; intro H; inversion H; auto.
Qed.

(** ** Frames *)

Lemma iloc_ok col df idx v :
  iloc col df idx = Ok v -> exists r, nth_error df idx = Some r /\ v = col r.
Proof.
  unfold iloc. destruct (nth_error df idx); intro H; inversion H; eauto.
Qed.

Lemma iloc_row col df idx r :
  nth_error df idx = Some r -> iloc col df idx = Ok (col r).
Proof. unfold iloc. intros ->. reflexivity. Qed.


(** ** Exit conditions *)

Section ExitConditions.
Import MacdEmaBbStrategy NumFacts.

Variables (df : DataFrame) (idx : nat) (r : Row).
Hypothesis Hrow : nth_error df idx = Some r.

Lemma cross_down_total : exists b, check_macd_cross_down df idx = Ok b.
Proof.
  unfold check_macd_cross_down.
  destruct (idx <? 1)%nat eqn:E; [eauto|].
  apply Nat.ltb_ge in E.
  rewrite !(iloc_row _ _ _ _ Hrow). simpl.
  destruct (Num.ltb (macd r) (signal r)); [|eauto].
  destruct (nth_error df (idx - 1)) as [r'|] eqn:E'.
  - rewrite !(iloc_row _ _ _ _ E'). simpl. eauto.
  - apply nth_error_None in E'.
    assert (idx < length df)%nat by (apply nth_error_Some; congruence). lia.
Qed.

Lemma cross_up_total : exists b, check_macd_cross_up df idx = Ok b.
Proof.
  unfold check_macd_cross_up.
  destruct (idx <? 1)%nat eqn:E; [eauto|].
  apply Nat.ltb_ge in E.
  rewrite !(iloc_row _ _ _ _ Hrow). simpl.
  destruct (Num.gtb (macd r) (signal r)); [|eauto].
  destruct (nth_error df (idx - 1)) as [r'|] eqn:E'.
  - rewrite !(iloc_row _ _ _ _ E'). simpl. eauto.
  - apply nth_error_None in E'.
    assert (idx < length df)%nat by (apply nth_error_Some; congruence). lia.
Qed.

Lemma exit_long_unfold entry sl tp :
  check_exit_conditions df idx "long" entry sl tp =
  if low r <=? sl then Ok (true, Some sl, "stop_loss")
  else if high r >=? tp then Ok (true, Some tp, "take_profit")
  else
    down <-- check_macd_cross_down df idx ;;
    if down then Ok (true, Some (close r), "macd_reverse")
    else if high r >=? bb_upper r then Ok (true, Some (bb_upper r), "bb_touch")
    else Ok (false, None, "").
Proof.
  unfold check_exit_conditions.
  rewrite !(iloc_row _ _ _ _ Hrow). reflexivity.
Qed.

Lemma exit_short_unfold entry sl tp :
  check_exit_conditions df idx "short" entry sl tp =
  if high r >=? sl then Ok (true, Some sl, "stop_loss")
  else if low r <=? tp then Ok (true, Some tp, "take_profit")
  else
    up <-- check_macd_cross_up df idx ;;
    if up then Ok (true, Some (close r), "macd_reverse")
    else if low r <=? bb_lower r then Ok (true, Some (bb_lower r), "bb_touch")
    else Ok (false, None, "").
Proof.
  unfold check_exit_conditions.
  rewrite !(iloc_row _ _ _ _ Hrow). reflexivity.
Qed.

End ExitConditions.

(** C1.  On a bar [r] of the frame, [check_exit_conditions] tries, for a long
    position, the stop (low <= stop, exit at the stop), then the target
    (high >= target, exit at the target), then the downward oscillator cross
    (exit at the close), then the upper band (high >= band, exit at the band
    value), and reports the first that holds; a bar reaching both the stop and
    the target exits as [stop_loss] at the stop.  For a short position the
    same order holds with high/low exchanged, the upward cross and the lower
    band.  The oscillator test always returns on such a bar. *)
Theorem check_exit_conditions_priority
        (df : DataFrame) (idx : nat) (r : Row) (entry sl tp : Q)
        (Hrow : nth_error df idx = Some r) :
  let long := MacdEmaBbStrategy.check_exit_conditions df idx "long" entry sl tp in
  let short := MacdEmaBbStrategy.check_exit_conditions df idx "short" entry sl tp in
  (* long *)
  (low r <= sl -> long = Ok (true, Some sl, "stop_loss")) /\
  (low r <= sl -> tp <= high r -> long = Ok (true, Some sl, "stop_loss")) /\
  (sl < low r -> tp <= high r -> long = Ok (true, Some tp, "take_profit")) /\
  (sl < low r -> high r < tp -> check_macd_cross_down df idx = Ok true ->
   long = Ok (true, Some (close r), "macd_reverse")) /\
  (sl < low r -> high r < tp -> check_macd_cross_down df idx = Ok false ->
   bb_upper r <= high r -> long = Ok (true, Some (bb_upper r), "bb_touch")) /\
  (sl < low r -> high r < tp -> check_macd_cross_down df idx = Ok false ->
   high r < bb_upper r -> long = Ok (false, None, "")) /\
  (exists b, check_macd_cross_down df idx = Ok b) /\
  (* short *)
  (sl <= high r -> short = Ok (true, Some sl, "stop_loss")) /\
  (sl <= high r -> low r <= tp -> short = Ok (true, Some sl, "stop_loss")) /\
  (high r < sl -> low r <= tp -> short = Ok (true, Some tp, "take_profit")) /\
  (high r < sl -> tp < low r -> check_macd_cross_up df idx = Ok true ->
   short = Ok (true, Some (close r), "macd_reverse")) /\
  (high r < sl -> tp < low r -> check_macd_cross_up df idx = Ok false ->
   low r <= bb_lower r -> short = Ok (true, Some (bb_lower r), "bb_touch")) /\
  (high r < sl -> tp < low r -> check_macd_cross_up df idx = Ok false ->
   bb_lower r < low r -> short = Ok (false, None, "")) /\
  (exists b, check_macd_cross_up df idx = Ok b).
Proof.
  intros long short. subst long short.
  rewrite (exit_long_unfold df idx r Hrow), (exit_short_unfold df idx r Hrow).
  pose proof (NumFacts.leb_le (low r) sl) as Ls.
  pose proof (NumFacts.leb_gt (low r) sl) as Ls'.
  pose proof (NumFacts.geb_ge (high r) tp) as Ht.
  pose proof (NumFacts.leb_gt tp (high r)) as Ht'.
  pose proof (NumFacts.geb_ge (high r) (bb_upper r)) as Hu.
  pose proof (NumFacts.leb_gt (bb_upper r) (high r)) as Hu'.
  pose proof (NumFacts.geb_ge (high r) sl) as Hs.
  pose proof (NumFacts.leb_gt sl (high r)) as Hs'.
  pose proof (NumFacts.leb_le (low r) tp) as Lt.
  pose proof (NumFacts.leb_gt (low r) tp) as Lt'.
  pose proof (NumFacts.leb_le (low r) (bb_lower r)) as Ll.
  pose proof (NumFacts.leb_gt (low r) (bb_lower r)) as Ll'.
  unfold Num.geb in *.
  repeat split; intros;
    repeat match goal with
      | H : ?a <= ?b, E : Num.leb ?a ?b = true <-> _ |- _ =>
          rewrite (proj2 E H)
      | H : ?b < ?a, E : Num.leb ?a ?b = false <-> _ |- _ =>
          rewrite (proj2 E H)
      | H : _ = Ok _ |- _ => rewrite H; simpl
      end;
    try reflexivity.
  - apply (cross_down_total df idx r Hrow).
  - apply (cross_up_total df idx r Hrow).
Qed.

(** Scenario C: entry 100, stop 95, target 110, and a bar with low 94 and
    high 112. *)
Lemma check_exit_conditions_priority_scenario_C :
  MacdEmaBbStrategy.check_exit_conditions Samples.scenario_C 1 "long" 100 95 110
  = Ok (true, Some 95, "stop_loss").
Proof.
  refine (proj1 (proj2 (check_exit_conditions_priority
                  Samples.scenario_C 1 (Samples.bar 112 94 100) 100 95 110
                  eq_refl)) _ _).
  - apply Qle_bool_iff. reflexivity.
  - apply Qle_bool_iff. reflexivity.
Defined.

(** ** Trailing stop *)

Lemma py_max_Qmax a b : Num.py_max a b = Qmax a b.
Proof.
  unfold Num.py_max, Num.gtb, Num.ltb, Qmax, GenericMinMax.gmax.
  destruct (Qle_bool b a) eqn:E; simpl.
  - apply Qle_bool_iff in E.
    destruct (a ?= b) eqn:C; try reflexivity.
    apply Qlt_alt in C. exfalso. exact (Qlt_not_le _ _ C E).
  - destruct (a ?= b) eqn:C; try reflexivity; exfalso.
    + apply Qeq_alt in C.
      assert (b <= a) as L by (rewrite C; apply Qle_refl).
      apply Qle_bool_iff in L. congruence.
    + apply Qgt_alt in C. apply Qlt_le_weak in C.
      apply Qle_bool_iff in C. congruence.
Qed.

Lemma py_min_Qmin a b : Num.py_min a b = Qmin a b.
Proof.
  unfold Num.py_min, Num.ltb, Qmin, GenericMinMax.gmin.
  destruct (Qle_bool a b) eqn:E; simpl.
  - apply Qle_bool_iff in E.
    destruct (a ?= b) eqn:C; try reflexivity.
    apply Qgt_alt in C. exfalso. exact (Qlt_not_le _ _ C E).
  - destruct (a ?= b) eqn:C; try reflexivity; exfalso.
    + apply Qeq_alt in C.
      assert (a <= b) as L by (rewrite C; apply Qle_refl).
      apply Qle_bool_iff in L. congruence.
    + apply Qlt_alt in C. apply Qlt_le_weak in C.
      apply Qle_bool_iff in C. congruence.
Qed.

Lemma update_trailing_stop_inv df idx side entry sl reached new_sl new_reached :
  MacdEmaBbStrategy.update_trailing_stop df idx side entry sl reached
  = Ok (new_sl, new_reached) ->
  exists r, nth_error df idx = Some r /\
    (reached = true -> new_reached = true) /\
    (side = "long" ->
     new_sl = (if new_reached then Qmax sl (bb_mid r) else sl)
     /\ sl <= new_sl) /\
    (side <> "long" ->
     new_sl = (if new_reached then Qmin sl (bb_mid r) else sl)
     /\ new_sl <= sl).
Proof.
  unfold MacdEmaBbStrategy.update_trailing_stop, iloc.
  destruct (nth_error df idx) as [r|]; simpl; [|discriminate].
  intro E. exists r. split; [reflexivity|].
  destruct (String.eqb_spec side "long") as [->|Hs].
  - inversion E; subst; clear E.
    split; [intros ->; reflexivity|].
    split; [intros _|congruence].
    rewrite <- py_max_Qmax.
    destruct (negb reached && _); [|destruct reached];
      split; try reflexivity;
      try apply NumFacts.py_max_ge; apply Qle_refl.
  - inversion E; subst; clear E.
    split; [intros ->; reflexivity|].
    split; [congruence|intros _].
    rewrite <- py_min_Qmin.
    destruct (negb reached && _); [|destruct reached];
      split; try reflexivity;
      try apply NumFacts.py_min_le; apply Qle_refl.
Qed.

Lemma update_trailing_stop_total df idx r side entry sl reached :
  nth_error df idx = Some r ->
  exists res, MacdEmaBbStrategy.update_trailing_stop df idx side entry sl reached
              = Ok res.
Proof.
  intro Hrow. unfold MacdEmaBbStrategy.update_trailing_stop.
  rewrite !(iloc_row _ _ _ _ Hrow). simpl.
  destruct (String.eqb side "long"); eauto.
Qed.

(** ** The simulation loop *)

Ltac minv :=
  repeat match goal with
    | H : bind _ _ _ = Ok (_, _) |- _ =>
        apply bind_ok in H; destruct H as (? & ? & ? & H)
    | H : lift _ _ = Ok (_, _) |- _ =>
        apply lift_ok in H; destruct H; subst
    | H : ret _ _ = Ok (_, _) |- _ => unfold ret in H; inversion H; subst; clear H
    | H : raise _ _ = Ok _ |- _ => discriminate H
    | H : Raise _ = Ok _ |- _ => discriminate H
    | H : (match ?x with (_, _) => _ end) _ = Ok _ |- _ => destruct x
    | H : (let '(_, _) := ?x in _) _ = Ok _ |- _ => destruct x
    end.

Section EngineFacts.
Context {S : Type} `{BaseStrategy S}.
Variable use_trailing : bool.
Variable df : DataFrame.

(** An invariant indexed by the bar position is carried along the loop. *)
Lemma for_each_invariant (body : Locals -> nat -> M S Locals)
      (Inv : nat -> Locals -> Prop) :
  (forall i v s v' s', Inv i v -> body v i s = Ok (v', s') -> Inv (Datatypes.S i) v') ->
  forall n a v s v' s',
    Inv a v -> for_each body (seq a n) v s = Ok (v', s') -> Inv (a + n)%nat v'.
Proof.
  intros Hstep. induction n as [|n IH]; intros a v s v' s' Hinv Hrun; simpl in Hrun.
  - minv. rewrite Nat.add_0_r. exact Hinv.
  - minv. rewrite <- Nat.add_succ_comm. eapply IH; [|eassumption].
    eapply Hstep; eassumption.
Qed.

Lemma trail_inv i pos pos' s s' :
  trail use_trailing df i pos s = Ok (pos', s') ->
  Position.entry_idx pos' = Position.entry_idx pos /\
  Position.entry_price pos' = Position.entry_price pos /\
  Position.side pos' = Position.side pos /\
  Position.tp pos' = Position.tp pos.
Proof.
  unfold trail. destruct use_trailing; intro E; minv; auto.
Qed.

(** The cases of one iteration that returns. *)
Lemma loop_body_cases v i s v' s' :
  loop_body use_trailing df v i s = Ok (v', s') ->
  (l_in_position v = false /\ v' = v) \/
  (l_in_position v = false /\ exists sg, v' = open_position v i sg) \/
  (l_in_position v = true /\ exists pos pos' s0 price reason,
      l_position v = Some pos /\
      trail use_trailing df i pos s = Ok (pos', s0) /\
      v' = close_position v pos' i price reason) \/
  (l_in_position v = true /\ exists pos pos' s0,
      l_position v = Some pos /\
      trail use_trailing df i pos s = Ok (pos', s0) /\
      v' = keep_position v pos').
Proof.
  unfold loop_body. destruct (l_in_position v); simpl.
  - destruct (l_position v) as [pos|]; intro E; [|discriminate E].
    apply bind_ok in E. destruct E as (pos' & s0 & Ht & E).
    apply bind_ok in E. destruct E as ([[should_exit price] reason] & s1 & Hx & E).
    destruct should_exit.
    + destruct price as [price|]; [|discriminate E].
      minv. right; right; left. split; [reflexivity|].
      exists pos, pos', s0, price, reason. auto.
    + minv. right; right; right. split; [reflexivity|].
      exists pos, pos', s0. auto.
  - intro E. apply bind_ok in E. destruct E as (sg & s0 & Hg & E).
    destruct sg as [sg|]; minv.
    + right; left. eauto.
    + left. auto.
Qed.

(** *** Equity curve *)

Lemma loop_body_curve v i s v' s' :
  curve_inv v -> loop_body use_trailing df v i s = Ok (v', s') -> curve_inv v'.
Proof.
  intros [Hl Hh] E. apply loop_body_cases in E.
  destruct E as [[_ ->]|[[_ [sg ->]]|[[_ E]|[_ E]]]].
  - split; assumption.
  - split; assumption.
  - destruct E as (pos & pos' & s0 & price & reason & _ & _ & ->).
    unfold curve_inv, close_position; simpl. rewrite !length_app; simpl.
    split; [lia|].
    destruct (l_equity_curve v); [discriminate Hh | exact Hh].
  - destruct E as (pos & pos' & s0 & _ & _ & ->). split; assumption.
Qed.

Lemma calculate_stats_inv trades0 curve r :
  _calculate_stats trades0 curve = Ok r ->
  (trades0 = [] /\ trades r = [] /\ equity_curve r = [1]
   /\ num_trades r = 0%nat) \/
  (trades0 <> [] /\ trades r = trades0 /\ equity_curve r = curve
   /\ num_trades r = length trades0).
Proof.
  unfold _calculate_stats. destruct trades0 as [|t ts].
  - intro E. inversion E; subst. left. simpl. auto.
  - intro E. apply rbind_ok in E. destruct E as (m & _ & E).
    inversion E; subst. right. simpl. repeat split. discriminate.
Qed.

Lemma run_inv max_lookback s r s' :
  run use_trailing df max_lookback s = Ok (r, s') ->
  exists v s0,
    for_each (loop_body use_trailing df) (range max_lookback (length df))
             initial_locals s = Ok (v, s0) /\
    _calculate_stats (l_trades v) (l_equity_curve v) = Ok r.
Proof.
  unfold run. intro E. minv. eauto.
Qed.

Lemma run_curve max_lookback s r s' :
  run use_trailing df max_lookback s = Ok (r, s') ->
  length (equity_curve r) = (length (trades r) + 1)%nat /\
  hd_error (equity_curve r) = Some 1 /\
  (trades r = [] -> equity_curve r = [1]).
Proof.
  intro E. apply run_inv in E. destruct E as (v & s0 & Hloop & Hstats).
  assert (curve_inv v) as [Hl Hh].
  { apply (for_each_invariant (loop_body use_trailing df) (fun _ => curve_inv))
      with (n := (length df - max_lookback)%nat) (a := max_lookback)
           (v := initial_locals) (s := s) (s' := s0).
    - intros. eapply loop_body_curve; eassumption.
    - split; reflexivity.
    - exact Hloop. }
  apply calculate_stats_inv in Hstats.
  destruct Hstats as [(_ & Ht & He & _)|(Hne & Ht & He & _)].
  - rewrite Ht, He. auto.
  - rewrite Ht, He. repeat split; try assumption.
    intro. subst. congruence.
Qed.

(** *** Trade intervals *)

Lemma closed_before_snoc ts t :
  StronglySorted closed_before ts ->
  Forall (fun t0 => closed_before t0 t) ts ->
  StronglySorted closed_before (ts ++ [t]).
Proof.
  induction 1 as [|a l Hs IH Ha]; intro Hf; simpl.
  - constructor; constructor.
  - inversion Hf; subst. constructor.
    + apply IH. assumption.
    + apply Forall_app. split; [assumption|]. constructor; [assumption|constructor].
Qed.

Lemma loop_body_intervals v i s v' s' :
  intervals_inv i v -> loop_body use_trailing df v i s = Ok (v', s') ->
  intervals_inv (Datatypes.S i) v'.
Proof.
  intros (Hs & Hf & Hp) E. apply loop_body_cases in E.
  assert (Forall (fun t => (Trade.entry_idx t < Trade.exit_idx t
                            /\ Trade.exit_idx t < Datatypes.S i)%nat) (l_trades v)) as Hf'.
  { eapply Forall_impl; [|exact Hf]. simpl. intros; lia. }
  destruct E as [[_ ->]|[[_ [sg ->]]|[[_ E]|[_ E]]]].
  - split; [assumption|]. split; [assumption|].
    intros pos Hpos. destruct (Hp pos Hpos). split; [lia|assumption].
  - split; [assumption|]. split; [assumption|].
    simpl. intros pos Hpos. inversion Hpos; subst; simpl. split; [lia|].
    eapply Forall_impl; [|exact Hf]. simpl. intros; lia.
  - destruct E as (pos & pos' & s0 & price & reason & Hpos & Ht & ->).
    apply trail_inv in Ht. destruct Ht as (He & _).
    destruct (Hp pos Hpos) as [Hlt Hall].
    unfold intervals_inv, close_position; simpl. rewrite He.
    split; [|split].
    + apply closed_before_snoc; [assumption|]. exact Hall.
    + apply Forall_app. split; [assumption|].
      constructor; [simpl; lia|constructor].
    + intros ? Hnone. discriminate Hnone.
  - destruct E as (pos & pos' & s0 & Hpos & Ht & ->).
    apply trail_inv in Ht. destruct Ht as (He & _).
    destruct (Hp pos Hpos) as [Hlt Hall].
    split; [assumption|]. split; [assumption|].
    simpl. intros p Hp'. inversion Hp'; subst. rewrite He. split; [lia|assumption].
Qed.

Lemma StronglySorted_nth {A} (R : A -> A -> Prop) l :
  StronglySorted R l ->
  forall j k a b, (j < k)%nat ->
    nth_error l j = Some a -> nth_error l k = Some b -> R a b.
Proof.
  induction 1 as [|x l Hs IH Hx]; intros j k a b Hjk Ha Hb.
  - destruct j; discriminate.
  - destruct k as [|k]; [lia|]. simpl in Hb.
    destruct j as [|j]; simpl in Ha.
    + inversion Ha; subst. rewrite Forall_forall in Hx.
      apply Hx. eapply nth_error_In; eassumption.
    + eapply IH; [|eassumption|eassumption]. lia.
Qed.

Lemma run_intervals max_lookback s r s' :
  run use_trailing df max_lookback s = Ok (r, s') ->
  StronglySorted closed_before (trades r) /\
  Forall (fun t => (Trade.entry_idx t < Trade.exit_idx t)%nat) (trades r).
Proof.
  intro E. apply run_inv in E. destruct E as (v & s0 & Hloop & Hstats).
  assert (intervals_inv (max_lookback + (length df - max_lookback)) v)
    as (Hs & Hf & _).
  { apply (for_each_invariant (loop_body use_trailing df) intervals_inv)
      with (v := initial_locals) (s := s) (s' := s0).
    - intros. eapply loop_body_intervals; eassumption.
    - split; [constructor|]. split; [constructor|]. intros ? Hn. discriminate Hn.
    - exact Hloop. }
  apply calculate_stats_inv in Hstats.
  destruct Hstats as [(_ & Ht & _)|(_ & Ht & _)]; rewrite Ht.
  - split; constructor.
  - split; [assumption|].
    eapply Forall_impl; [|exact Hf]. simpl. intros; lia.
Qed.

End EngineFacts.

(** C2.  Whenever [run] returns a result, its equity curve has one more
    element than its trade list and starts at 1; with no recorded trade the
    curve is [[1]]. *)
Theorem run_equity_curve_length
        {S : Type} `{BaseStrategy S} (use_trailing : bool) (df : DataFrame)
        (max_lookback : nat) (self self' : S) (r : BacktestResult)
        (Hrun : run use_trailing df max_lookback self = Ok (r, self')) :
  length (equity_curve r) = (length (trades r) + 1)%nat /\
  nth_error (equity_curve r) 0 = Some 1 /\
  (trades r = [] -> equity_curve r = [1]).
Proof.
  destruct (run_curve use_trailing df max_lookback self r self' Hrun)
    as (Hl & Hh & Hz).
  split; [exact Hl|]. split; [|exact Hz].
  destruct (equity_curve r); [discriminate Hh | exact Hh].
Qed.

(** C10.  In a result returned by [run] every trade is closed on a later bar
    than it was opened on, each trade is closed strictly before any later
    trade of the list is opened (its immediate successor in particular), and
    no bar lies within two trades. *)
Theorem run_trades_disjoint
        {S : Type} `{BaseStrategy S} (use_trailing : bool) (df : DataFrame)
        (max_lookback : nat) (self self' : S) (r : BacktestResult)
        (Hrun : run use_trailing df max_lookback self = Ok (r, self')) :
  (forall t, In t (trades r) -> (Trade.entry_idx t < Trade.exit_idx t)%nat) /\
  (forall k t1 t2,
      nth_error (trades r) k = Some t1 ->
      nth_error (trades r) (Datatypes.S k) = Some t2 ->
      (Trade.exit_idx t1 < Trade.entry_idx t2)%nat) /\
  (forall j k t1 t2, (j < k)%nat ->
      nth_error (trades r) j = Some t1 -> nth_error (trades r) k = Some t2 ->
      closed_before t1 t2) /\
  (forall i j k t1 t2, j <> k ->
      nth_error (trades r) j = Some t1 -> nth_error (trades r) k = Some t2 ->
      ~ (open_at i t1 /\ open_at i t2)).
Proof.
  destruct (run_intervals use_trailing df max_lookback self r self' Hrun)
    as (Hs & Hf).
  pose proof (StronglySorted_nth closed_before (trades r) Hs) as Hn.
  split; [|split; [|split]].
  - rewrite Forall_forall in Hf. exact Hf.
  - intros k t1 t2 H1 H2. apply (Hn k (Datatypes.S k)); auto.
  - exact Hn.
  - intros i j k t1 t2 Hjk H1 H2 [[a b] [c d]].
    destruct (Nat.lt_total j k) as [L|[L|L]]; [|contradiction|].
    + pose proof (Hn j k t1 t2 L H1 H2) as C. unfold closed_before in C. lia.
    + pose proof (Hn k j t2 t1 L H2 H1) as C. unfold closed_before in C. lia.
Qed.

(** ** Local extrema *)

Section Extrema.
Import Scipy PatternSpec.

Variable cmp : Q -> Q -> bool.
Hypothesis cmp_irrefl : forall x, cmp x x = false.
Variable data : list Q.
Variable order : Z.
Hypothesis order_pos : (1 <= order)%Z.

Lemma take_clip_at (z : Z) (j : nat) :
  j = Z.to_nat (Z.max 0 (Z.min z (Z.of_nat (length data) - 1))) ->
  take_clip data z = nth j data 0.
Proof. intros ->. reflexivity. Qed.

Lemma shifts_interior (i : nat) :
  (i < length data)%nat ->
  forallb (shift_ok cmp data i) (seq 1 (Z.to_nat order)) = true ->
  interior data i = true.
Proof.
  intros Hi Hall. rewrite forallb_forall in Hall.
  assert (In 1%nat (seq 1 (Z.to_nat order))) as H1 by (apply in_seq; lia).
  specialize (Hall _ H1). unfold shift_ok in Hall.
  apply andb_true_iff in Hall. destruct Hall as [Hp Hm].
  unfold interior. apply andb_true_iff. split.
  - apply Nat.ltb_lt. destruct (Nat.eq_dec i 0) as [->|]; [|lia].
    rewrite (take_clip_at _ 0%nat) in Hm by lia.
    rewrite (take_clip_at _ 0%nat) in Hm by lia.
    rewrite cmp_irrefl in Hm. discriminate.
  - apply Nat.ltb_lt. destruct (Nat.eq_dec (i + 1) (length data)) as [E|]; [|lia].
    rewrite (take_clip_at _ i) in Hp by lia.
    rewrite (take_clip_at (_ + _) i) in Hp by lia.
    rewrite cmp_irrefl in Hp. discriminate.
Qed.

Lemma shifts_extremum (i : nat) :
  (i < length data)%nat ->
  forallb (shift_ok cmp data i) (seq 1 (Z.to_nat order)) = true ->
  local_extremum cmp data order i = true.
Proof.
  intros Hi Hall. rewrite forallb_forall in Hall.
  unfold local_extremum. apply forallb_forall. intros j Hj.
  apply in_seq in Hj. unfold within.
  destruct (Nat.eqb_spec i j) as [->|Hne]; [reflexivity|]. simpl.
  destruct (Z.leb_spec (Z.abs (Z.of_nat j - Z.of_nat i)) order) as [Hd|]; [|reflexivity].
  simpl.
  destruct (Nat.lt_total i j) as [L|[L|L]]; [|contradiction|].
  - assert (In (j - i)%nat (seq 1 (Z.to_nat order))) as Hs by (apply in_seq; lia).
    specialize (Hall _ Hs). unfold shift_ok in Hall.
    apply andb_true_iff in Hall. destruct Hall as [Hp _].
    rewrite (take_clip_at _ i) in Hp by lia.
    rewrite (take_clip_at (_ + _) j) in Hp by lia. exact Hp.
  - assert (In (i - j)%nat (seq 1 (Z.to_nat order))) as Hs by (apply in_seq; lia).
    specialize (Hall _ Hs). unfold shift_ok in Hall.
    apply andb_true_iff in Hall. destruct Hall as [_ Hm].
    rewrite (take_clip_at _ i) in Hm by lia.
    rewrite (take_clip_at (_ - _) j) in Hm by lia. exact Hm.
Qed.

Lemma extremum_shifts (i : nat) :
  (i < length data)%nat ->
  interior data i = true ->
  local_extremum cmp data order i = true ->
  forallb (shift_ok cmp data i) (seq 1 (Z.to_nat order)) = true.
Proof.
  intros Hi Hint Hext. unfold interior in Hint.
  apply andb_true_iff in Hint. destruct Hint as [H0 Hn].
  apply Nat.ltb_lt in H0. apply Nat.ltb_lt in Hn.
  unfold local_extremum in Hext. rewrite forallb_forall in Hext.
  assert (forall j, (j < length data)%nat -> j <> i ->
                    (Z.abs (Z.of_nat j - Z.of_nat i) <= order)%Z ->
                    cmp (nth i data 0) (nth j data 0) = true) as Hnear.
  { intros j Hj Hne Hd.
    assert (In j (seq 0 (length data))) as Hin by (apply in_seq; lia).
    specialize (Hext _ Hin). unfold within in Hext.
    destruct (Nat.eqb_spec i j); [congruence|].
    destruct (Z.leb_spec (Z.abs (Z.of_nat j - Z.of_nat i)) order); [|lia].
    exact Hext. }
  apply forallb_forall. intros s Hs. apply in_seq in Hs.
  unfold shift_ok. apply andb_true_iff. split.
  - rewrite (take_clip_at _ i) by lia.
    rewrite (take_clip_at (_ + _) (Nat.min (i + s) (length data - 1))) by lia.
    apply Hnear; lia.
  - rewrite (take_clip_at _ i) by lia.
    rewrite (take_clip_at (_ - _) (i - s)%nat) by lia.
    apply Hnear; lia.
Qed.

Lemma shifts_iff (i : nat) :
  (i < length data)%nat ->
  forallb (shift_ok cmp data i) (seq 1 (Z.to_nat order))
  = interior data i && local_extremum cmp data order i.
Proof.
  intro Hi. apply eq_true_iff_eq. rewrite andb_true_iff. split.
  - intro Hall. split; [apply shifts_interior | apply shifts_extremum]; assumption.
  - intros [Hint Hext]. apply extremum_shifts; assumption.
Qed.

Lemma nonzero_from_map (f : nat -> bool) n a :
  nonzero_from a (map f (seq a n)) = filter f (seq a n).
Proof.
  revert a. induction n as [|n IH]; intro a; simpl; [reflexivity|].
  rewrite IH. destruct (f a); reflexivity.
Qed.

Lemma argrelextrema_interior :
  argrelextrema data cmp order = Ok (interior_extrema cmp data order).
Proof.
  unfold argrelextrema, _boolrelextrema.
  destruct (Z.ltb_spec order 1) as [|_]; [lia|]. simpl.
  rewrite nonzero_from_map. unfold interior_extrema. f_equal.
  apply filter_ext_in. intros i Hi. apply in_seq in Hi.
  apply shifts_iff. lia.
Qed.

End Extrema.

Lemma argrelextrema_bad_order cmp data order :
  (order < 1)%Z -> Scipy.argrelextrema data cmp order = Raise ValueError.
Proof.
  intro Ho. unfold Scipy.argrelextrema, Scipy._boolrelextrema.
  destruct (Z.ltb_spec order 1); [reflexivity|lia].
Qed.

Lemma gtb_irrefl x : Num.gtb x x = false.
Proof. apply NumFacts.ltb_irrefl. Qed.

Lemma detect_qml_bull_interior df idx order recency :
  (1 <= order)%Z ->
  detect_qml_bull df idx order recency
  = Ok (PatternSpec.qml_bull_interior df idx order recency).
Proof.
  intro Ho. unfold detect_qml_bull, PatternSpec.qml_bull_interior.
  rewrite (argrelextrema_interior _ NumFacts.ltb_irrefl _ _ Ho). simpl.
  unfold PatternSpec.three_point_rule.
  destruct (_ <? 3)%nat; [reflexivity|].
  destruct (rev _) as [|i3 [|i2 [|i1 rest]]]; try reflexivity.
  unfold Num.gtb.
  destruct (_ && _ && _); reflexivity.
Qed.

Lemma detect_qml_bear_interior df idx order recency :
  (1 <= order)%Z ->
  detect_qml_bear df idx order recency
  = Ok (PatternSpec.qml_bear_interior df idx order recency).
Proof.
  intro Ho. unfold detect_qml_bear, PatternSpec.qml_bear_interior.
  rewrite (argrelextrema_interior _ gtb_irrefl _ _ Ho). simpl.
  unfold PatternSpec.three_point_rule.
  destruct (_ <? 3)%nat; [reflexivity|].
  destruct (rev _) as [|i3 [|i2 [|i1 rest]]]; try reflexivity.
  unfold Num.gtb.
  destruct (_ && _ && _); reflexivity.
Qed.

(** C8 (as worded, refuted).  On the lows 5, 6, 3, 6, 4, 6 with [order = 1]
    the first point is strictly below its only neighbour, so the worded rule
    counts three minima (5, 3, 4) and yields the sweep level 3; the detector
    finds two minima and returns nothing. *)
Lemma detect_qml_bull_first_point :
  detect_qml_bull Samples.edge_lows 5 1 20 = Ok None /\
  PatternSpec.qml_bull_spec Samples.edge_lows 5 1 20 = Some 3.
Proof. split; reflexivity. Qed.

(** C8 (amended).  For [order >= 1], [detect_qml_bull] returns the result of
    the three-point rule over the local minima of the lows up to and
    including [idx], where a point is a local minimum iff it is neither the
    first nor the last point and is strictly lower than every point within
    [order] positions on both sides; [detect_qml_bear] is the mirror over the
    highs.  With fewer than three such points the rule yields nothing. *)
Theorem detect_qml_interior_extrema
        (df : DataFrame) (idx : nat) (order recency : Z)
        (Horder : (1 <= order)%Z) :
  detect_qml_bull df idx order recency
  = Ok (PatternSpec.qml_bull_interior df idx order recency) /\
  detect_qml_bear df idx order recency
  = Ok (PatternSpec.qml_bear_interior df idx order recency).
Proof.
  split.
  - apply detect_qml_bull_interior, Horder.
  - apply detect_qml_bear_interior, Horder.
Qed.

(** Lows 9, 5, 9, 3, 9, 4, 9 with [order = 1]: the minima 5, 3, 4 at bars
    1, 3, 5 give the sweep level 3. *)
Lemma detect_qml_bull_sweep :
  detect_qml_bull Samples.sweep_lows 6 1 20 = Ok (Some 3).
Proof. reflexivity. Qed.

Lemma detect_qml_interior_extrema_sample :
  detect_qml_bull Samples.sweep_lows 6 1 20
  = Ok (PatternSpec.qml_bull_interior Samples.sweep_lows 6 1 20) /\
  detect_qml_bear Samples.sweep_lows 6 1 20
  = Ok (PatternSpec.qml_bear_interior Samples.sweep_lows 6 1 20).
Proof.
  apply (detect_qml_interior_extrema Samples.sweep_lows 6 1 20). lia.
Defined.

(** ** Entry filters *)

Section Filters.
Context {S : Type} `{BaseStrategy S}.
Variables (self : S) (df : DataFrame) (idx : nat) (r : Row).
Hypothesis Hrow : nth_error df idx = Some r.

Lemma check_filters_row :
  check_filters self df idx =
  Ok ((if use_vol_filter (config self)
       then negb (volume r <=? vol_avg r * vol_filter_mult (config self))
       else true)
      && negb (bb_width r <? squeeze_threshold (config self))).
Proof.
  unfold check_filters. rewrite !(iloc_row _ _ _ _ Hrow).
  destruct (use_vol_filter (config self)); simpl.
  - destruct (volume r <=? _); simpl; [reflexivity|].
    destruct (bb_width r <? _); reflexivity.
  - destruct (bb_width r <? _); reflexivity.
Qed.

Lemma generate_signal_filtered current_price :
  check_filters self df idx = Ok false ->
  generate_signal df idx current_price self = Ok (None, self).
Proof.
  intro E. unfold generate_signal, bind, get, lift. rewrite E. reflexivity.
Qed.

End Filters.

(** C7.  On a bar [r] of the frame: if the band width is below
    [squeeze_threshold] then, whatever [use_vol_filter] is, [check_filters]
    returns [False] and [generate_signal] returns no signal and leaves the
    strategy as it was; with [use_vol_filter] off the filters pass exactly
    when the band width is at least the threshold (the volume is not
    consulted); with it on they pass exactly when, in addition, the volume
    exceeds the average volume times [vol_filter_mult]. *)
Theorem squeeze_filter_always_active
        {S : Type} `{BaseStrategy S} (self : S) (df : DataFrame) (idx : nat)
        (r : Row) (current_price : option Q)
        (Hrow : nth_error df idx = Some r) :
  (bb_width r < squeeze_threshold (config self) ->
   check_filters self df idx = Ok false /\
   generate_signal df idx current_price self = Ok (None, self)) /\
  (use_vol_filter (config self) = false ->
   squeeze_threshold (config self) <= bb_width r ->
   check_filters self df idx = Ok true) /\
  (use_vol_filter (config self) = true ->
   (check_filters self df idx = Ok true <->
    vol_avg r * vol_filter_mult (config self) < volume r /\
    squeeze_threshold (config self) <= bb_width r)) /\
  (exists b, check_filters self df idx = Ok b).
Proof.
  rewrite (check_filters_row self df idx r Hrow).
  split; [|split; [|split]].
  - intro Hw.
    assert (check_filters self df idx = Ok false) as E.
    { rewrite (check_filters_row self df idx r Hrow).
      apply NumFacts.ltb_lt in Hw. rewrite Hw. simpl.
      rewrite andb_false_r. reflexivity. }
    split.
    + rewrite <- E. symmetry. apply check_filters_row, Hrow.
    + apply generate_signal_filtered, E.
  - intros -> Hw. apply NumFacts.ltb_ge in Hw. rewrite Hw. reflexivity.
  - intros ->. split.
    + intro E. inversion E as [E']. apply andb_true_iff in E'.
      destruct E' as [Hv Hw]. apply negb_true_iff in Hv, Hw.
      split; [apply NumFacts.leb_gt, Hv | apply NumFacts.ltb_ge, Hw].
    + intros [Hv Hw]. apply NumFacts.leb_gt in Hv. apply NumFacts.ltb_ge in Hw.
      rewrite Hv, Hw. reflexivity.
  - eauto.
Qed.

(** A squeezed bar on which the oscillator crosses upward above the trend
    average, volume filter off: no signal. *)
Lemma squeeze_filter_always_active_sample :
  check_filters (MacdEmaBbStrategy.init None) Samples.squeezed 1 = Ok false /\
  generate_signal Samples.squeezed 1 None (MacdEmaBbStrategy.init None)
  = Ok (None, MacdEmaBbStrategy.init None).
Proof.
  refine (proj1 (squeeze_filter_always_active
                   (MacdEmaBbStrategy.init None) Samples.squeezed 1
                   (mkRow 101 99 100 10 90 1 0 110 98 90 (1 # 2) 2 10) None
                   eq_refl) _).
  reflexivity.
Defined.

(** ** Entry signals of the MACD + EMA + Bollinger strategy *)

Lemma check_macd_cross_up_rows df k r r' :
  (1 <= k)%nat -> nth_error df k = Some r -> nth_error df (k - 1) = Some r' ->
  check_macd_cross_up df k
  = Ok ((macd r >? signal r) && (macd r' <=? signal r')).
Proof.
  intros Hk Hr Hr'. unfold check_macd_cross_up.
  destruct (Nat.ltb_spec k 1); [lia|].
  rewrite !(iloc_row _ _ _ _ Hr). simpl.
  destruct (macd r >? signal r); [|reflexivity].
  rewrite !(iloc_row _ _ _ _ Hr'). reflexivity.
Qed.

Lemma check_macd_cross_down_rows df k r r' :
  (1 <= k)%nat -> nth_error df k = Some r -> nth_error df (k - 1) = Some r' ->
  check_macd_cross_down df k
  = Ok ((macd r <? signal r) && (macd r' >=? signal r')).
Proof.
  intros Hk Hr Hr'. unfold check_macd_cross_down.
  destruct (Nat.ltb_spec k 1); [lia|].
  rewrite !(iloc_row _ _ _ _ Hr). simpl.
  destruct (macd r <? signal r); [|reflexivity].
  rewrite !(iloc_row _ _ _ _ Hr'). reflexivity.
Qed.

(** What a returned signal is made of. *)
Lemma generate_signal_inv df idx current_price
      (self self' : MacdEmaBbStrategy.t) (sg : Signal.t) :
  generate_signal df idx current_price self = Ok (Some sg, self') ->
  exists r entry side,
    nth_error df idx = Some r /\
    (side = "long" \/ side = "short") /\
    sg = Signal.mk side entry
           (fst (MacdEmaBbStrategy.calculate_sl_tp self' entry side (atr r) None))
           (snd (MacdEmaBbStrategy.calculate_sl_tp self' entry side (atr r) None))
           None.
Proof.
  unfold generate_signal. intro E.
  apply bind_ok in E. destruct E as (s0 & s1 & Hget & E).
  unfold get in Hget. inversion Hget; subst; clear Hget.
  apply bind_ok in E. destruct E as (pass & s2 & Hf & E).
  apply lift_ok in Hf. destruct Hf as [Hf ->].
  destruct pass; simpl in E; [|unfold ret in E; inversion E].
  apply bind_ok in E. destruct E as (entry & s3 & He & E).
  apply lift_ok in He. destruct He as [He ->].
  apply bind_ok in E. destruct E as (a & s4 & Ha & E).
  apply lift_ok in Ha. destruct Ha as [Ha ->].
  apply iloc_ok in Ha. destruct Ha as (r & Hr & ->).
  apply bind_ok in E. destruct E as (is_long & s5 & Hl & E).
  destruct is_long.
  - apply bind_ok in E. destruct E as ([sl tp] & s6 & Hc & E).
    simpl in Hc. unfold ret in E. inversion E; subst; clear E.
    exists r, entry, "long".
    replace (MacdEmaBbStrategy.calculate_sl_tp self' entry "long" (atr r) None)
      with (sl, tp) by congruence.
    simpl. auto.
  - apply bind_ok in E. destruct E as (is_short & s6 & Hsh & E).
    destruct is_short; [|unfold ret in E; inversion E].
    apply bind_ok in E. destruct E as ([sl tp] & s7 & Hc & E).
    simpl in Hc. unfold ret in E. inversion E; subst; clear E.
    exists r, entry, "short".
    replace (MacdEmaBbStrategy.calculate_sl_tp self' entry "short" (atr r) None)
      with (sl, tp) by congruence.
    simpl. auto.
Qed.

(** C9.  Pattern-gating and extreme-stop mode off; on bar [k >= 1] the
    oscillator is above its signal line after being at or below it on bar
    [k - 1], the close is above the trend average, and the filters pass:
    [generate_signal] (called without a current price, as the engine does)
    returns a long signal entered at the close, with the stop at
    close - ATR x atr_sl_mult and the target at
    close + (close - stop) x rr_ratio, and leaves the strategy as it was. *)
Theorem generate_signal_long_on_cross
        (self : MacdEmaBbStrategy.t) (df : DataFrame) (k : nat) (r r' : Row)
        (Hqml : use_qml (config self) = false)
        (Hextreme : use_qml_extreme_sl (config self) = false)
        (Hk : (1 <= k)%nat)
        (Hprev : nth_error df (k - 1) = Some r')
        (Hcur : nth_error df k = Some r)
        (Hwas : macd r' <= signal r')
        (His : signal r < macd r)
        (Htrend : ema r < close r)
        (Hfilters : check_filters self df k = Ok true) :
  let stop := close r - atr r * atr_sl_mult (config self) in
  let target := close r + (close r - stop) * rr_ratio (config self) in
  generate_signal df k None self
  = Ok (Some (Signal.mk "long" (close r) stop target None), self).
Proof.
  simpl in Hqml, Hextreme.
  unfold generate_signal, bind, get, lift. rewrite Hfilters. simpl.
  rewrite !(iloc_row _ _ _ _ Hcur).
  unfold MacdEmaBbStrategy.check_long_signal, bind, get, lift.
  rewrite (check_macd_cross_up_rows df k r r' Hk Hcur Hprev).
  apply NumFacts.gtb_gt in His. apply NumFacts.leb_le in Hwas.
  rewrite His, Hwas. simpl.
  unfold check_price_above_ema. rewrite !(iloc_row _ _ _ _ Hcur). simpl.
  apply NumFacts.gtb_gt in Htrend. rewrite Htrend. simpl.
  rewrite Hqml. unfold ret.
  unfold MacdEmaBbStrategy.calculate_sl_tp. rewrite Hextreme. simpl.
  reflexivity.
Qed.

(** Bar 1 of the sample frame: close 100, ATR 2, multiplier 3/2, ratio 2. *)
Lemma generate_signal_long_on_cross_sample :
  generate_signal Samples.one_trade 1 None (MacdEmaBbStrategy.init None)
  = Ok (Some (Signal.mk "long" 100 (100 - 2 * (3 # 2))
                        (100 + (100 - (100 - 2 * (3 # 2))) * 2) None),
        MacdEmaBbStrategy.init None).
Proof.
  apply (generate_signal_long_on_cross
           (MacdEmaBbStrategy.init None) Samples.one_trade 1
           (mkRow 101 99 100 10 90 1 0 110 98 90 2 2 10)
           (mkRow 101 99 100 10 90 0 0 110 98 90 2 2 10));
    reflexivity || (apply Qle_bool_iff; reflexivity) || lia.
Defined.

(** *** The configuration is never assigned *)

Lemma check_long_signal_cfg df idx self b self' :
  MacdEmaBbStrategy.check_long_signal df idx self = Ok (b, self') ->
  MacdEmaBbStrategy.config self' = MacdEmaBbStrategy.config self.
Proof.
  unfold MacdEmaBbStrategy.check_long_signal. intro E.
  apply bind_ok in E. destruct E as (s0 & s1 & Hget & E).
  unfold get in Hget. inversion Hget; subst; clear Hget.
  apply bind_ok in E. destruct E as (up & s2 & Hu & E).
  apply lift_ok in Hu. destruct Hu as [_ ->].
  destruct up; simpl in E; [|minv; reflexivity].
  apply bind_ok in E. destruct E as (above & s3 & Ha & E).
  apply lift_ok in Ha. destruct Ha as [_ ->].
  destruct above; simpl in E; [|minv; reflexivity].
  destruct (use_qml (MacdEmaBbStrategy.config s1)); [|minv; reflexivity].
  apply bind_ok in E. destruct E as (level & s4 & Hd & E).
  apply lift_ok in Hd. destruct Hd as [_ ->].
  destruct level as [level|]; [|minv; reflexivity].
  apply bind_ok in E. destruct E as (u & s5 & Hset & E).
  unfold MacdEmaBbStrategy.set_last_qml_bull in Hset.
  inversion Hset; subst; clear Hset. minv. reflexivity.
Qed.

Lemma check_short_signal_cfg df idx self b self' :
  MacdEmaBbStrategy.check_short_signal df idx self = Ok (b, self') ->
  MacdEmaBbStrategy.config self' = MacdEmaBbStrategy.config self.
Proof.
  unfold MacdEmaBbStrategy.check_short_signal. intro E.
  apply bind_ok in E. destruct E as (s0 & s1 & Hget & E).
  unfold get in Hget. inversion Hget; subst; clear Hget.
  apply bind_ok in E. destruct E as (down & s2 & Hu & E).
  apply lift_ok in Hu. destruct Hu as [_ ->].
  destruct down; simpl in E; [|minv; reflexivity].
  apply bind_ok in E. destruct E as (below & s3 & Ha & E).
  apply lift_ok in Ha. destruct Ha as [_ ->].
  destruct below; simpl in E; [|minv; reflexivity].
  destruct (use_qml (MacdEmaBbStrategy.config s1)); [|minv; reflexivity].
  apply bind_ok in E. destruct E as (level & s4 & Hd & E).
  apply lift_ok in Hd. destruct Hd as [_ ->].
  destruct level as [level|]; [|minv; reflexivity].
  apply bind_ok in E. destruct E as (u & s5 & Hset & E).
  unfold MacdEmaBbStrategy.set_last_qml_bear in Hset.
  inversion Hset; subst; clear Hset. minv. reflexivity.
Qed.

Lemma generate_signal_cfg df idx current_price
      (self self' : MacdEmaBbStrategy.t) (sg : option Signal.t) :
  generate_signal df idx current_price self = Ok (sg, self') ->
  MacdEmaBbStrategy.config self' = MacdEmaBbStrategy.config self.
Proof.
  unfold generate_signal. intro E.
  apply bind_ok in E. destruct E as (s0 & s1 & Hget & E).
  unfold get in Hget. inversion Hget; subst; clear Hget.
  apply bind_ok in E. destruct E as (pass & s2 & Hf & E).
  apply lift_ok in Hf. destruct Hf as [Hf ->].
  destruct pass; simpl in E; [|minv; reflexivity].
  apply bind_ok in E. destruct E as (entry & s3 & He & E).
  apply lift_ok in He. destruct He as [He ->].
  apply bind_ok in E. destruct E as (a & s4 & Ha & E).
  apply lift_ok in Ha. destruct Ha as [Ha ->].
  apply bind_ok in E. destruct E as (is_long & s5 & Hl & E).
  apply check_long_signal_cfg in Hl.
  destruct is_long.
  - apply bind_ok in E. destruct E as ([sl tp] & s6 & Hc & E).
    simpl in Hc. inversion Hc; subst. minv. assumption.
  - apply bind_ok in E. destruct E as (is_short & s6 & Hsh & E).
    apply check_short_signal_cfg in Hsh.
    destruct is_short; [|minv; congruence].
    apply bind_ok in E. destruct E as ([sl tp] & s7 & Hc & E).
    simpl in Hc. inversion Hc; subst. minv. congruence.
Qed.

(** *** Risk and reward of a signal *)

(** C4 (as worded, refuted).  With pattern-gating and extreme-stop mode on,
    the sample frame gives at bar 7 a long signal entered at 6 whose stop is
    the sweep level 16 less 1 x 3/2: risk and reward are negative.  With
    both modes off and [rr_ratio = -1], the long signal of the other sample
    has a negative reward. *)
Lemma generate_signal_negative_risk :
  (exists sg self',
     generate_signal Samples.below_sweep 7 None
       (MacdEmaBbStrategy.init (Some Samples.extreme_config))
     = Ok (Some sg, self') /\
     Signal.side sg = "long" /\ Signal.entry_price sg = 6 /\
     Signal.stop_loss sg == 29 # 2 /\
     Signal.risk sg < 0 /\ Signal.reward sg < 0) /\
  (exists sg self',
     generate_signal Samples.one_trade 1 None
       (MacdEmaBbStrategy.init (Some Samples.negative_rr_config))
     = Ok (Some sg, self') /\
     Signal.side sg = "long" /\ Signal.reward sg < 0).
Proof.
  split; eexists; eexists; (split; [vm_compute; reflexivity|]);
    repeat split; reflexivity.
Qed.


(** *** The stop recorded by the engine *)

Lemma trail_stop use_trailing df i pos pos' (s s' : MacdEmaBbStrategy.t) :
  trail use_trailing df i pos s = Ok (pos', s') ->
  (Position.side pos = "long" -> Position.sl pos <= Position.sl pos') /\
  (Position.side pos <> "long" -> Position.sl pos' <= Position.sl pos) /\
  (Position.reached_1to1 pos = true -> Position.reached_1to1 pos' = true).
Proof.
  unfold trail. destruct use_trailing; intro E.
  - apply bind_ok in E. destruct E as ([new_sl new_reached] & s0 & Hu & E).
    simpl in Hu. apply lift_ok in Hu. destruct Hu as [Hu ->].
    apply update_trailing_stop_inv in Hu.
    destruct Hu as (r & _ & Hre & Hlong & Hshort).
    minv. simpl. split; [|split].
    + intro Hs. apply Hlong, Hs.
    + intro Hs. apply Hshort, Hs.
    + exact Hre.
  - minv. split; [|split]; intros; try apply Qle_refl; assumption.
Qed.

Lemma loop_body_stop use_trailing df i v v' (s s' : MacdEmaBbStrategy.t)
      pos pos' :
  l_in_position v = true ->
  l_position v = Some pos ->
  loop_body use_trailing df v i s = Ok (v', s') ->
  l_position v' = Some pos' ->
  Position.entry_idx pos' = Position.entry_idx pos /\
  Position.side pos' = Position.side pos /\
  (Position.side pos = "long" -> Position.sl pos <= Position.sl pos') /\
  (Position.side pos <> "long" -> Position.sl pos' <= Position.sl pos) /\
  (Position.reached_1to1 pos = true -> Position.reached_1to1 pos' = true).
Proof.
  intros Hin Hpos E Hpos'. apply loop_body_cases in E.
  destruct E as [[C _]|[[C _]|[[_ E]|[_ E]]]]; try congruence.
  - destruct E as (p & p' & s0 & price & reason & _ & _ & ->).
    simpl in Hpos'. discriminate Hpos'.
  - destruct E as (p & p' & s0 & Hp & Ht & ->).
    simpl in Hpos'. inversion Hpos'; subst p'; clear Hpos'.
    rewrite Hpos in Hp. inversion Hp; subst p; clear Hp.
    destruct (trail_inv _ _ _ _ _ _ _ Ht) as (He & _ & Hs & _).
    destruct (trail_stop _ _ _ _ _ _ _ Ht) as (Hl & Hsh & Hre).
    auto.
Qed.

(** C3.  Whenever [update_trailing_stop] returns: the returned flag is set
    if the passed one is; for a long position the returned stop is the
    maximum of the passed stop and the bar's mid band when the returned flag
    is set and the passed stop otherwise, hence never below the passed stop;
    for a short position it is the minimum, hence never above.  It returns on
    every bar of the frame.  In the engine, while a position stays open from
    one bar to the next, its side is kept, its flag stays set, and its
    recorded stop does not decrease (long) or increase (short). *)
Theorem update_trailing_stop_monotone :
  (forall df idx side entry sl reached new_sl new_reached,
      MacdEmaBbStrategy.update_trailing_stop df idx side entry sl reached
      = Ok (new_sl, new_reached) ->
      exists r, nth_error df idx = Some r /\
        (reached = true -> new_reached = true) /\
        (side = "long" ->
         new_sl = (if new_reached then Qmax sl (bb_mid r) else sl)
         /\ sl <= new_sl) /\
        (side <> "long" ->
         new_sl = (if new_reached then Qmin sl (bb_mid r) else sl)
         /\ new_sl <= sl)) /\
  (forall df idx r side entry sl reached,
      nth_error df idx = Some r ->
      exists res,
        MacdEmaBbStrategy.update_trailing_stop df idx side entry sl reached
        = Ok res) /\
  (forall use_trailing df i v v' (s s' : MacdEmaBbStrategy.t) pos pos',
      l_in_position v = true ->
      l_position v = Some pos ->
      loop_body use_trailing df v i s = Ok (v', s') ->
      l_position v' = Some pos' ->
      Position.side pos' = Position.side pos /\
      (Position.side pos = "long" -> Position.sl pos <= Position.sl pos') /\
      (Position.side pos <> "long" -> Position.sl pos' <= Position.sl pos) /\
      (Position.reached_1to1 pos = true -> Position.reached_1to1 pos' = true)).
Proof.
  split; [|split].
  - intros. eapply update_trailing_stop_inv; eassumption.
  - intros. eapply update_trailing_stop_total; eassumption.
  - intros use_trailing df i v v' s s' pos pos' Hin Hpos E Hpos'.
    destruct (loop_body_stop _ _ _ _ _ _ _ _ _ Hin Hpos E Hpos')
      as (_ & Hs & Hl & Hsh & Hre).
    auto.
Qed.

(** Bar 2 of the sample frame (high 107, mid band 98) for a long position
    entered at 100 with the stop at 97: the 1:1 level 103 is reached and the
    stop moves to 98. *)
Lemma update_trailing_stop_monotone_sample :
  exists r, nth_error Samples.one_trade 2 = Some r /\
    (false = true -> true = true) /\
    ("long" = "long" ->
     98 = (if true then Qmax 97 (bb_mid r) else 97) /\ 97 <= 98) /\
    ("long" <> "long" ->
     98 = (if true then Qmin 97 (bb_mid r) else 97) /\ 98 <= 97).
Proof.
  apply (proj1 update_trailing_stop_monotone
           Samples.one_trade 2%nat "long" 100 97 false 98 true).
  reflexivity.
Defined.

(** ** The engine returns *)

Section Totality.
Variable use_trailing : bool.
Variable df : DataFrame.

Lemma check_long_signal_total idx r self :
  nth_error df idx = Some r -> order_ok (MacdEmaBbStrategy.config self) ->
  exists b self', MacdEmaBbStrategy.check_long_signal df idx self = Ok (b, self').
Proof.
  intros Hrow Hord. unfold MacdEmaBbStrategy.check_long_signal, bind, get, lift.
  destruct (cross_up_total df idx r Hrow) as [up ->].
  destruct up; simpl; [|unfold ret; eauto].
  unfold check_price_above_ema. rewrite !(iloc_row _ _ _ _ Hrow). simpl.
  destruct (close r >? ema r); simpl; [|unfold ret; eauto].
  destruct Hord as [-> | Hord]; [unfold ret; eauto|].
  destruct (use_qml _); [|unfold ret; eauto].
  rewrite (detect_qml_bull_interior _ _ _ _ Hord).
  destruct (PatternSpec.qml_bull_interior _ _ _ _); unfold ret; simpl; eauto.
Qed.

Lemma check_short_signal_total idx r self :
  nth_error df idx = Some r -> order_ok (MacdEmaBbStrategy.config self) ->
  exists b self', MacdEmaBbStrategy.check_short_signal df idx self = Ok (b, self').
Proof.
  intros Hrow Hord. unfold MacdEmaBbStrategy.check_short_signal, bind, get, lift.
  destruct (cross_down_total df idx r Hrow) as [down ->].
  destruct down; simpl; [|unfold ret; eauto].
  unfold check_price_below_ema. rewrite !(iloc_row _ _ _ _ Hrow). simpl.
  destruct (close r <? ema r); simpl; [|unfold ret; eauto].
  destruct Hord as [-> | Hord]; [unfold ret; eauto|].
  destruct (use_qml _); [|unfold ret; eauto].
  rewrite (detect_qml_bear_interior _ _ _ _ Hord).
  destruct (PatternSpec.qml_bear_interior _ _ _ _); unfold ret; simpl; eauto.
Qed.

Lemma generate_signal_total idx r (self : MacdEmaBbStrategy.t) :
  nth_error df idx = Some r -> order_ok (MacdEmaBbStrategy.config self) ->
  exists sg self', generate_signal df idx None self = Ok (sg, self').
Proof.
  intros Hrow Hord. unfold generate_signal, bind, get, lift.
  rewrite (check_filters_row self df idx r Hrow).
  destruct (_ && _); simpl; [|unfold ret; eauto].
  rewrite !(iloc_row _ _ _ _ Hrow).
  destruct (check_long_signal_total idx r self Hrow Hord) as (b & s1 & Hl).
  rewrite Hl. apply check_long_signal_cfg in Hl.
  destruct b; [unfold ret; eauto|].
  assert (order_ok (MacdEmaBbStrategy.config s1)) as Hord1 by (rewrite Hl; exact Hord).
  destruct (check_short_signal_total idx r s1 Hrow Hord1) as (b & s2 & Hs).
  rewrite Hs. destruct b; unfold ret; eauto.
Qed.

Lemma check_exit_conditions_total idx r side entry sl tp :
  nth_error df idx = Some r ->
  exists should_exit price reason,
    MacdEmaBbStrategy.check_exit_conditions df idx side entry sl tp
    = Ok (should_exit, price, reason) /\
    (should_exit = true -> exists p, price = Some p).
Proof.
  intro Hrow. unfold MacdEmaBbStrategy.check_exit_conditions.
  rewrite !(iloc_row _ _ _ _ Hrow). simpl.
  destruct (cross_down_total df idx r Hrow) as [down ->].
  destruct (cross_up_total df idx r Hrow) as [up ->]. simpl.
  destruct (String.eqb side "long").
  - destruct (low r <=? sl); [eauto 8|].
    destruct (high r >=? tp); [eauto 8|].
    destruct down; [eauto 8|].
    destruct (high r >=? bb_upper r); [eauto 8|].
    do 3 eexists. split; [reflexivity|discriminate].
  - destruct (high r >=? sl); [eauto 8|].
    destruct (low r <=? tp); [eauto 8|].
    destruct up; [eauto 8|].
    destruct (low r <=? bb_lower r); [eauto 8|].
    do 3 eexists. split; [reflexivity|discriminate].
Qed.

Lemma trail_total idx r pos (self : MacdEmaBbStrategy.t) :
  nth_error df idx = Some r ->
  exists pos', trail use_trailing df idx pos self = Ok (pos', self).
Proof.
  intro Hrow. unfold trail. destruct use_trailing; [|unfold ret; eauto].
  unfold bind. simpl. unfold lift.
  destruct (update_trailing_stop_total df idx r (Position.side pos)
              (Position.entry_price pos) (Position.sl pos)
              (Position.reached_1to1 pos) Hrow) as ([new_sl new_reached] & ->).
  unfold ret. eauto.
Qed.

Lemma loop_body_total i v (self : MacdEmaBbStrategy.t) :
  (i < length df)%nat -> order_ok (MacdEmaBbStrategy.config self) ->
  position_inv v ->
  exists v' self',
    loop_body use_trailing df v i self = Ok (v', self') /\
    order_ok (MacdEmaBbStrategy.config self') /\ position_inv v'.
Proof.
  intros Hi Hord Hpos.
  destruct (nth_error df i) as [r|] eqn:Hrow;
    [|apply nth_error_None in Hrow; lia].
  unfold loop_body. destruct (l_in_position v) eqn:Hin; simpl.
  - destruct (Hpos Hin) as [pos ->].
    destruct (trail_total i r pos self Hrow) as [pos' Ht].
    unfold bind. rewrite Ht. simpl. unfold lift.
    destruct (check_exit_conditions_total i r (Position.side pos')
                (Position.entry_price pos') (Position.sl pos')
                (Position.tp pos') Hrow)
      as (should_exit & price & reason & -> & Hprice).
    destruct should_exit.
    + destruct (Hprice eq_refl) as [p ->]. unfold ret.
      do 2 eexists. split; [reflexivity|]. split; [assumption|].
      intro C. discriminate C.
    + unfold ret. do 2 eexists. split; [reflexivity|]. split; [assumption|].
      intros _. simpl. eauto.
  - destruct (generate_signal_total i r self Hrow Hord) as (sg & s1 & Hg).
    unfold bind. rewrite Hg.
    apply generate_signal_cfg in Hg.
    destruct sg as [sg|]; unfold ret; do 2 eexists;
      (split; [reflexivity|]); (split; [rewrite Hg; assumption|]).
    + intros _. simpl. eauto.
    + intro C. congruence.
Qed.

Lemma for_each_total n : forall a v (self : MacdEmaBbStrategy.t),
  (a + n <= length df)%nat -> order_ok (MacdEmaBbStrategy.config self) ->
  position_inv v ->
  exists v' self',
    for_each (loop_body use_trailing df) (seq a n) v self = Ok (v', self').
Proof.
  induction n as [|n IH]; intros a v self Hle Hord Hpos; simpl.
  - unfold ret. eauto.
  - destruct (loop_body_total a v self) as (v1 & s1 & E & Hord1 & Hpos1);
      try assumption; [lia|].
    unfold bind. rewrite E. apply IH; try assumption. lia.
Qed.

Lemma np_max_total xs : xs <> [] -> exists m, np_max xs = Ok m.
Proof. destruct xs; [congruence|simpl; eauto]. Qed.

Lemma calculate_stats_total ts curve :
  curve <> [] -> exists r, _calculate_stats ts curve = Ok r.
Proof.
  intro Hne. unfold _calculate_stats. destruct ts as [|t ts]; [eauto|].
  destruct curve as [|e curve]; [congruence|]. simpl. eauto.
Qed.

(** With pattern-gating off, or [qml_order >= 1], [run] returns a result
    for every frame and every start position. *)
Lemma run_total max_lookback (self : MacdEmaBbStrategy.t) :
  order_ok (MacdEmaBbStrategy.config self) ->
  exists r self', run use_trailing df max_lookback self = Ok (r, self').
Proof.
  intro Hord.
  assert (exists v s1,
             for_each (loop_body use_trailing df)
                      (range max_lookback (length df)) initial_locals self
             = Ok (v, s1)) as (v & s1 & E).
  { unfold range.
    destruct (Nat.le_gt_cases max_lookback (length df)) as [Hle|Hgt].
    - apply for_each_total; [lia|assumption|]. intro C. discriminate C.
    - replace (length df - max_lookback)%nat with 0%nat by lia.
      simpl. unfold ret. eauto. }
  assert (curve_inv v) as [Hl _].
  { apply (for_each_invariant (loop_body use_trailing df) (fun _ => curve_inv))
      with (n := (length df - max_lookback)%nat) (a := max_lookback)
           (v := initial_locals) (s := self) (s' := s1).
    - intros. eapply loop_body_curve; eassumption.
    - split; reflexivity.
    - exact E. }
  destruct (calculate_stats_total (l_trades v) (l_equity_curve v)) as [r Hr].
  { intro C. rewrite C in Hl. simpl in Hl. lia. }
  unfold run, bind, lift. rewrite E, Hr. eauto.
Qed.

End Totality.

(** *** Sample runs *)

(** The six-bar sample frame from bar 1 on, default settings: a long trade
    opened on bar 1 at 100 and closed on bar 2 at the target 106, then a long
    trade opened on bar 4 at 105 and closed on bar 5 at the stop 102. *)
Lemma run_two_trades :
  exists r self',
    run true Samples.two_trades 1 (MacdEmaBbStrategy.init None) = Ok (r, self')
    /\ map (fun t => (Trade.entry_idx t, Trade.exit_idx t, Qred (Trade.exit_price t),
                      Trade.exit_reason t))
           (trades r)
       = [(1%nat, 2%nat, 106, "take_profit"); (4%nat, 5%nat, 102, "stop_loss")]
    /\ length (equity_curve r) = 3%nat.
Proof.
  do 2 eexists. split; [vm_compute; reflexivity|]. split; reflexivity.
Qed.

Lemma run_equity_curve_length_sample :
  exists r self',
    run true Samples.two_trades 1 (MacdEmaBbStrategy.init None) = Ok (r, self')
    /\ length (equity_curve r) = (length (trades r) + 1)%nat
    /\ nth_error (equity_curve r) 0 = Some 1
    /\ (trades r = [] -> equity_curve r = [1]).
Proof.
  do 2 eexists. split; [vm_compute; reflexivity|].
  eapply (run_equity_curve_length true Samples.two_trades 1
            (MacdEmaBbStrategy.init None)).
  vm_compute. reflexivity.
Defined.

Lemma run_trades_disjoint_sample :
  exists r self',
    run true Samples.two_trades 1 (MacdEmaBbStrategy.init None) = Ok (r, self')
    /\ (forall t, In t (trades r) -> (Trade.entry_idx t < Trade.exit_idx t)%nat)
    /\ (forall k t1 t2,
          nth_error (trades r) k = Some t1 ->
          nth_error (trades r) (Datatypes.S k) = Some t2 ->
          (Trade.exit_idx t1 < Trade.entry_idx t2)%nat).
Proof.
  do 2 eexists. split; [vm_compute; reflexivity|].
  assert (forall self' r,
             run true Samples.two_trades 1 (MacdEmaBbStrategy.init None)
             = Ok (r, self') ->
             (forall t, In t (trades r) ->
                        (Trade.entry_idx t < Trade.exit_idx t)%nat) /\
             (forall k t1 t2,
                 nth_error (trades r) k = Some t1 ->
                 nth_error (trades r) (Datatypes.S k) = Some t2 ->
                 (Trade.exit_idx t1 < Trade.entry_idx t2)%nat)) as P.
  { intros self' r Hrun.
    destruct (run_trades_disjoint true Samples.two_trades 1
                (MacdEmaBbStrategy.init None) self' r Hrun) as (H1 & H2 & _).
    split; assumption. }
  eapply P. vm_compute. reflexivity.
Defined.


(** ** Grid search *)

Section GridSearch.
Import GridSearchOptimizer.
Variable self : GridSearchOptimizer.t.

Lemma loop_body_failed v params :
  failed self params -> loop_body self v params = v.
Proof. intros [e He]. unfold loop_body. rewrite He. reflexivity. Qed.

Lemma fold_loop_all_failed ps v :
  Forall (failed self) ps -> fold_left (loop_body self) ps v = v.
Proof.
  revert v. induction ps as [|p ps IH]; intros v Hf; simpl; [reflexivity|].
  inversion Hf; subst. rewrite loop_body_failed by assumption. apply IH. assumption.
Qed.

Lemma loop_body_has_best v params :
  has_best v -> has_best (loop_body self v params).
Proof.
  intros (r & p & d & Hr & Hp & Hd). unfold loop_body.
  destruct (backtest_combo self params) as [[df res]|]; [|exists r, p, d; auto].
  destruct (beats _ _); simpl.
  - exists res, params, df. auto.
  - exists r, p, d. auto.
Qed.

Lemma fold_loop_has_best ps v :
  has_best v -> has_best (fold_left (loop_body self) ps v).
Proof.
  revert v. induction ps as [|p ps IH]; intros v Hv; simpl; [assumption|].
  apply IH, loop_body_has_best, Hv.
Qed.

Lemma loop_body_returned v params df res :
  l_best_score v = None ->
  backtest_combo self params = Ok (df, res) ->
  has_best (loop_body self v params).
Proof.
  intros Hs E. unfold loop_body. rewrite E, Hs. simpl.
  exists res, params, df. auto.
Qed.

Lemma fold_loop_cases ps : forall v,
  l_best_score v = None ->
  Forall (failed self) ps \/ has_best (fold_left (loop_body self) ps v).
Proof.
  induction ps as [|p ps IH]; intros v Hs; [left; constructor|]. simpl.
  destruct (backtest_combo self p) as [[df res]|e] eqn:E.
  - right. apply fold_loop_has_best. eapply loop_body_returned; eassumption.
  - assert (failed self p) as Hf by (exists e; exact E).
    rewrite loop_body_failed by assumption.
    destruct (IH v Hs) as [Hall|Hb]; [left; constructor; assumption|right; exact Hb].
Qed.

Lemma run_raises_iff :
  (exists e, run self = Raise e) <->
  Forall (failed self) (combinations (param_grid self)).
Proof.
  unfold run. split.
  - intros [e He].
    destruct (fold_loop_cases (combinations (param_grid self)) initial_locals
                eq_refl) as [Hall|Hb]; [exact Hall|].
    destruct Hb as (r & p & d & Hr & Hp & Hd).
    rewrite Hr, Hp, Hd in He. discriminate He.
  - intro Hall. rewrite fold_loop_all_failed by assumption. simpl. eauto.
Qed.

Lemma failed_or_returned ps :
  Forall (failed self) ps \/
  Exists (fun p => exists df r, backtest_combo self p = Ok (df, r)) ps.
Proof.
  induction ps as [|p ps [IH|IH]].
  - left. constructor.
  - destruct (backtest_combo self p) as [[df r]|e] eqn:E.
    + right. left. eauto.
    + left. constructor; [exists e; exact E|exact IH].
  - right. right. exact IH.
Qed.

Lemma run_returns_iff :
  (exists o, run self = Ok o) <->
  Exists (fun p => exists df r, backtest_combo self p = Ok (df, r))
         (combinations (param_grid self)).
Proof.
  split.
  - intros [o Ho].
    destruct (failed_or_returned (combinations (param_grid self)))
      as [Hall|Hex]; [|exact Hex].
    apply run_raises_iff in Hall. destruct Hall as [e He]. congruence.
  - intro Hex.
    destruct (run self) as [o|e] eqn:E; [eauto|].
    assert (exists e, run self = Raise e) as Hr by eauto.
    apply run_raises_iff in Hr. rewrite Forall_forall in Hr.
    apply Exists_exists in Hex. destruct Hex as (p & Hin & df & r & Hp).
    destruct (Hr p Hin) as [e' He']. congruence.
Qed.

End GridSearch.

(** C6 (as worded, refuted).  A grid of one combination whose backtest
    records no trade, with [min_trades = 10]: no combination meets the
    threshold, and [run] returns that combination as best. *)
Lemma run_returns_below_min_trades :
  (forall p df r,
      In p (GridSearchOptimizer.combinations
              (GridSearchOptimizer.param_grid Samples.optimizer_no_trades)) ->
      GridSearchOptimizer.backtest_combo Samples.optimizer_no_trades p
      = Ok (df, r) ->
      ~ reaches_min_trades Samples.optimizer_no_trades r) /\
  exists o,
    GridSearchOptimizer.run Samples.optimizer_no_trades = Ok o /\
    best_params o = [("ema_period", PInt 100)] /\
    num_trades (best_result o) = 0%nat.
Proof.
  split.
  - intros p df r _ E. vm_compute in E. inversion E; subst.
    unfold reaches_min_trades. simpl. lia.
  - eexists. split; [vm_compute; reflexivity|]. split; reflexivity.
Qed.

(** C6 (amended).  [run] raises exactly when the backtest of every parameter
    combination failed (in particular when there is no combination), and
    returns an [OptimizationResult] exactly when the backtest of some
    combination returned, whether or not it met the minimum-trade
    threshold. *)
Theorem run_raises_iff_all_failed (self : GridSearchOptimizer.t) :
  ((exists e, GridSearchOptimizer.run self = Raise e) <->
   Forall (failed self)
          (GridSearchOptimizer.combinations
             (GridSearchOptimizer.param_grid self))) /\
  ((exists o, GridSearchOptimizer.run self = Ok o) <->
   Exists (fun p => exists df r,
               GridSearchOptimizer.backtest_combo self p = Ok (df, r))
          (GridSearchOptimizer.combinations
             (GridSearchOptimizer.param_grid self))) /\
  (forall e, GridSearchOptimizer.run self = Raise e -> e = ValueError).
Proof.
  split; [apply run_raises_iff|]. split; [apply run_returns_iff|].
  intros e He.
  assert (exists e, GridSearchOptimizer.run self = Raise e) as Hr by eauto.
  apply run_raises_iff in Hr.
  unfold GridSearchOptimizer.run in He.
  rewrite fold_loop_all_failed in He by assumption. simpl in He. congruence.
Qed.

(** *** Which combination wins *)

Section Selection.
Import GridSearchOptimizer.
Variable self : GridSearchOptimizer.t.

Lemma calculate_score_reached result params :
  reaches_min_trades self result ->
  _calculate_score self result params = getattr result (metric self).
Proof.
  unfold reaches_min_trades, _calculate_score. intro Hr.
  destruct (Z.ltb_spec (Z.of_nat (num_trades result)) (min_trades self)); [lia|reflexivity].
Qed.

Lemma calculate_score_penalised result params :
  ~ reaches_min_trades self result ->
  _calculate_score self result params = getattr result (metric self) - 1000.
Proof.
  unfold reaches_min_trades, _calculate_score. intro Hr.
  destruct (Z.ltb_spec (Z.of_nat (num_trades result)) (min_trades self)); [reflexivity|lia].
Qed.

Lemma loop_body_below bound v params :
  best_score_below bound v ->
  penalised_below self Qlt bound params ->
  best_score_below bound (loop_body self v params).
Proof.
  intros Hv [Hf | (df & res & E & Hn & Hlt)].
  - rewrite loop_body_failed by assumption. exact Hv.
  - unfold loop_body. rewrite E.
    rewrite (calculate_score_penalised _ _ Hn).
    destruct (beats _ _); unfold best_score_below; simpl; [exact Hlt|exact Hv].
Qed.

Lemma fold_loop_below bound ps : forall v,
  best_score_below bound v ->
  Forall (penalised_below self Qlt bound) ps ->
  best_score_below bound (fold_left (loop_body self) ps v).
Proof.
  induction ps as [|p ps IH]; intros v Hv Hall; simpl; [exact Hv|].
  inversion Hall; subst. apply IH; [|assumption].
  apply loop_body_below; assumption.
Qed.

Lemma loop_body_takes_over v params df result :
  best_score_below (getattr result (metric self)) v ->
  backtest_combo self params = Ok (df, result) ->
  reaches_min_trades self result ->
  best_is params df result (getattr result (metric self))
          (loop_body self v params).
Proof.
  intros Hv E Hr. unfold loop_body. rewrite E.
  rewrite (calculate_score_reached _ _ Hr).
  assert (beats (getattr result (metric self)) (l_best_score v) = true) as ->.
  { unfold best_score_below in Hv. unfold beats.
    destruct (l_best_score v) as [s|]; [|reflexivity].
    apply NumFacts.gtb_gt, Hv. }
  repeat split.
Qed.

Lemma loop_body_keeps best df result score v params :
  best_is best df result score v ->
  penalised_below self Qle score params ->
  best_is best df result score (loop_body self v params).
Proof.
  intros Hv [Hf | (df' & res & E & Hn & Hle)].
  - rewrite loop_body_failed by assumption. exact Hv.
  - destruct Hv as (Hr & Hp & Hd & Hs).
    unfold loop_body. rewrite E, Hs.
    rewrite (calculate_score_penalised _ _ Hn).
    assert (beats (getattr res (metric self) - 1000) (Some score) = false) as ->.
    { unfold beats. apply NumFacts.ltb_ge, Hle. }
    repeat split; assumption.
Qed.

Lemma fold_loop_keeps best df result score ps : forall v,
  best_is best df result score v ->
  Forall (penalised_below self Qle score) ps ->
  best_is best df result score (fold_left (loop_body self) ps v).
Proof.
  induction ps as [|p ps IH]; intros v Hv Hall; simpl; [exact Hv|].
  inversion Hall; subst. apply IH; [|assumption].
  apply loop_body_keeps; assumption.
Qed.

End Selection.

(** C5 (as worded, refuted).  On the 2 x 2 grid with [min_trades = 2], only
    the last combination reaches the threshold (2 trades, total PNL -10);
    the three others record 1 trade with total PNL 1100, hence score 100.
    [run] returns the first combination, not the qualifying one. *)
Lemma run_prefers_penalised_combination :
  map (fun p =>
         match GridSearchOptimizer.backtest_combo Samples.optimizer_2x2 p with
         | Ok (_, r) => Some (num_trades r, total_pnl_pct r)
         | Raise _ => None
         end)
      (GridSearchOptimizer.combinations
         (GridSearchOptimizer.param_grid Samples.optimizer_2x2))
  = [Some (1%nat, 1100); Some (1%nat, 1100); Some (1%nat, 1100);
     Some (2%nat, -10)] /\
  nth_error (GridSearchOptimizer.combinations
               (GridSearchOptimizer.param_grid Samples.optimizer_2x2)) 3
  = Some Samples.qualifying_2x2 /\
  GridSearchOptimizer.min_trades Samples.optimizer_2x2 = 2%Z /\
  exists o,
    GridSearchOptimizer.run Samples.optimizer_2x2 = Ok o /\
    best_params o = [("ema_period", PInt 50); ("rr_ratio", PFloat (3 # 2))] /\
    best_params o <> Samples.qualifying_2x2 /\
    num_trades (best_result o) = 1%nat /\
    total_pnl_pct (best_result o) = 1100.
Proof.
  split; [vm_compute; reflexivity|]. split; [reflexivity|]. split; [reflexivity|].
  eexists. split; [vm_compute; reflexivity|].
  split; [reflexivity|]. split; [discriminate|]. split; reflexivity.
Qed.

(** C5 (amended).  Let one combination's backtest return a result with at
    least [min_trades] trades, while every other combination either fails or
    stays below [min_trades] with its metric less 1000 smaller than the
    qualifying combination's metric (at most equal to it, for a combination
    tried later).  Then [run] returns the qualifying combination as
    [best_params], with its result and frame.  Scores are the metric less
    1000 below the threshold and the metric itself otherwise. *)
Theorem run_selects_qualifying
        (self : GridSearchOptimizer.t) (earlier later : list Params)
        (params : Params) (df : DataFrame) (result : BacktestResult)
        (Hgrid : GridSearchOptimizer.combinations
                   (GridSearchOptimizer.param_grid self)
                 = earlier ++ params :: later)
        (Hback : GridSearchOptimizer.backtest_combo self params
                 = Ok (df, result))
        (Hreach : reaches_min_trades self result)
        (Hearlier :
           Forall (penalised_below self Qlt
                     (getattr result (GridSearchOptimizer.metric self)))
                  earlier)
        (Hlater :
           Forall (penalised_below self Qle
                     (getattr result (GridSearchOptimizer.metric self)))
                  later) :
  (exists o,
      GridSearchOptimizer.run self = Ok o /\
      best_params o = params /\ best_result o = result /\ best_df o = df) /\
  (forall r p,
      GridSearchOptimizer._calculate_score self r p
      = if (Z.of_nat (num_trades r) <? GridSearchOptimizer.min_trades self)%Z
        then getattr r (GridSearchOptimizer.metric self) - 1000
        else getattr r (GridSearchOptimizer.metric self)).
Proof.
  split; [|reflexivity].
  unfold GridSearchOptimizer.run. rewrite Hgrid, fold_left_app. simpl.
  set (v1 := fold_left (GridSearchOptimizer.loop_body self) earlier
                       GridSearchOptimizer.initial_locals).
  assert (best_score_below (getattr result (GridSearchOptimizer.metric self)) v1)
    as H1 by (apply fold_loop_below; [exact I|exact Hearlier]).
  pose proof (loop_body_takes_over self v1 params df result H1 Hback Hreach) as H2.
  pose proof (fold_loop_keeps self params df result _ later _ H2 Hlater)
    as (Hr & Hp & Hd & _).
  rewrite Hr, Hp, Hd. eauto.
Qed.

(** The 2 x 2 grid where the three other combinations record one trade of
    +20% (score -980) and the last one two trades totalling -10%. *)
Lemma run_selects_qualifying_sample :
  exists o,
    GridSearchOptimizer.run Samples.optimizer_2x2_small = Ok o /\
    best_params o = Samples.qualifying_2x2 /\
    total_pnl_pct (best_result o) = -10.
Proof.
  pose proof (fun df result Hback Hreach Hearlier =>
                proj1 (run_selects_qualifying Samples.optimizer_2x2_small
                  [ [("ema_period", PInt 50); ("rr_ratio", PFloat (3 # 2))];
                    [("ema_period", PInt 50); ("rr_ratio", PFloat 2)];
                    [("ema_period", PInt 100); ("rr_ratio", PFloat (3 # 2))] ]
                  [] Samples.qualifying_2x2 df result eq_refl
                  Hback Hreach Hearlier (Forall_nil _))) as P.
  edestruct P as (o & Ho & Hp & Hr & _).
  - vm_compute. reflexivity.
  - unfold reaches_min_trades. simpl. lia.
  - repeat (apply Forall_cons; [|try apply Forall_nil]);
      right; do 2 eexists;
      (split; [vm_compute; reflexivity|]);
      (split; [unfold reaches_min_trades; simpl; lia|reflexivity]).
  - exists o. split; [exact Ho|]. split; [exact Hp|]. rewrite Hr. reflexivity.
Defined.

(** ** Statistics of a run *)

Lemma of_nat_nonneg n : 0 <= of_nat n.
Proof.
  unfold of_nat. change 0 with (inject_Z 0). rewrite <- Zle_Qle. lia.
Qed.

Lemma of_nat_pos n : (0 < n)%nat -> 0 < of_nat n.
Proof.
  intro Hn. unfold of_nat. change 0 with (inject_Z 0). rewrite <- Zlt_Qlt. lia.
Qed.

Lemma of_nat_le m n : (m <= n)%nat -> of_nat m <= of_nat n.
Proof.
  intro Hn. unfold of_nat. rewrite <- Zle_Qle. lia.
Qed.

Lemma share_bounds w n :
  (w <= n)%nat -> (0 < n)%nat ->
  0 <= of_nat w / of_nat n * 100 /\ of_nat w / of_nat n * 100 <= 100.
Proof.
  intros Hw Hn.
  pose proof (of_nat_nonneg w) as H0.
  pose proof (of_nat_pos n Hn) as H1.
  pose proof (of_nat_le w n Hw) as H2.
  assert (0 <= of_nat w / of_nat n) as Ha.
  { apply Qle_shift_div_l; [exact H1|]. lra. }
  assert (of_nat w / of_nat n <= 1) as Hb.
  { apply Qle_shift_div_r; [exact H1|]. lra. }
  split; lra.
Qed.

Lemma fold_py_max_ge xs : forall x, x <= fold_left Num.py_max xs x.
Proof.
  induction xs as [|y ys IH]; intro x; simpl; [apply Qle_refl|].
  eapply Qle_trans; [apply (NumFacts.py_max_ge x y)|apply IH].
Qed.

Lemma stats_fields t ts curve r :
  _calculate_stats (t :: ts) curve = Ok r ->
  num_trades r = length (t :: ts) /\
  total_pnl_pct r = py_sum (map Trade.pnl_pct (t :: ts)) /\
  win_rate r
  = of_nat (length (filter (fun p => p >? 0) (map Trade.pnl_pct (t :: ts))))
    / of_nat (length (t :: ts)) * 100 /\
  avg_pnl r = py_sum (map Trade.pnl_pct (t :: ts)) / of_nat (length (t :: ts)) /\
  trades r = t :: ts /\ equity_curve r = curve /\
  np_max (map (fun '(m, e) => (m - e) / m * 100)
              (combine (maximum_accumulate curve) curve))
  = Ok (max_drawdown r).
Proof.
  unfold _calculate_stats. intro E.
  apply rbind_ok in E. destruct E as (m & Hm & E).
  inversion E; subst; clear E. simpl.
  rewrite length_map. repeat split. exact Hm.
Qed.

Lemma stats_consistent ts curve r :
  _calculate_stats ts curve = Ok r ->
  num_trades r = length (trades r) /\
  total_pnl_pct r == py_sum (map Trade.pnl_pct (trades r)) /\
  0 <= win_rate r /\ win_rate r <= 100 /\
  0 <= max_drawdown r.
Proof.
  destruct ts as [|t ts].
  - intro E. inversion E; subst; simpl. unfold py_sum. simpl.
    repeat split; try reflexivity; try apply Qle_refl; try lra.
  - intro E. apply stats_fields in E.
    destruct E as (Hn & Ht & Hw & Ha & Htr & Hc & Hd).
    rewrite Htr, Hn, Ht, Hw.
    split; [reflexivity|]. split; [reflexivity|].
    assert (0 < length (t :: ts))%nat as Hpos by (simpl; lia).
    destruct (share_bounds
                (length (filter (fun p => p >? 0) (map Trade.pnl_pct (t :: ts))))
                (length (t :: ts))) as [Hlo Hhi]; [|exact Hpos|].
    { eapply Nat.le_trans; [apply filter_length_le|]. rewrite length_map. lia. }
    split; [exact Hlo|]. split; [exact Hhi|].
    destruct curve as [|e curve]; [discriminate Hd|].
    simpl in Hd. inversion Hd as [Hmax]; clear Hd.
    eapply Qle_trans; [|apply fold_py_max_ge].
    unfold Qdiv. setoid_replace (e - e) with 0 by ring.
    rewrite !Qmult_0_l. apply Qle_refl.
Qed.

Section RunStatistics.
Context {S : Type} `{BaseStrategy S}.
Variable use_trailing : bool.
Variable df : DataFrame.

Lemma run_statistics max_lookback s r s' :
  run use_trailing df max_lookback s = Ok (r, s') ->
  num_trades r = length (trades r) /\
  total_pnl_pct r == py_sum (map Trade.pnl_pct (trades r)) /\
  0 <= win_rate r /\ win_rate r <= 100 /\
  0 <= max_drawdown r.
Proof.
  intro E. apply run_inv in E. destruct E as (v & s0 & _ & Hstats).
  eapply stats_consistent. exact Hstats.
Qed.

End RunStatistics.


(** ** More invariants of the simulation loop *)

Lemma compound_snoc ts : forall e t,
  compound e (ts ++ [t])
  = compound e ts ++ [final_equity e ts * (1 + Trade.pnl_pct t / 100)].
Proof.
  induction ts as [|a ts IH]; intros e t; simpl; [reflexivity|].
  rewrite IH. reflexivity.
Qed.

Lemma final_equity_snoc ts : forall e t,
  final_equity e (ts ++ [t])
  = final_equity e ts * (1 + Trade.pnl_pct t / 100).
Proof.
  induction ts as [|a ts IH]; intros e t; simpl; [reflexivity|]. apply IH.
Qed.

Lemma compound_nth ts : forall e k t x,
  nth_error ts k = Some t ->
  nth_error (e :: compound e ts) k = Some x ->
  nth_error (e :: compound e ts) (Datatypes.S k)
  = Some (x * (1 + Trade.pnl_pct t / 100)).
Proof.
  induction ts as [|a ts IH]; intros e k t x Ht Hx.
  - destruct k; discriminate Ht.
  - destruct k as [|k]; simpl in *.
    + inversion Ht; inversion Hx; subst. reflexivity.
    + apply (IH _ k t x Ht Hx).
Qed.

Section MoreEngineFacts.
Context {S : Type} `{BaseStrategy S}.
Variable use_trailing : bool.
Variable df : DataFrame.

Lemma loop_body_equity v i s v' s' :
  equity_inv v -> loop_body use_trailing df v i s = Ok (v', s') ->
  equity_inv v'.
Proof.
  intros [Hc He] E. apply loop_body_cases in E.
  destruct E as [[_ ->]|[[_ [sg ->]]|[[_ E]|[_ E]]]].
  - split; assumption.
  - split; assumption.
  - destruct E as (pos & pos' & s0 & price & reason & _ & _ & ->).
    unfold equity_inv, close_position; simpl.
    split.
    + rewrite compound_snoc, Hc, He. reflexivity.
    + rewrite final_equity_snoc, He. reflexivity.
  - destruct E as (pos & pos' & s0 & _ & _ & ->). split; assumption.
Qed.

Lemma run_equity max_lookback s r s' :
  run use_trailing df max_lookback s = Ok (r, s') ->
  equity_curve r = 1 :: compound 1 (trades r).
Proof.
  intro E. apply run_inv in E. destruct E as (v & s0 & Hloop & Hstats).
  assert (equity_inv v) as [Hc _].
  { apply (for_each_invariant (loop_body use_trailing df) (fun _ => equity_inv))
      with (n := (length df - max_lookback)%nat) (a := max_lookback)
           (v := initial_locals) (s := s) (s' := s0).
    - intros. eapply loop_body_equity; eassumption.
    - split; reflexivity.
    - exact Hloop. }
  apply calculate_stats_inv in Hstats.
  destruct Hstats as [(_ & Ht & He & _)|(_ & Ht & He & _)]; rewrite Ht, He.
  - reflexivity.
  - exact Hc.
Qed.

Lemma loop_body_bounds start v i s v' s' :
  (start <= i)%nat ->
  bounds_inv start i v -> loop_body use_trailing df v i s = Ok (v', s') ->
  bounds_inv start (Datatypes.S i) v'.
Proof.
  intros Hi (Hf & Hp) E. apply loop_body_cases in E.
  assert (Forall (fun t => (start <= Trade.entry_idx t
                            /\ Trade.exit_idx t < Datatypes.S i)%nat)
                 (l_trades v)) as Hf'.
  { eapply Forall_impl; [|exact Hf]. simpl. intros; lia. }
  destruct E as [[_ ->]|[[_ [sg ->]]|[[_ E]|[_ E]]]].
  - split; assumption.
  - split; [assumption|]. simpl. intros pos Hpos.
    inversion Hpos; subst; simpl. exact Hi.
  - destruct E as (pos & pos' & s0 & price & reason & Hpos & Ht & ->).
    apply trail_inv in Ht. destruct Ht as (He & _).
    unfold bounds_inv, close_position; simpl. rewrite He. split.
    + apply Forall_app. split; [assumption|].
      constructor; [|constructor]. simpl. split; [apply Hp, Hpos|lia].
    + intros ? Hnone. discriminate Hnone.
  - destruct E as (pos & pos' & s0 & Hpos & Ht & ->).
    apply trail_inv in Ht. destruct Ht as (He & _).
    split; [assumption|]. simpl. intros p Hp'. inversion Hp'; subst.
    rewrite He. apply Hp, Hpos.
Qed.

Lemma for_each_bounds start n : forall a v s v' s',
  (start <= a)%nat ->
  bounds_inv start a v ->
  for_each (loop_body use_trailing df) (seq a n) v s = Ok (v', s') ->
  bounds_inv start (a + n) v'.
Proof.
  induction n as [|n IH]; intros a v s v' s' Ha Hinv Hrun; simpl in Hrun.
  - minv. rewrite Nat.add_0_r. exact Hinv.
  - minv. rewrite <- Nat.add_succ_comm. eapply IH; [| |eassumption]; [lia|].
    eapply loop_body_bounds; eassumption.
Qed.

Lemma run_bounds max_lookback s r s' :
  run use_trailing df max_lookback s = Ok (r, s') ->
  Forall (fun t => (max_lookback <= Trade.entry_idx t
                    /\ Trade.exit_idx t < length df)%nat) (trades r).
Proof.
  intro E. apply run_inv in E. destruct E as (v & s0 & Hloop & Hstats).
  assert (bounds_inv max_lookback (max_lookback + (length df - max_lookback)) v)
    as (Hf & _).
  { eapply for_each_bounds; [| |exact Hloop]; [lia|].
    split; [constructor|]. intros ? Hn. discriminate Hn. }
  apply calculate_stats_inv in Hstats.
  destruct Hstats as [(_ & Ht & _)|(Hne & Ht & _)]; rewrite Ht; [constructor|].
  destruct (Nat.le_gt_cases max_lookback (length df)) as [Hle|Hgt].
  - eapply Forall_impl; [|exact Hf]. simpl. intros; lia.
  - exfalso. unfold range in Hloop.
    replace (length df - max_lookback)%nat with 0%nat in Hloop by lia.
    simpl in Hloop. unfold ret in Hloop. inversion Hloop; subst.
    apply Hne. reflexivity.
Qed.

End MoreEngineFacts.

(** X2.  The equity curve of a returned result starts at 1 and each later
    value is the previous one times [1 + pnl_pct / 100] of the trade closed
    at that step. *)
Theorem run_equity_compounds
        {S : Type} `{BaseStrategy S} (use_trailing : bool) (df : DataFrame)
        (max_lookback : nat) (self self' : S) (r : BacktestResult)
        (Hrun : run use_trailing df max_lookback self = Ok (r, self')) :
  equity_curve r = 1 :: compound 1 (trades r) /\
  (forall k t x,
      nth_error (trades r) k = Some t ->
      nth_error (equity_curve r) k = Some x ->
      nth_error (equity_curve r) (Datatypes.S k)
      = Some (x * (1 + Trade.pnl_pct t / 100))).
Proof.
  pose proof (run_equity use_trailing df max_lookback self r self' Hrun) as E.
  split; [exact E|].
  intros k t x Ht Hx. rewrite E in *. eapply compound_nth; eassumption.
Qed.

Lemma run_equity_compounds_sample :
  exists r self',
    run true Samples.two_trades 1 (MacdEmaBbStrategy.init None) = Ok (r, self')
    /\ equity_curve r = 1 :: compound 1 (trades r).
Proof.
  do 2 eexists. split; [vm_compute; reflexivity|].
  assert (forall self' r,
             run true Samples.two_trades 1 (MacdEmaBbStrategy.init None)
             = Ok (r, self') ->
             equity_curve r = 1 :: compound 1 (trades r)) as P.
  { intros self' r Hrun.
    exact (proj1 (run_equity_compounds true Samples.two_trades 1
                    (MacdEmaBbStrategy.init None) self' r Hrun)). }
  eapply P. vm_compute. reflexivity.
Defined.

(** X3.  Every trade of a returned result is opened at or after
    [max_lookback] and closed before the end of the frame; hence a frame with
    fewer than [max_lookback + 2] bars yields no trade. *)
Theorem run_trades_within_frame
        {S : Type} `{BaseStrategy S} (use_trailing : bool) (df : DataFrame)
        (max_lookback : nat) (self self' : S) (r : BacktestResult)
        (Hrun : run use_trailing df max_lookback self = Ok (r, self')) :
  (forall t, In t (trades r) ->
     (max_lookback <= Trade.entry_idx t < Trade.exit_idx t)%nat /\
     (Trade.exit_idx t < length df)%nat) /\
  ((length df < max_lookback + 2)%nat -> trades r = []).
Proof.
  pose proof (run_bounds use_trailing df max_lookback self r self' Hrun) as Hb.
  destruct (run_intervals use_trailing df max_lookback self r self' Hrun)
    as (_ & Hi).
  rewrite Forall_forall in Hb, Hi.
  assert (forall t, In t (trades r) ->
            (max_lookback <= Trade.entry_idx t < Trade.exit_idx t)%nat /\
            (Trade.exit_idx t < length df)%nat) as G.
  { intros t Ht. specialize (Hb t Ht). specialize (Hi t Ht). lia. }
  split; [exact G|].
  intro Hshort. destruct (trades r) as [|t ts]; [reflexivity|].
  specialize (G t (or_introl eq_refl)). lia.
Qed.

Lemma run_trades_within_frame_sample :
  exists r self',
    run true Samples.two_trades 1 (MacdEmaBbStrategy.init None) = Ok (r, self')
    /\ (forall t, In t (trades r) ->
          (1 <= Trade.entry_idx t < Trade.exit_idx t)%nat /\
          (Trade.exit_idx t < 6)%nat).
Proof.
  do 2 eexists. split; [vm_compute; reflexivity|].
  assert (forall self' r,
             run true Samples.two_trades 1 (MacdEmaBbStrategy.init None)
             = Ok (r, self') ->
             forall t, In t (trades r) ->
               (1 <= Trade.entry_idx t < Trade.exit_idx t)%nat /\
               (Trade.exit_idx t < 6)%nat) as P.
  { intros self' r Hrun.
    exact (proj1 (run_trades_within_frame true Samples.two_trades 1
                    (MacdEmaBbStrategy.init None) self' r Hrun)). }
  eapply P. vm_compute. reflexivity.
Defined.

(** ** Trades recorded for the MACD + EMA + Bollinger strategy *)

Section LoopCases.
Context {S : Type} `{BaseStrategy S}.
Variable use_trailing : bool.
Variable df : DataFrame.

(** The cases of one iteration that returns, with the calls that decide
    them. *)
Lemma loop_body_calls v i s v' s' :
  loop_body use_trailing df v i s = Ok (v', s') ->
  (l_in_position v = false /\
   generate_signal df i None s = Ok (None, s') /\ v' = v) \/
  (l_in_position v = false /\ exists sg,
      generate_signal df i None s = Ok (Some sg, s') /\
      v' = open_position v i sg) \/
  (l_in_position v = true /\ exists pos pos' s0 price reason,
      l_position v = Some pos /\
      trail use_trailing df i pos s = Ok (pos', s0) /\
      check_exit_conditions df i (Position.side pos')
        (Position.entry_price pos') (Position.sl pos') (Position.tp pos') s0
      = Ok (true, Some price, reason, s') /\
      v' = close_position v pos' i price reason) \/
  (l_in_position v = true /\ exists pos pos' s0 price reason,
      l_position v = Some pos /\
      trail use_trailing df i pos s = Ok (pos', s0) /\
      check_exit_conditions df i (Position.side pos')
        (Position.entry_price pos') (Position.sl pos') (Position.tp pos') s0
      = Ok (false, price, reason, s') /\
      v' = keep_position v pos').
Proof.
  unfold loop_body. destruct (l_in_position v); simpl.
  - destruct (l_position v) as [pos|]; intro E; [|discriminate E].
    apply bind_ok in E. destruct E as (pos' & s0 & Ht & E).
    apply bind_ok in E. destruct E as ([[should_exit price] reason] & s1 & Hx & E).
    destruct should_exit.
    + destruct price as [price|]; [|discriminate E].
      unfold ret in E. inversion E; subst; clear E.
      right; right; left. split; [reflexivity|].
      exists pos, pos', s0, price, reason. auto.
    + unfold ret in E. inversion E; subst; clear E.
      right; right; right. split; [reflexivity|].
      exists pos, pos', s0, price, reason. auto.
  - intro E. apply bind_ok in E. destruct E as (sg & s0 & Hg & E).
    destruct sg as [sg|]; unfold ret in E; inversion E; subst; clear E.
    + right; left. eauto.
    + left. auto.
Qed.

End LoopCases.

(** What a reported exit says about the bar. *)
Lemma check_exit_conditions_sound df idx side entry sl tp b price reason :
  MacdEmaBbStrategy.check_exit_conditions df idx side entry sl tp
  = Ok (b, price, reason) ->
  exists r, nth_error df idx = Some r /\
    (b = false -> price = None /\ reason = "") /\
    (b = true ->
     (reason = "stop_loss" \/ reason = "take_profit" \/
      reason = "macd_reverse" \/ reason = "bb_touch") /\
     exists p, price = Some p /\
       (reason = "stop_loss" -> p = sl) /\
       (reason = "take_profit" -> p = tp) /\
       (reason = "macd_reverse" -> p = close r) /\
       (side = "long" ->
        (reason = "stop_loss" -> low r <= p) /\
        (reason = "take_profit" -> p <= high r) /\
        (reason = "bb_touch" -> p = bb_upper r /\ p <= high r)) /\
       (side <> "long" ->
        (reason = "stop_loss" -> p <= high r) /\
        (reason = "take_profit" -> low r <= p) /\
        (reason = "bb_touch" -> p = bb_lower r /\ low r <= p))).
Proof.
  unfold MacdEmaBbStrategy.check_exit_conditions, iloc.
  destruct (nth_error df idx) as [r|] eqn:Hrow; simpl; [|discriminate].
  intro E. exists r. split; [reflexivity|].
  destruct (String.eqb_spec side "long") as [->|Hs].
  - destruct (low r <=? sl) eqn:C1.
    { inversion E; subst. apply NumFacts.leb_le in C1.
      split; [discriminate|]. intros _. split; [auto|].
      exists sl. repeat split; try discriminate; try congruence; auto. }
    destruct (high r >=? tp) eqn:C2.
    { inversion E; subst. apply NumFacts.geb_ge in C2.
      split; [discriminate|]. intros _. split; [auto|].
      exists tp. repeat split; try discriminate; try congruence; auto. }
    apply rbind_ok in E. destruct E as (down & _ & E).
    destruct down.
    { inversion E; subst.
      split; [discriminate|]. intros _. split; [auto|].
      exists (close r). repeat split; try discriminate; try congruence; auto. }
    simpl in E.
    destruct (high r >=? bb_upper r) eqn:C4.
    { inversion E; subst. apply NumFacts.geb_ge in C4.
      split; [discriminate|]. intros _. split; [auto 6|].
      exists (bb_upper r). repeat split; try discriminate; try congruence; auto. }
    inversion E; subst. split; [auto|discriminate].
  - destruct (high r >=? sl) eqn:C1.
    { inversion E; subst. apply NumFacts.geb_ge in C1.
      split; [discriminate|]. intros _. split; [auto|].
      exists sl. repeat split; try discriminate; try congruence; auto. }
    destruct (low r <=? tp) eqn:C2.
    { inversion E; subst. apply NumFacts.leb_le in C2.
      split; [discriminate|]. intros _. split; [auto|].
      exists tp. repeat split; try discriminate; try congruence; auto. }
    apply rbind_ok in E. destruct E as (up & _ & E).
    destruct up.
    { inversion E; subst.
      split; [discriminate|]. intros _. split; [auto|].
      exists (close r). repeat split; try discriminate; try congruence; auto. }
    simpl in E.
    destruct (low r <=? bb_lower r) eqn:C4.
    { inversion E; subst. apply NumFacts.leb_le in C4.
      split; [discriminate|]. intros _. split; [auto 6|].
      exists (bb_lower r). repeat split; try discriminate; try congruence; auto. }
    inversion E; subst. split; [auto|discriminate].
Qed.

Section Tags.
Variable use_trailing : bool.
Variable df : DataFrame.

Lemma loop_body_tags v i (s s' : MacdEmaBbStrategy.t) v' :
  tags_inv v -> loop_body use_trailing df v i s = Ok (v', s') -> tags_inv v'.
Proof.
  intros (Hf & Hp) E. apply loop_body_calls in E.
  destruct E as [(_ & _ & ->)|[(_ & sg & Hg & ->)|[(_ & E)|(_ & E)]]].
  - split; assumption.
  - split; [assumption|]. simpl. intros pos Hpos.
    inversion Hpos; subst; simpl.
    apply generate_signal_inv in Hg.
    destruct Hg as (r & entry & side & _ & Hside & ->). exact Hside.
  - destruct E as (pos & pos' & s0 & price & reason & Hpos & Ht & Hx & ->).
    apply trail_inv in Ht. destruct Ht as (_ & _ & Hs & _).
    simpl in Hx. apply lift_ok in Hx. destruct Hx as [Hx _].
    apply check_exit_conditions_sound in Hx.
    destruct Hx as (r & _ & _ & Htrue).
    destruct (Htrue eq_refl) as (Hreason & _).
    unfold tags_inv, close_position; simpl. split.
    + apply Forall_app. split; [assumption|].
      constructor; [|constructor]. unfold well_tagged; simpl.
      split; [rewrite Hs; apply Hp, Hpos|]. split; [exact Hreason|reflexivity].
    + intros ? Hnone. discriminate Hnone.
  - destruct E as (pos & pos' & s0 & price & reason & Hpos & Ht & _ & ->).
    apply trail_inv in Ht. destruct Ht as (_ & _ & Hs & _).
    split; [assumption|]. simpl. intros p Hp'. inversion Hp'; subst.
    rewrite Hs. apply Hp, Hpos.
Qed.

Lemma run_tags max_lookback (s s' : MacdEmaBbStrategy.t) r :
  run use_trailing df max_lookback s = Ok (r, s') ->
  Forall well_tagged (trades r).
Proof.
  intro E. apply run_inv in E. destruct E as (v & s0 & Hloop & Hstats).
  assert (tags_inv v) as (Hf & _).
  { apply (for_each_invariant (loop_body use_trailing df) (fun _ => tags_inv))
      with (n := (length df - max_lookback)%nat) (a := max_lookback)
           (v := initial_locals) (s := s) (s' := s0).
    - intros. eapply loop_body_tags; eassumption.
    - split; [constructor|]. intros ? Hn. discriminate Hn.
    - exact Hloop. }
  apply calculate_stats_inv in Hstats.
  destruct Hstats as [(_ & Ht & _)|(_ & Ht & _)]; rewrite Ht;
    [constructor|exact Hf].
Qed.

End Tags.

(** X4.  Whenever [check_exit_conditions] returns: without an exit it
    returns no price and the empty tag; with an exit the tag is one of
    [stop_loss], [take_profit], [macd_reverse], [bb_touch], the price is the
    stop, the target, the close or the band value accordingly, and the bar
    reached it: for a long position a stop exit has low <= stop and a target
    or band exit has price <= high (mirrored for a short one). *)
Theorem check_exit_conditions_reports
        (df : DataFrame) (idx : nat) (side : string) (entry sl tp : Q)
        (b : bool) (price : option Q) (reason : string)
        (Hret : MacdEmaBbStrategy.check_exit_conditions df idx side entry sl tp
                = Ok (b, price, reason)) :
  exists r, nth_error df idx = Some r /\
    (b = false -> price = None /\ reason = "") /\
    (b = true ->
     (reason = "stop_loss" \/ reason = "take_profit" \/
      reason = "macd_reverse" \/ reason = "bb_touch") /\
     exists p, price = Some p /\
       (reason = "stop_loss" -> p = sl) /\
       (reason = "take_profit" -> p = tp) /\
       (reason = "macd_reverse" -> p = close r) /\
       (side = "long" ->
        (reason = "stop_loss" -> low r <= p) /\
        (reason = "take_profit" -> p <= high r) /\
        (reason = "bb_touch" -> p = bb_upper r /\ p <= high r)) /\
       (side <> "long" ->
        (reason = "stop_loss" -> p <= high r) /\
        (reason = "take_profit" -> low r <= p) /\
        (reason = "bb_touch" -> p = bb_lower r /\ low r <= p))).
Proof. eapply check_exit_conditions_sound. exact Hret. Qed.

Lemma check_exit_conditions_reports_sample :
  exists r, nth_error Samples.scenario_C 1 = Some r /\
    (true = false -> Some 95 = None /\ "stop_loss" = "") /\
    (true = true ->
     ("stop_loss" = "stop_loss" \/ "stop_loss" = "take_profit" \/
      "stop_loss" = "macd_reverse" \/ "stop_loss" = "bb_touch") /\
     exists p, Some 95 = Some p /\
       ("stop_loss" = "stop_loss" -> p = 95) /\
       ("stop_loss" = "take_profit" -> p = 110) /\
       ("stop_loss" = "macd_reverse" -> p = close r) /\
       ("long" = "long" ->
        ("stop_loss" = "stop_loss" -> low r <= p) /\
        ("stop_loss" = "take_profit" -> p <= high r) /\
        ("stop_loss" = "bb_touch" -> p = bb_upper r /\ p <= high r)) /\
       ("long" <> "long" ->
        ("stop_loss" = "stop_loss" -> p <= high r) /\
        ("stop_loss" = "take_profit" -> low r <= p) /\
        ("stop_loss" = "bb_touch" -> p = bb_lower r /\ low r <= p))).
Proof.
  apply (check_exit_conditions_reports Samples.scenario_C 1 "long" 100 95 110).
  reflexivity.
Defined.

(** X5.  Every trade recorded by a run of the engine over the MACD + EMA +
    Bollinger strategy has side [long] or [short], an exit reason among
    [stop_loss], [take_profit], [macd_reverse], [bb_touch], and a PNL equal to
    (exit - entry) / entry x 100 for a long trade and
    (entry - exit) / entry x 100 for a short one. *)
Theorem run_trades_well_tagged
        (use_trailing : bool) (df : DataFrame) (max_lookback : nat)
        (self self' : MacdEmaBbStrategy.t) (r : BacktestResult)
        (Hrun : run use_trailing df max_lookback self = Ok (r, self')) :
  forall t, In t (trades r) ->
    (Trade.side t = "long" \/ Trade.side t = "short") /\
    (Trade.exit_reason t = "stop_loss" \/ Trade.exit_reason t = "take_profit" \/
     Trade.exit_reason t = "macd_reverse" \/ Trade.exit_reason t = "bb_touch") /\
    (Trade.side t = "long" ->
     Trade.pnl_pct t
     = (Trade.exit_price t - Trade.entry_price t) / Trade.entry_price t * 100) /\
    (Trade.side t = "short" ->
     Trade.pnl_pct t
     = (Trade.entry_price t - Trade.exit_price t) / Trade.entry_price t * 100).
Proof.
  pose proof (run_tags use_trailing df max_lookback self self' r Hrun) as Hf.
  rewrite Forall_forall in Hf. intros t Ht.
  destruct (Hf t Ht) as (Hs & Hr & Hp).
  split; [exact Hs|]. split; [exact Hr|].
  unfold pnl_of in Hp. split; intro E; rewrite E in Hp; exact Hp.
Qed.

Lemma run_trades_well_tagged_sample :
  exists r self',
    run true Samples.two_trades 1 (MacdEmaBbStrategy.init None) = Ok (r, self')
    /\ forall t, In t (trades r) ->
         Trade.side t = "long" \/ Trade.side t = "short".
Proof.
  do 2 eexists. split; [vm_compute; reflexivity|].
  assert (forall self' r,
             run true Samples.two_trades 1 (MacdEmaBbStrategy.init None)
             = Ok (r, self') ->
             forall t, In t (trades r) ->
               Trade.side t = "long" \/ Trade.side t = "short") as P.
  { intros self' r Hrun t Ht.
    exact (proj1 (run_trades_well_tagged true Samples.two_trades 1
                    (MacdEmaBbStrategy.init None) self' r Hrun t Ht)). }
  eapply P. vm_compute. reflexivity.
Defined.

(** ** Entries need a crossing *)

Lemma check_long_signal_no_cross df idx (s : MacdEmaBbStrategy.t) :
  check_macd_cross_up df idx = Ok false ->
  MacdEmaBbStrategy.check_long_signal df idx s = Ok (false, s).
Proof.
  intro E. unfold MacdEmaBbStrategy.check_long_signal, bind, get, lift.
  rewrite E. reflexivity.
Qed.

Lemma check_short_signal_no_cross df idx (s : MacdEmaBbStrategy.t) :
  check_macd_cross_down df idx = Ok false ->
  MacdEmaBbStrategy.check_short_signal df idx s = Ok (false, s).
Proof.
  intro E. unfold MacdEmaBbStrategy.check_short_signal, bind, get, lift.
  rewrite E. reflexivity.
Qed.

Lemma generate_signal_no_cross df idx r (s : MacdEmaBbStrategy.t) :
  nth_error df idx = Some r ->
  check_macd_cross_up df idx = Ok false ->
  check_macd_cross_down df idx = Ok false ->
  generate_signal df idx None s = Ok (None, s).
Proof.
  intros Hrow Hu Hd. unfold generate_signal, bind, get, lift.
  rewrite (check_filters_row s df idx r Hrow).
  destruct (_ && _); simpl; [|reflexivity].
  rewrite !(iloc_row _ _ _ _ Hrow).
  change (check_long_signal df idx s)
    with (MacdEmaBbStrategy.check_long_signal df idx s).
  rewrite (check_long_signal_no_cross df idx s Hu).
  change (check_short_signal df idx s)
    with (MacdEmaBbStrategy.check_short_signal df idx s).
  rewrite (check_short_signal_no_cross df idx s Hd). reflexivity.
Qed.

Lemma for_each_no_cross use_trailing df n : forall a (s : MacdEmaBbStrategy.t),
  (a + n <= length df)%nat ->
  (forall i, (a <= i < a + n)%nat ->
             check_macd_cross_up df i = Ok false /\
             check_macd_cross_down df i = Ok false) ->
  for_each (loop_body use_trailing df) (seq a n) initial_locals s
  = Ok (initial_locals, s).
Proof.
  induction n as [|n IH]; intros a s Hle Hno; simpl; [reflexivity|].
  destruct (nth_error df a) as [r|] eqn:Hrow;
    [|apply nth_error_None in Hrow; lia].
  destruct (Hno a) as [Hu Hd]; [lia|].
  unfold bind at 1. unfold loop_body at 1. simpl.
  unfold bind at 1.
  rewrite (generate_signal_no_cross df a r s Hrow Hu Hd). unfold ret at 1.
  apply IH; [lia|]. intros i Hi. apply Hno. lia.
Qed.

Lemma run_no_cross use_trailing df max_lookback (s : MacdEmaBbStrategy.t) :
  (forall i, (max_lookback <= i < length df)%nat ->
             check_macd_cross_up df i = Ok false /\
             check_macd_cross_down df i = Ok false) ->
  run use_trailing df max_lookback s = Ok (mkResult 0 0 0 0 0 [] [1], s).
Proof.
  intro Hno. unfold run, range, bind.
  destruct (Nat.le_gt_cases max_lookback (length df)) as [Hle|Hgt].
  - rewrite for_each_no_cross; [reflexivity|lia|].
    intros i Hi. apply Hno. lia.
  - replace (length df - max_lookback)%nat with 0%nat by lia. reflexivity.
Qed.

Lemma cross_up_ok_true df idx :
  check_macd_cross_up df idx = Ok true ->
  exists r, nth_error df idx = Some r /\ signal r < macd r.
Proof.
  unfold check_macd_cross_up, iloc.
  destruct (idx <? 1)%nat; [discriminate|].
  destruct (nth_error df idx) as [r|]; simpl; [|discriminate].
  destruct (macd r >? signal r) eqn:C; [|discriminate].
  intros _. exists r. split; [reflexivity|]. apply NumFacts.gtb_gt, C.
Qed.

Lemma cross_down_ok_true df idx :
  check_macd_cross_down df idx = Ok true ->
  exists r, nth_error df idx = Some r /\ macd r < signal r.
Proof.
  unfold check_macd_cross_down, iloc.
  destruct (idx <? 1)%nat; [discriminate|].
  destruct (nth_error df idx) as [r|]; simpl; [|discriminate].
  destruct (macd r <? signal r) eqn:C; [|discriminate].
  intros _. exists r. split; [reflexivity|]. apply NumFacts.ltb_lt, C.
Qed.

Lemma check_long_signal_true df idx (s s' : MacdEmaBbStrategy.t) :
  MacdEmaBbStrategy.check_long_signal df idx s = Ok (true, s') ->
  check_macd_cross_up df idx = Ok true /\
  check_price_above_ema df idx = Ok true.
Proof.
  unfold MacdEmaBbStrategy.check_long_signal, bind, get, lift.
  destruct (check_macd_cross_up df idx) as [[|]|]; simpl;
    try (unfold ret; intro E; inversion E; fail).
  destruct (check_price_above_ema df idx) as [[|]|]; simpl;
    try (unfold ret; intro E; inversion E; fail).
  auto.
Qed.

Lemma check_short_signal_true df idx (s s' : MacdEmaBbStrategy.t) :
  MacdEmaBbStrategy.check_short_signal df idx s = Ok (true, s') ->
  check_macd_cross_down df idx = Ok true /\
  check_price_below_ema df idx = Ok true.
Proof.
  unfold MacdEmaBbStrategy.check_short_signal, bind, get, lift.
  destruct (check_macd_cross_down df idx) as [[|]|]; simpl;
    try (unfold ret; intro E; inversion E; fail).
  destruct (check_price_below_ema df idx) as [[|]|]; simpl;
    try (unfold ret; intro E; inversion E; fail).
  auto.
Qed.

(** X6.  If on no bar from [max_lookback] on the oscillator crosses its
    signal line in either direction, the run over the MACD + EMA + Bollinger
    strategy returns, for every configuration, the result with no trade, all
    statistics 0 and the equity curve [[1]], and leaves the strategy as it
    was. *)
Theorem run_without_crossing
        (use_trailing : bool) (df : DataFrame) (max_lookback : nat)
        (self : MacdEmaBbStrategy.t)
        (Hno : forall i, (max_lookback <= i < length df)%nat ->
                 check_macd_cross_up df i = Ok false /\
                 check_macd_cross_down df i = Ok false) :
  run use_trailing df max_lookback self = Ok (mkResult 0 0 0 0 0 [] [1], self).
Proof. apply run_no_cross, Hno. Qed.

Lemma run_without_crossing_sample :
  run true flat_frame 0 (MacdEmaBbStrategy.init None)
  = Ok (mkResult 0 0 0 0 0 [] [1], MacdEmaBbStrategy.init None).
Proof.
  apply (run_without_crossing true flat_frame 0 (MacdEmaBbStrategy.init None)).
  intros i Hi. simpl in Hi.
  destruct i as [|[|[|[|i]]]]; try (split; reflexivity). lia.
Defined.

(** X7.  On no bar do [check_long_signal] and [check_short_signal] both
    return [True], whatever the strategy objects they are called on: the
    long-before-short order of [generate_signal] never decides between
    two eligible sides. *)
Theorem long_short_exclusive
        (df : DataFrame) (idx : nat) (s1 s1' s2 s2' : MacdEmaBbStrategy.t)
        (b : bool)
        (Hlong : MacdEmaBbStrategy.check_long_signal df idx s1 = Ok (true, s1'))
        (Hshort : MacdEmaBbStrategy.check_short_signal df idx s2 = Ok (b, s2')) :
  b = false.
Proof.
  destruct b; [|reflexivity]. exfalso.
  apply check_long_signal_true in Hlong. destruct Hlong as [Hu _].
  apply check_short_signal_true in Hshort. destruct Hshort as [Hd _].
  apply cross_up_ok_true in Hu. destruct Hu as (r & Hr & Hgt).
  apply cross_down_ok_true in Hd. destruct Hd as (r' & Hr' & Hlt).
  rewrite Hr in Hr'. inversion Hr'; subst r'.
  exact (Qlt_irrefl _ (Qlt_trans _ _ _ Hgt Hlt)).
Qed.

Lemma long_short_exclusive_sample :
  MacdEmaBbStrategy.check_long_signal Samples.one_trade 1
    (MacdEmaBbStrategy.init None) = Ok (true, MacdEmaBbStrategy.init None) /\
  MacdEmaBbStrategy.check_short_signal Samples.one_trade 1
    (MacdEmaBbStrategy.init None) = Ok (false, MacdEmaBbStrategy.init None) /\
  false = false.
Proof.
  split; [reflexivity|]. split; [reflexivity|].
  apply (long_short_exclusive Samples.one_trade 1
           (MacdEmaBbStrategy.init None) (MacdEmaBbStrategy.init None)
           (MacdEmaBbStrategy.init None) (MacdEmaBbStrategy.init None) false);
    reflexivity.
Defined.

(** ** Stops and targets of generated signals *)

Lemma check_long_signal_state df idx (s s' : MacdEmaBbStrategy.t) b :
  MacdEmaBbStrategy.check_long_signal df idx s = Ok (b, s') ->
  (b = false -> s' = s) /\
  (b = true ->
   if use_qml (MacdEmaBbStrategy.config s) then
     exists level,
       detect_qml_bull df idx (qml_order (MacdEmaBbStrategy.config s))
                       (qml_recency (MacdEmaBbStrategy.config s))
       = Ok (Some level) /\
       s' = MacdEmaBbStrategy.mk (MacdEmaBbStrategy.config s) (Some level)
              (MacdEmaBbStrategy._last_qml_bear s)
   else s' = s).
Proof.
  unfold MacdEmaBbStrategy.check_long_signal, bind, get, lift.
  destruct (check_macd_cross_up df idx) as [[|]|]; simpl;
    try (unfold ret; intro E; inversion E; subst; split; [reflexivity|discriminate]);
    try discriminate.
  destruct (check_price_above_ema df idx) as [[|]|]; simpl;
    try (unfold ret; intro E; inversion E; subst; split; [reflexivity|discriminate]);
    try discriminate.
  destruct (use_qml (MacdEmaBbStrategy.config s)).
  - destruct (detect_qml_bull df idx _ _) as [[level|]|]; simpl;
      try discriminate.
    + unfold ret, MacdEmaBbStrategy.set_last_qml_bull. intro E.
      inversion E; subst. split; [discriminate|]. intros _. eauto.
    + unfold ret. intro E. inversion E; subst. split; [reflexivity|discriminate].
  - unfold ret. intro E. inversion E; subst. split; [discriminate|reflexivity].
Qed.

Lemma check_short_signal_state df idx (s s' : MacdEmaBbStrategy.t) b :
  MacdEmaBbStrategy.check_short_signal df idx s = Ok (b, s') ->
  (b = false -> s' = s) /\
  (b = true ->
   if use_qml (MacdEmaBbStrategy.config s) then
     exists level,
       detect_qml_bear df idx (qml_order (MacdEmaBbStrategy.config s))
                       (qml_recency (MacdEmaBbStrategy.config s))
       = Ok (Some level) /\
       s' = MacdEmaBbStrategy.mk (MacdEmaBbStrategy.config s)
              (MacdEmaBbStrategy._last_qml_bull s) (Some level)
   else s' = s).
Proof.
  unfold MacdEmaBbStrategy.check_short_signal, bind, get, lift.
  destruct (check_macd_cross_down df idx) as [[|]|]; simpl;
    try (unfold ret; intro E; inversion E; subst; split; [reflexivity|discriminate]);
    try discriminate.
  destruct (check_price_below_ema df idx) as [[|]|]; simpl;
    try (unfold ret; intro E; inversion E; subst; split; [reflexivity|discriminate]);
    try discriminate.
  destruct (use_qml (MacdEmaBbStrategy.config s)).
  - destruct (detect_qml_bear df idx _ _) as [[level|]|]; simpl;
      try discriminate.
    + unfold ret, MacdEmaBbStrategy.set_last_qml_bear. intro E.
      inversion E; subst. split; [discriminate|]. intros _. eauto.
    + unfold ret. intro E. inversion E; subst. split; [reflexivity|discriminate].
  - unfold ret. intro E. inversion E; subst. split; [discriminate|reflexivity].
Qed.

(** The calls behind a returned signal. *)
Lemma generate_signal_sides df idx current_price
      (self self' : MacdEmaBbStrategy.t) (sg : Signal.t) :
  generate_signal df idx current_price self = Ok (Some sg, self') ->
  exists r entry,
    nth_error df idx = Some r /\
    entry_price_of current_price df idx = Ok entry /\
    check_filters self df idx = Ok true /\
    ((MacdEmaBbStrategy.check_long_signal df idx self = Ok (true, self') /\
      sg = Signal.mk "long" entry
             (fst (MacdEmaBbStrategy.calculate_sl_tp self' entry "long" (atr r) None))
             (snd (MacdEmaBbStrategy.calculate_sl_tp self' entry "long" (atr r) None))
             None) \/
     (MacdEmaBbStrategy.check_long_signal df idx self = Ok (false, self) /\
      MacdEmaBbStrategy.check_short_signal df idx self = Ok (true, self') /\
      sg = Signal.mk "short" entry
             (fst (MacdEmaBbStrategy.calculate_sl_tp self' entry "short" (atr r) None))
             (snd (MacdEmaBbStrategy.calculate_sl_tp self' entry "short" (atr r) None))
             None)).
Proof.
  unfold generate_signal. intro E.
  apply bind_ok in E. destruct E as (s0 & s1 & Hget & E).
  unfold get in Hget. inversion Hget; subst; clear Hget.
  apply bind_ok in E. destruct E as (pass & s2 & Hf & E).
  apply lift_ok in Hf. destruct Hf as [Hf ->].
  destruct pass; simpl in E; [|unfold ret in E; inversion E].
  apply bind_ok in E. destruct E as (entry & s3 & He & E).
  apply lift_ok in He. destruct He as [He ->].
  apply bind_ok in E. destruct E as (a & s4 & Ha & E).
  apply lift_ok in Ha. destruct Ha as [Ha ->].
  apply iloc_ok in Ha. destruct Ha as (r & Hr & ->).
  apply bind_ok in E. destruct E as (is_long & s5 & Hl & E).
  exists r, entry. split; [exact Hr|]. split; [exact He|]. split; [exact Hf|].
  destruct is_long.
  - apply bind_ok in E. destruct E as ([sl tp] & s6 & Hc & E).
    simpl in Hc. unfold ret in E. inversion E; subst; clear E.
    assert (s5 = self') as -> by (inversion Hc; reflexivity).
    left. split; [exact Hl|].
    replace (MacdEmaBbStrategy.calculate_sl_tp self' entry "long" (atr r) None)
      with (sl, tp) by congruence.
    reflexivity.
  - apply bind_ok in E. destruct E as (is_short & s6 & Hsh & E).
    simpl in Hl.
    destruct (check_long_signal_state _ _ _ _ _ Hl) as [Hsame _].
    specialize (Hsame eq_refl). subst s5.
    destruct is_short; [|unfold ret in E; inversion E].
    apply bind_ok in E. destruct E as ([sl tp] & s7 & Hc & E).
    simpl in Hc. unfold ret in E. inversion E; subst; clear E.
    assert (s6 = self') as -> by (inversion Hc; reflexivity).
    right. split; [exact Hl|]. split; [exact Hsh|].
    replace (MacdEmaBbStrategy.calculate_sl_tp self' entry "short" (atr r) None)
      with (sl, tp) by congruence.
    reflexivity.
Qed.

Lemma calculate_sl_tp_reward self entry side atr0 level :
  side = "long" \/ side = "short" ->
  let '(sl, tp) := MacdEmaBbStrategy.calculate_sl_tp self entry side atr0 level in
  Signal.reward (Signal.mk side entry sl tp None)
  == Signal.risk (Signal.mk side entry sl tp None)
     * rr_ratio (MacdEmaBbStrategy.config self).
Proof.
  intros [-> | ->]; unfold MacdEmaBbStrategy.calculate_sl_tp,
                      Signal.reward, Signal.risk; simpl; ring.
Qed.

Lemma generate_signal_reward df idx current_price
      (self self' : MacdEmaBbStrategy.t) (sg : Signal.t) :
  generate_signal df idx current_price self = Ok (Some sg, self') ->
  Signal.reward sg
  == Signal.risk sg * rr_ratio (MacdEmaBbStrategy.config self).
Proof.
  intro Hsig.
  pose proof (generate_signal_cfg _ _ _ _ _ _ Hsig) as Hcfg.
  apply generate_signal_inv in Hsig.
  destruct Hsig as (r & entry & side & _ & Hside & ->).
  pose proof (calculate_sl_tp_reward self' entry side (atr r) None Hside) as Hr.
  destruct (MacdEmaBbStrategy.calculate_sl_tp self' entry side (atr r) None)
    as [sl tp]. simpl fst. simpl snd.
  rewrite <- Hcfg. exact Hr.
Qed.

Lemma generate_signal_target df idx current_price
      (self self' : MacdEmaBbStrategy.t) (sg : Signal.t) :
  generate_signal df idx current_price self = Ok (Some sg, self') ->
  (Signal.side sg = "long" /\
   Signal.take_profit sg
   = Signal.entry_price sg
     + Signal.risk sg * rr_ratio (MacdEmaBbStrategy.config self)) \/
  (Signal.side sg = "short" /\
   Signal.take_profit sg
   = Signal.entry_price sg
     - Signal.risk sg * rr_ratio (MacdEmaBbStrategy.config self)).
Proof.
  intro Hsig.
  pose proof (generate_signal_cfg _ _ _ _ _ _ Hsig) as Hcfg.
  apply generate_signal_inv in Hsig.
  destruct Hsig as (r & entry & side & _ & Hside & ->).
  rewrite <- Hcfg.
  destruct Hside as [-> | ->]; [left|right]; split; reflexivity.
Qed.

(** X8.  For every signal returned by [generate_signal], in every stop
    mode, the target is entry + risk x [rr_ratio] for a long signal and
    entry - risk x [rr_ratio] for a short one, risk being the signal's own
    [risk] property.  With a non-negative configured ratio the reward
    therefore has the sign of the risk (not negative when the risk is not
    negative, not positive when it is not positive) and the signal's
    [rr_ratio] property is never negative, also for a stop on the wrong side
    of the entry; with risk 0 the reward and the [rr_ratio] property are
    0. *)
Theorem generate_signal_reward_follows_risk
        (self self' : MacdEmaBbStrategy.t) (df : DataFrame) (idx : nat)
        (current_price : option Q) (sg : Signal.t)
        (Hsig : generate_signal df idx current_price self = Ok (Some sg, self')) :
  (Signal.side sg = "long" ->
   Signal.take_profit sg
   = Signal.entry_price sg + Signal.risk sg * rr_ratio (config self)) /\
  (Signal.side sg = "short" ->
   Signal.take_profit sg
   = Signal.entry_price sg - Signal.risk sg * rr_ratio (config self)) /\
  (0 <= rr_ratio (config self) ->
   (0 <= Signal.risk sg -> 0 <= Signal.reward sg) /\
   (Signal.risk sg <= 0 -> Signal.reward sg <= 0) /\
   0 <= Signal.rr_ratio sg) /\
  (Signal.risk sg == 0 -> Signal.reward sg == 0 /\ Signal.rr_ratio sg = 0).
Proof.
  pose proof (generate_signal_reward _ _ _ _ _ _ Hsig) as Hr.
  pose proof (generate_signal_target _ _ _ _ _ _ Hsig) as Ht.
  simpl config.
  set (rr := rr_ratio (MacdEmaBbStrategy.config self)) in *.
  split; [|split; [|split]].
  - intro Hside. destruct Ht as [[_ Ht] | [Hs _]]; [exact Ht|].
    rewrite Hside in Hs. discriminate Hs.
  - intro Hside. destruct Ht as [[Hs _] | [_ Ht]]; [|exact Ht].
    rewrite Hside in Hs. discriminate Hs.
  - intro Hrr.
    assert (0 <= Signal.risk sg -> 0 <= Signal.reward sg) as Hpos.
    { intro H0. rewrite Hr. apply Qmult_le_0_compat; assumption. }
    assert (Signal.risk sg <= 0 -> Signal.reward sg <= 0) as Hneg.
    { intro H0. rewrite Hr.
      assert (0 <= (- Signal.risk sg) * rr) as Hm
          by (apply Qmult_le_0_compat; [lra|assumption]).
      lra. }
    split; [exact Hpos|]. split; [exact Hneg|].
    unfold Signal.rr_ratio.
    destruct (Qeq_bool (Signal.risk sg) 0) eqn:E; [apply Qle_refl|].
    assert (~ Signal.risk sg == 0) as Hne.
    { intro C. apply Qeq_bool_iff in C. congruence. }
    rewrite Hr. setoid_replace (Signal.risk sg * rr / Signal.risk sg) with rr
      by (field; exact Hne).
    exact Hrr.
  - intro Hz. split.
    + rewrite Hr, Hz. ring.
    + unfold Signal.rr_ratio. apply Qeq_bool_iff in Hz. rewrite Hz.
      reflexivity.
Qed.

(** The long signal entered at 6 below the sweep level 16: risk -17/2,
    target 6 + (-17/2) x 2, reward negative, [rr_ratio] property 2. *)
Lemma generate_signal_reward_follows_risk_sample :
  exists sg self',
    generate_signal Samples.below_sweep 7 None
      (MacdEmaBbStrategy.init (Some Samples.extreme_config))
    = Ok (Some sg, self')
    /\ Signal.take_profit sg = Signal.entry_price sg + Signal.risk sg * 2
    /\ Signal.reward sg <= 0
    /\ 0 <= Signal.rr_ratio sg.
Proof.
  do 2 eexists. split; [vm_compute; reflexivity|].
  assert (forall sg self',
             generate_signal Samples.below_sweep 7 None
               (MacdEmaBbStrategy.init (Some Samples.extreme_config))
             = Ok (Some sg, self') ->
             Signal.take_profit sg
             = Signal.entry_price sg + Signal.risk sg * 2
             /\ Signal.reward sg <= 0 /\ 0 <= Signal.rr_ratio sg) as P.
  { intros sg self' Hsig.
    destruct (generate_signal_reward_follows_risk
                (MacdEmaBbStrategy.init (Some Samples.extreme_config)) self'
                Samples.below_sweep 7 None sg Hsig)
      as (Hlong & _ & Hsign & _).
    assert (0 <= rr_ratio
                   (config (MacdEmaBbStrategy.init
                              (Some Samples.extreme_config)))) as Hrr
        by (vm_compute; discriminate).
    destruct (Hsign Hrr) as (_ & Hneg & Hratio).
    vm_compute in Hsig. inversion Hsig; subst sg self'; clear Hsig.
    split; [exact (Hlong eq_refl)|].
    split; [apply Hneg; vm_compute; discriminate|exact Hratio]. }
  eapply P. vm_compute. reflexivity.
Defined.

(** X9.  In extreme-stop mode with pattern-gating on, the stop of a returned
    signal comes from the pattern found on the signal's own bar: a long
    signal has stop = (level returned by [detect_qml_bull] at this index)
    - ATR x atr_sl_mult and that level is the one remembered afterwards,
    whatever was remembered before; a short signal likewise with
    [detect_qml_bear] and +. *)
Theorem generate_signal_extreme_stop
        (self self' : MacdEmaBbStrategy.t) (df : DataFrame) (idx : nat)
        (current_price : option Q) (sg : Signal.t) (r : Row)
        (Hsig : generate_signal df idx current_price self = Ok (Some sg, self'))
        (Hrow : nth_error df idx = Some r)
        (Hqml : use_qml (config self) = true)
        (Hextreme : use_qml_extreme_sl (config self) = true) :
  (Signal.side sg = "long" ->
   exists level,
     detect_qml_bull df idx (qml_order (config self)) (qml_recency (config self))
     = Ok (Some level) /\
     Signal.stop_loss sg = level - atr r * atr_sl_mult (config self) /\
     MacdEmaBbStrategy._last_qml_bull self' = Some level) /\
  (Signal.side sg = "short" ->
   exists level,
     detect_qml_bear df idx (qml_order (config self)) (qml_recency (config self))
     = Ok (Some level) /\
     Signal.stop_loss sg = level + atr r * atr_sl_mult (config self) /\
     MacdEmaBbStrategy._last_qml_bear self' = Some level).
Proof.
  simpl in Hqml, Hextreme. simpl config.
  apply generate_signal_sides in Hsig.
  destruct Hsig as (r0 & entry & Hr0 & _ & _ & Hcase).
  rewrite Hrow in Hr0. inversion Hr0; subst r0; clear Hr0.
  destruct Hcase as [(Hl & ->) | (_ & Hs & ->)]; simpl.
  - split; [intros _|discriminate].
    destruct (check_long_signal_state _ _ _ _ _ Hl) as [_ Hst].
    specialize (Hst eq_refl). rewrite Hqml in Hst.
    destruct Hst as (level & Hd & ->). exists level.
    split; [exact Hd|]. unfold MacdEmaBbStrategy.calculate_sl_tp. simpl.
    rewrite Hextreme. simpl. auto.
  - split; [discriminate|intros _].
    destruct (check_short_signal_state _ _ _ _ _ Hs) as [_ Hst].
    specialize (Hst eq_refl). rewrite Hqml in Hst.
    destruct Hst as (level & Hd & ->). exists level.
    split; [exact Hd|]. unfold MacdEmaBbStrategy.calculate_sl_tp. simpl.
    rewrite Hextreme. simpl. auto.
Qed.

Lemma generate_signal_extreme_stop_sample :
  exists sg self',
    generate_signal Samples.below_sweep 7 None
      (MacdEmaBbStrategy.init (Some Samples.extreme_config))
    = Ok (Some sg, self') /\
    exists level,
      detect_qml_bull Samples.below_sweep 7 1 20 = Ok (Some level) /\
      Signal.stop_loss sg = level - 1 * (3 # 2) /\
      MacdEmaBbStrategy._last_qml_bull self' = Some level.
Proof.
  do 2 eexists. split; [vm_compute; reflexivity|].
  refine (proj1 (generate_signal_extreme_stop
                   (MacdEmaBbStrategy.init (Some Samples.extreme_config)) _
                   Samples.below_sweep 7 None _
                   (mkRow 7 5 6 10 5 1 0 30 20 10 2 1 10) _ eq_refl eq_refl eq_refl)
                _).
  - vm_compute. reflexivity.
  - reflexivity.
Defined.

(** X10.  With pattern-gating off, a freshly built strategy returns the same
    signal (or the same exception) whether [use_qml_extreme_sl] is on or
    off: the flag has no effect unless [use_qml] is on too. *)
Theorem extreme_sl_needs_qml
        (c : StrategyConfig) (b : bool) (df : DataFrame) (idx : nat)
        (current_price : option Q)
        (Hqml : use_qml c = false) :
  returned (generate_signal df idx current_price
              (MacdEmaBbStrategy.init (Some (with_extreme_sl b c))))
  = returned (generate_signal df idx current_price
                (MacdEmaBbStrategy.init (Some c))).
Proof.
  unfold generate_signal, bind, get, lift, check_filters, ret, returned.
  simpl.
  destruct (if use_vol_filter c then _ else _) as [vol_ok|]; simpl;
    [|reflexivity].
  destruct (negb vol_ok); simpl; [reflexivity|].
  destruct (iloc bb_width df idx) as [w|]; simpl; [|reflexivity].
  destruct (w <? squeeze_threshold c); simpl; [reflexivity|].
  destruct (entry_price_of current_price df idx) as [entry|]; simpl;
    [|reflexivity].
  destruct (iloc atr df idx) as [a|]; simpl; [|reflexivity].
  unfold MacdEmaBbStrategy.check_long_signal,
    MacdEmaBbStrategy.check_short_signal, bind, get, lift, ret.
  simpl. rewrite ?Hqml.
  destruct (check_macd_cross_up df idx) as [[|]|]; simpl; rewrite ?Hqml;
    try reflexivity.
  - destruct (check_price_above_ema df idx) as [[|]|]; simpl; rewrite ?Hqml;
      try reflexivity.
    + unfold MacdEmaBbStrategy.calculate_sl_tp. simpl.
      destruct b, (use_qml_extreme_sl c); reflexivity.
    + destruct (check_macd_cross_down df idx) as [[|]|]; simpl; rewrite ?Hqml;
        try reflexivity.
      destruct (check_price_below_ema df idx) as [[|]|]; simpl; rewrite ?Hqml;
        try reflexivity.
      unfold MacdEmaBbStrategy.calculate_sl_tp. simpl.
      destruct b, (use_qml_extreme_sl c); reflexivity.
  - destruct (check_macd_cross_down df idx) as [[|]|]; simpl; rewrite ?Hqml;
      try reflexivity.
    destruct (check_price_below_ema df idx) as [[|]|]; simpl; rewrite ?Hqml;
      try reflexivity.
    unfold MacdEmaBbStrategy.calculate_sl_tp. simpl.
    destruct b, (use_qml_extreme_sl c); reflexivity.
Qed.

Lemma extreme_sl_needs_qml_sample :
  returned (generate_signal Samples.one_trade 1 None
              (MacdEmaBbStrategy.init (Some (with_extreme_sl true default_config))))
  = returned (generate_signal Samples.one_trade 1 None
                (MacdEmaBbStrategy.init (Some default_config))).
Proof.
  apply (extreme_sl_needs_qml default_config true Samples.one_trade 1 None).
  reflexivity.
Defined.

(** ** Shape of the detected patterns *)

Lemma seq_sorted n : forall a, StronglySorted lt (seq a n).
Proof.
  induction n as [|n IH]; intro a; simpl; constructor.
  - apply IH.
  - apply Forall_forall. intros x Hx. apply in_seq in Hx. lia.
Qed.

Lemma filter_sorted {A} (R : A -> A -> Prop) (f : A -> bool) l :
  StronglySorted R l -> StronglySorted R (filter f l).
Proof.
  induction 1 as [|x l Hs IH Hx]; simpl; [constructor|].
  destruct (f x); [|exact IH]. constructor; [exact IH|].
  rewrite Forall_forall in *. intros y Hy. apply filter_In in Hy. apply Hx, Hy.
Qed.

Lemma sorted_strengthen {A} (R R' : A -> A -> Prop) (P : A -> Prop) l :
  (forall x y, P x -> P y -> R x y -> R' x y) ->
  Forall P l -> StronglySorted R l -> StronglySorted R' l.
Proof.
  intros Himp Hp Hs. induction Hs as [|x l Hs IH Hx]; [constructor|].
  inversion Hp; subst. constructor; [apply IH; assumption|].
  rewrite Forall_forall in *. intros y Hy. apply Himp; auto.
Qed.

Lemma sorted_suffix {A} (R : A -> A -> Prop) l1 : forall l2,
  StronglySorted R (l1 ++ l2) -> StronglySorted R l2.
Proof.
  induction l1 as [|x l1 IH]; intros l2 Hs; simpl in Hs; [exact Hs|].
  inversion Hs; subst. apply IH. assumption.
Qed.

Section ExtremaShape.
Import Scipy PatternSpec.

Variable cmp : Q -> Q -> bool.
Hypothesis cmp_asym : forall x y, cmp x y = true -> cmp y x = false.
Variable data : list Q.
Variable order : Z.
Hypothesis order_pos : (1 <= order)%Z.

Lemma local_extremum_near i j :
  local_extremum cmp data order i = true ->
  (j < length data)%nat -> j <> i ->
  (Z.abs (Z.of_nat j - Z.of_nat i) <= order)%Z ->
  cmp (nth i data 0) (nth j data 0) = true.
Proof.
  intros Hext Hj Hne Hd.
  unfold local_extremum in Hext. rewrite forallb_forall in Hext.
  assert (In j (seq 0 (length data))) as Hin by (apply in_seq; lia).
  specialize (Hext _ Hin). unfold within in Hext.
  destruct (Nat.eqb_spec i j); [congruence|].
  destruct (Z.leb_spec (Z.abs (Z.of_nat j - Z.of_nat i)) order); [|lia].
  exact Hext.
Qed.

Lemma interior_extrema_in i :
  In i (interior_extrema cmp data order) ->
  (0 < i)%nat /\ (i + 1 < length data)%nat /\
  local_extremum cmp data order i = true.
Proof.
  unfold interior_extrema. intro Hin. apply filter_In in Hin.
  destruct Hin as [_ Hb]. apply andb_true_iff in Hb. destruct Hb as [Hi He].
  unfold interior in Hi. apply andb_true_iff in Hi. destruct Hi as [H0 H1].
  apply Nat.ltb_lt in H0. apply Nat.ltb_lt in H1. auto.
Qed.

(** Two extrema are more than [order] positions apart. *)
Lemma interior_extrema_apart :
  StronglySorted (fun i j => (Z.of_nat i + order < Z.of_nat j)%Z)
                 (interior_extrema cmp data order).
Proof.
  apply (sorted_strengthen lt _
           (fun i => In i (interior_extrema cmp data order))).
  - intros i j Hi Hj Hlt.
    apply interior_extrema_in in Hi. destruct Hi as (_ & Hil & Hie).
    apply interior_extrema_in in Hj. destruct Hj as (_ & Hjl & Hje).
    destruct (Z.lt_ge_cases (Z.of_nat i + order) (Z.of_nat j)) as [|Hnear];
      [assumption|exfalso].
    assert (cmp (nth i data 0) (nth j data 0) = true) as C1
        by (apply local_extremum_near; try assumption; lia).
    assert (cmp (nth j data 0) (nth i data 0) = true) as C2
        by (apply local_extremum_near; try assumption; lia).
    apply cmp_asym in C1. congruence.
  - apply Forall_forall. auto.
  - unfold interior_extrema. apply filter_sorted, seq_sorted.
Qed.

(** What a level yielded by the three-point rule says about the sequence. *)
Lemma three_point_rule_some idx recency level :
  three_point_rule cmp data idx recency (interior_extrema cmp data order)
  = Some level ->
  exists i1 i2 i3,
    (1 <= i1)%nat /\
    (Z.of_nat i1 + order < Z.of_nat i2)%Z /\
    (Z.of_nat i2 + order < Z.of_nat i3)%Z /\
    (i3 + 1 < length data)%nat /\
    level = nth i2 data 0 /\
    cmp level (nth i1 data 0) = true /\
    cmp level (nth i3 data 0) = true /\
    (Z.of_nat idx - Z.of_nat i3 < recency)%Z /\
    local_extremum cmp data order i2 = true.
Proof.
  unfold three_point_rule.
  destruct (_ <? 3)%nat; [discriminate|].
  destruct (rev (interior_extrema cmp data order))
    as [|i3 [|i2 [|i1 rest]]] eqn:Hrev; try discriminate.
  destruct (cmp _ _) eqn:C1; [|discriminate].
  destruct (cmp (nth i2 data 0) (nth i3 data 0)) eqn:C3; [|discriminate].
  destruct (_ <? recency)%Z eqn:Cr; [|discriminate].
  simpl. intro E. inversion E; subst level; clear E.
  assert (interior_extrema cmp data order = rev rest ++ [i1; i2; i3]) as Hl.
  { rewrite <- (rev_involutive (interior_extrema cmp data order)), Hrev.
    simpl. rewrite <- !app_assoc. reflexivity. }
  pose proof interior_extrema_apart as Hs. rewrite Hl in Hs.
  apply sorted_suffix in Hs.
  inversion Hs as [|? ? Hs2 H12]; subst.
  inversion Hs2 as [|? ? Hs3 H23]; subst.
  inversion H12; subst. inversion H23; subst.
  assert (In i1 (interior_extrema cmp data order)) as M1
      by (rewrite Hl; apply in_or_app; right; simpl; auto).
  assert (In i2 (interior_extrema cmp data order)) as M2
      by (rewrite Hl; apply in_or_app; right; simpl; auto).
  assert (In i3 (interior_extrema cmp data order)) as M3
      by (rewrite Hl; apply in_or_app; right; simpl; auto).
  apply interior_extrema_in in M1, M2, M3.
  exists i1, i2, i3. apply Z.ltb_lt in Cr.
  repeat split; try tauto; try lia; assumption.
Qed.

Lemma three_point_rule_warm_up idx recency :
  (Z.of_nat (length data) < 2 * order + 5)%Z \/
  ((length data <= idx + 1)%nat /\ (recency <= 1)%Z) ->
  three_point_rule cmp data idx recency (interior_extrema cmp data order)
  = None.
Proof.
  intro Hc.
  destruct (three_point_rule cmp data idx recency _) as [level|] eqn:E;
    [|reflexivity].
  exfalso. apply three_point_rule_some in E.
  destruct E as (i1 & i2 & i3 & H1 & H2 & H3 & H4 & _ & _ & _ & Hr & _).
  destruct Hc as [Hc | [Hc1 Hc2]]; lia.
Qed.

End ExtremaShape.

Lemma ltb_asym x y : Num.ltb x y = true -> Num.ltb y x = false.
Proof.
  intro H. apply NumFacts.ltb_lt in H. apply NumFacts.ltb_ge.
  apply Qlt_le_weak, H.
Qed.

Lemma gtb_asym x y : Num.gtb x y = true -> Num.gtb y x = false.
Proof. unfold Num.gtb. apply ltb_asym. Qed.

Lemma column_prefix_length col df stop :
  length (column_prefix col df stop) = Nat.min stop (length df).
Proof. unfold column_prefix. rewrite length_map, length_firstn. reflexivity. Qed.

Lemma column_prefix_nth col df stop j r :
  nth_error df j = Some r -> (j < stop)%nat ->
  nth j (column_prefix col df stop) 0 = col r.
Proof.
  intros Hr Hj. unfold column_prefix.
  assert (nth_error (map col (firstn stop df)) j = Some (col r)) as E.
  { rewrite nth_error_map, nth_error_firstn.
    destruct (Nat.ltb_spec j stop); [|lia]. rewrite Hr. reflexivity. }
  apply nth_error_nth with (d := 0) in E. exact E.
Qed.

(** X11.  For [order >= 1] both detectors return nothing while fewer than
    [2 x order + 5] bars are available (index below [2 x order + 4]), and
    at every index when [recency <= 1]: three local extrema lie more than
    [order] bars apart, none at either end, so the latest is at least one
    bar old. *)
Theorem detect_qml_warm_up
        (df : DataFrame) (idx : nat) (order recency : Z)
        (Horder : (1 <= order)%Z)
        (Hearly : (Z.of_nat idx < 2 * order + 4)%Z \/ (recency <= 1)%Z) :
  detect_qml_bull df idx order recency = Ok None /\
  detect_qml_bear df idx order recency = Ok None.
Proof.
  rewrite (detect_qml_bull_interior _ _ _ _ Horder),
          (detect_qml_bear_interior _ _ _ _ Horder).
  unfold PatternSpec.qml_bull_interior, PatternSpec.qml_bear_interior.
  split; f_equal.
  - apply three_point_rule_warm_up; [exact ltb_asym|].
    rewrite column_prefix_length. destruct Hearly; [left|right]; lia.
  - apply three_point_rule_warm_up; [exact gtb_asym|].
    rewrite column_prefix_length. destruct Hearly; [left|right]; lia.
Qed.

Lemma detect_qml_warm_up_sample :
  detect_qml_bull Samples.sweep_lows 5 1 20 = Ok None /\
  detect_qml_bear Samples.sweep_lows 5 1 20 = Ok None.
Proof.
  apply (detect_qml_warm_up Samples.sweep_lows 5 1 20); [lia|left; lia].
Defined.

Lemma detect_qml_ok_order cmp data order idxs :
  Scipy.argrelextrema data cmp order = Ok idxs -> (1 <= order)%Z.
Proof.
  unfold Scipy.argrelextrema, Scipy._boolrelextrema.
  destruct (Z.ltb_spec order 1); [discriminate|]. intros _. assumption.
Qed.

Lemma detect_qml_bull_order df idx order recency res :
  detect_qml_bull df idx order recency = Ok res -> (1 <= order)%Z.
Proof.
  unfold detect_qml_bull. intro E. apply rbind_ok in E.
  destruct E as (idxs & Ha & _). eapply detect_qml_ok_order, Ha.
Qed.

Lemma detect_qml_bear_order df idx order recency res :
  detect_qml_bear df idx order recency = Ok res -> (1 <= order)%Z.
Proof.
  unfold detect_qml_bear. intro E. apply rbind_ok in E.
  destruct E as (idxs & Ha & _). eapply detect_qml_ok_order, Ha.
Qed.

(** Where a level of the three-point rule over a column prefix sits. *)
Lemma prefix_level_location cmp col df idx order recency level :
  (forall x y, cmp x y = true -> cmp y x = false) ->
  (1 <= order)%Z ->
  PatternSpec.three_point_rule cmp (column_prefix col df (idx + 1)) idx recency
    (PatternSpec.interior_extrema cmp (column_prefix col df (idx + 1)) order)
  = Some level ->
  exists i2 r2,
    nth_error df i2 = Some r2 /\ col r2 = level /\
    (order + 2 <= Z.of_nat i2)%Z /\
    (Z.of_nat i2 + order + 2 <= Z.of_nat idx)%Z /\
    (2 <= recency)%Z /\
    (forall j rj, nth_error df j = Some rj -> j <> i2 ->
                  (Z.abs (Z.of_nat j - Z.of_nat i2) <= order)%Z ->
                  cmp (col r2) (col rj) = true).
Proof.
  intros Hasym Ho E.
  apply (three_point_rule_some cmp Hasym) in E.
  destruct E as (i1 & i2 & i3 & H1 & H12 & H23 & H3 & Hlev & _ & _ & Hr & Hext).
  rewrite column_prefix_length in H3.
  assert (i2 < length df)%nat as Hi2 by lia.
  destruct (nth_error df i2) as [r2|] eqn:Hr2;
    [|apply nth_error_None in Hr2; lia].
  assert (nth i2 (column_prefix col df (idx + 1)) 0 = col r2) as Hn2
      by (apply column_prefix_nth; [exact Hr2|lia]).
  exists i2, r2. split; [exact Hr2|]. split; [congruence|].
  split; [lia|]. split; [lia|]. split; [lia|].
  intros j rj Hrj Hne Hd.
  assert (j < length df)%nat as Hj by (apply nth_error_Some; congruence).
  rewrite <- Hn2.
  rewrite <- (column_prefix_nth col df (idx + 1) j rj Hrj) by lia.
  apply (local_extremum_near cmp _ order); try assumption.
  rewrite column_prefix_length. lia.
Qed.

(** X12.  A level returned by [detect_qml_bull] is the low of a bar that
    lies at least [order + 2] bars after the start and at least [order + 2]
    bars before the evaluation index, and that low is strictly below the low
    of every other bar within [order] positions; [recency] is then at least
    2.  [detect_qml_bear] is the mirror over the highs. *)
Theorem detect_qml_level_location
        (df : DataFrame) (idx : nat) (order recency : Z) :
  (forall level,
      detect_qml_bull df idx order recency = Ok (Some level) ->
      exists i2 r2,
        nth_error df i2 = Some r2 /\ low r2 = level /\
        (order + 2 <= Z.of_nat i2)%Z /\
        (Z.of_nat i2 + order + 2 <= Z.of_nat idx)%Z /\
        (2 <= recency)%Z /\
        (forall j rj, nth_error df j = Some rj -> j <> i2 ->
                      (Z.abs (Z.of_nat j - Z.of_nat i2) <= order)%Z ->
                      low r2 < low rj)) /\
  (forall level,
      detect_qml_bear df idx order recency = Ok (Some level) ->
      exists i2 r2,
        nth_error df i2 = Some r2 /\ high r2 = level /\
        (order + 2 <= Z.of_nat i2)%Z /\
        (Z.of_nat i2 + order + 2 <= Z.of_nat idx)%Z /\
        (2 <= recency)%Z /\
        (forall j rj, nth_error df j = Some rj -> j <> i2 ->
                      (Z.abs (Z.of_nat j - Z.of_nat i2) <= order)%Z ->
                      high rj < high r2)).
Proof.
  split; intros level E.
  - pose proof (detect_qml_bull_order _ _ _ _ _ E) as Ho.
    rewrite (detect_qml_bull_interior _ _ _ _ Ho) in E.
    inversion E as [E']; clear E. unfold PatternSpec.qml_bull_interior in E'.
    apply (prefix_level_location Num.ltb low) in E'; [|exact ltb_asym|exact Ho].
    destruct E' as (i2 & r2 & H1 & H2 & H3 & H4 & H5 & H6).
    exists i2, r2. repeat (split; [assumption|]).
    intros j rj Hj Hne Hd. apply NumFacts.ltb_lt. eapply H6; eassumption.
  - pose proof (detect_qml_bear_order _ _ _ _ _ E) as Ho.
    rewrite (detect_qml_bear_interior _ _ _ _ Ho) in E.
    inversion E as [E']; clear E. unfold PatternSpec.qml_bear_interior in E'.
    apply (prefix_level_location Num.gtb high) in E'; [|exact gtb_asym|exact Ho].
    destruct E' as (i2 & r2 & H1 & H2 & H3 & H4 & H5 & H6).
    exists i2, r2. repeat (split; [assumption|]).
    intros j rj Hj Hne Hd. apply NumFacts.gtb_gt. eapply H6; eassumption.
Qed.

Lemma detect_qml_level_location_sample :
  exists i2 r2,
    nth_error Samples.sweep_lows i2 = Some r2 /\ low r2 = 3 /\
    (1 + 2 <= Z.of_nat i2)%Z /\ (Z.of_nat i2 + 1 + 2 <= Z.of_nat 6)%Z.
Proof.
  destruct (proj1 (detect_qml_level_location Samples.sweep_lows 6 1 20) 3
              eq_refl)
    as (i2 & r2 & H1 & H2 & H3 & H4 & _).
  exists i2, r2. auto.
Defined.

(** ** Swing helpers *)

Lemma map_nth_row (col : Row -> Q) (w : DataFrame) j r :
  nth_error w j = Some r -> nth j (map col w) 0 = col r.
Proof.
  intro Hr. apply nth_error_nth. rewrite nth_error_map, Hr. reflexivity.
Qed.

Lemma last_in {A} (l : list A) d : l <> [] -> In (last l d) l.
Proof.
  induction l as [|x l IH]; intro Hne; [congruence|].
  destruct l as [|y l]; [left; reflexivity|].
  right. apply IH. discriminate.
Qed.

(** The latest extremum of a window, as a row of the window. *)
Lemma latest_extremum_row cmp col (w : DataFrame) order idxs :
  Scipy.argrelextrema (map col w) cmp order = Ok idxs ->
  (forall x, cmp x x = false) ->
  idxs <> [] ->
  exists i r,
    nth_error w i = Some r /\ nth (last idxs 0%nat) (map col w) 0 = col r /\
    (0 < i)%nat /\ (i + 1 < length w)%nat /\
    (forall j rj, nth_error w j = Some rj -> j <> i ->
                  (Z.abs (Z.of_nat j - Z.of_nat i) <= order)%Z ->
                  cmp (col r) (col rj) = true).
Proof.
  intros Ha Hirr Hne.
  pose proof (detect_qml_ok_order _ _ _ _ Ha) as Ho.
  rewrite (argrelextrema_interior cmp Hirr (map col w) order Ho) in Ha.
  inversion Ha as [Hidx]; clear Ha. subst idxs.
  pose proof (last_in _ 0%nat Hne) as Hin.
  apply interior_extrema_in in Hin. destruct Hin as (H0 & H1 & Hext).
  rewrite length_map in H1.
  set (i := last _ 0%nat) in *.
  destruct (nth_error w i) as [r|] eqn:Hr;
    [|apply nth_error_None in Hr; lia].
  exists i, r. split; [exact Hr|].
  split; [apply map_nth_row, Hr|]. split; [exact H0|]. split; [exact H1|].
  intros j rj Hrj Hnej Hd.
  rewrite <- (map_nth_row col w i r Hr), <- (map_nth_row col w j rj Hrj).
  apply (local_extremum_near cmp _ order); try assumption.
  rewrite length_map. apply nth_error_Some. congruence.
Qed.

Lemma find_swing_high_some df lookback order v :
  find_swing_high df lookback order = Ok (Some v) ->
  exists i r,
    nth_error (tail lookback df) i = Some r /\ high r = v /\
    (0 < i)%nat /\ (i + 1 < length (tail lookback df))%nat /\
    (forall j rj, nth_error (tail lookback df) j = Some rj -> j <> i ->
                  (Z.abs (Z.of_nat j - Z.of_nat i) <= order)%Z ->
                  high rj < high r).
Proof.
  unfold find_swing_high.
  destruct (_ <? lookback)%Z; [discriminate|].
  intro E. apply rbind_ok in E. destruct E as (idxs & Ha & E).
  destruct idxs as [|i0 idxs]; [discriminate|].
  change (length (i0 :: idxs) =? 0)%nat with false in E. cbv iota in E.
  inversion E as [Hv]; clear E.
  destruct (latest_extremum_row Num.gtb high _ _ _ Ha gtb_irrefl)
    as (i & r & Hr & Hn & H0 & H1 & Hnear); [discriminate|].
  exists i, r. split; [exact Hr|]. split; [symmetry; exact Hn|].
  split; [exact H0|]. split; [exact H1|].
  intros j rj Hj Hne Hd. apply NumFacts.gtb_gt. eapply Hnear; eassumption.
Qed.

Lemma find_swing_low_some df lookback order v :
  find_swing_low df lookback order = Ok (Some v) ->
  exists i r,
    nth_error (tail lookback df) i = Some r /\ low r = v /\
    (0 < i)%nat /\ (i + 1 < length (tail lookback df))%nat /\
    (forall j rj, nth_error (tail lookback df) j = Some rj -> j <> i ->
                  (Z.abs (Z.of_nat j - Z.of_nat i) <= order)%Z ->
                  low r < low rj).
Proof.
  unfold find_swing_low.
  destruct (_ <? lookback)%Z; [discriminate|].
  intro E. apply rbind_ok in E. destruct E as (idxs & Ha & E).
  destruct idxs as [|i0 idxs]; [discriminate|].
  change (length (i0 :: idxs) =? 0)%nat with false in E. cbv iota in E.
  inversion E as [Hv]; clear E.
  destruct (latest_extremum_row Num.ltb low _ _ _ Ha NumFacts.ltb_irrefl)
    as (i & r & Hr & Hn & H0 & H1 & Hnear); [discriminate|].
  exists i, r. split; [exact Hr|]. split; [symmetry; exact Hn|].
  split; [exact H0|]. split; [exact H1|].
  intros j rj Hj Hne Hd. apply NumFacts.ltb_lt. eapply Hnear; eassumption.
Qed.

(** X13.  [find_swing_high] returns nothing when the frame has fewer than
    [lookback] rows; a value it returns is the high of a row of the last
    [lookback] rows that is neither the first nor the last of them and is
    strictly above the high of every other row within [order] positions.
    [find_swing_low] is the mirror over the lows. *)
Theorem find_swing_reports (df : DataFrame) (lookback order : Z) :
  ((Z.of_nat (length df) < lookback)%Z ->
   find_swing_high df lookback order = Ok None /\
   find_swing_low df lookback order = Ok None) /\
  (forall v,
      find_swing_high df lookback order = Ok (Some v) ->
      exists i r,
        nth_error (tail lookback df) i = Some r /\ high r = v /\
        (0 < i)%nat /\ (i + 1 < length (tail lookback df))%nat /\
        (forall j rj, nth_error (tail lookback df) j = Some rj -> j <> i ->
                      (Z.abs (Z.of_nat j - Z.of_nat i) <= order)%Z ->
                      high rj < high r)) /\
  (forall v,
      find_swing_low df lookback order = Ok (Some v) ->
      exists i r,
        nth_error (tail lookback df) i = Some r /\ low r = v /\
        (0 < i)%nat /\ (i + 1 < length (tail lookback df))%nat /\
        (forall j rj, nth_error (tail lookback df) j = Some rj -> j <> i ->
                      (Z.abs (Z.of_nat j - Z.of_nat i) <= order)%Z ->
                      low r < low rj)).
Proof.
  split; [|split].
  - intro Hshort. unfold find_swing_high, find_swing_low.
    destruct (Z.ltb_spec (Z.of_nat (length df)) lookback); [auto|lia].
  - intros v E. apply find_swing_high_some, E.
  - intros v E. apply find_swing_low_some, E.
Qed.

Lemma find_swing_reports_sample :
  find_swing_high rising_highs 6 1 = Ok None /\
  find_swing_low rising_highs 6 1 = Ok None.
Proof.
  apply (proj1 (find_swing_reports rising_highs 6 1)). simpl. lia.
Defined.

(** The latest swing high of the sample: highs 1, 3, 2, 5, 4. *)
Lemma find_swing_high_rising : find_swing_high rising_highs 5 1 = Ok (Some 5).
Proof. reflexivity. Qed.

Lemma last_two_exclusive prices idxs latest previous :
  last_two prices idxs = (latest, previous) ->
  (latest >? previous) && (latest <? previous) = false.
Proof.
  intros _. destruct (latest >? previous) eqn:C; [|reflexivity].
  simpl. apply gtb_asym in C. exact C.
Qed.

(** X14.  On the same frame and window, [detect_higher_high] and
    [detect_lower_high] never both return [True], and neither do
    [detect_lower_low] and [detect_higher_low]. *)
Theorem swing_trends_exclusive (df : DataFrame) (lookback order : Z) :
  (detect_higher_high df lookback order = Ok true ->
   detect_lower_high df lookback order = Ok false) /\
  (detect_lower_high df lookback order = Ok true ->
   detect_higher_high df lookback order = Ok false) /\
  (detect_lower_low df lookback order = Ok true ->
   detect_higher_low df lookback order = Ok false) /\
  (detect_higher_low df lookback order = Ok true ->
   detect_lower_low df lookback order = Ok false).
Proof.
  unfold detect_higher_high, detect_lower_high, detect_lower_low,
    detect_higher_low.
  destruct (Scipy.argrelextrema (map high (tail lookback df)) Num.gtb order)
    as [maxima|]; simpl;
  destruct (Scipy.argrelextrema (map low (tail lookback df)) Num.ltb order)
    as [minima|]; simpl;
  repeat split; try discriminate;
    try (destruct (length maxima <? 2)%nat; [discriminate|]);
    try (destruct (length minima <? 2)%nat; [discriminate|]);
    try (destruct (last_two _ maxima) as [latest previous]);
    try (destruct (last_two _ minima) as [latest previous]);
    intro E; inversion E as [C]; f_equal;
    first [ apply gtb_asym in C; exact C | apply ltb_asym in C; exact C ].
Qed.

Lemma swing_trends_exclusive_sample :
  detect_lower_high rising_highs 5 1 = Ok false.
Proof.
  apply (proj1 (swing_trends_exclusive rising_highs 5 1)). reflexivity.
Defined.

(** ** Exponential averages *)

Lemma alpha_bounds span : (1 <= span)%Z -> 0 < Pandas.alpha span /\ Pandas.alpha span <= 1.
Proof.
  intro Hs. unfold Pandas.alpha.
  assert (1 <= inject_Z span) as H1.
  { change 1 with (inject_Z 1). rewrite <- Zle_Qle. exact Hs. }
  split.
  - apply Qlt_shift_div_l; lra.
  - apply Qle_shift_div_r; lra.
Qed.

Lemma ewm_from_length a xs : forall prev,
  length (Pandas.ewm_from a prev xs) = length xs.
Proof.
  induction xs as [|x xs IH]; intro prev; simpl; [reflexivity|].
  rewrite IH. reflexivity.
Qed.

Lemma ewm_from_bounds a lo hi xs : forall prev,
  0 <= a -> a <= 1 -> lo <= prev -> prev <= hi ->
  Forall (fun x => lo <= x /\ x <= hi) xs ->
  Forall (fun y => lo <= y /\ y <= hi) (Pandas.ewm_from a prev xs).
Proof.
  induction xs as [|x xs IH]; intros prev Ha0 Ha1 Hlo Hhi Hxs; simpl;
    [constructor|].
  inversion Hxs as [|? ? [Hx1 Hx2] Hrest]; subst.
  assert (lo <= (1 - a) * prev + a * x /\ (1 - a) * prev + a * x <= hi)
    as [Hy1 Hy2] by (split; nra).
  constructor; [split; assumption|]. apply IH; assumption.
Qed.

Lemma ewm_from_const a c xs : forall prev,
  prev == c -> Forall (fun x => x == c) xs ->
  Forall (fun y => y == c) (Pandas.ewm_from a prev xs).
Proof.
  induction xs as [|x xs IH]; intros prev Hp Hxs; simpl; [constructor|].
  inversion Hxs as [|? ? Hx Hrest]; subst.
  assert ((1 - a) * prev + a * x == c) as Hy by (rewrite Hp, Hx; ring).
  constructor; [exact Hy|]. apply IH; assumption.
Qed.

Lemma ewm_mean_ok span xs :
  (1 <= span)%Z ->
  exists ys, Pandas.ewm_mean span xs = Ok ys /\
    length ys = length xs /\ hd_error ys = hd_error xs /\
    (forall lo hi, Forall (fun x => lo <= x /\ x <= hi) xs ->
                   Forall (fun y => lo <= y /\ y <= hi) ys) /\
    (forall c, Forall (fun x => x == c) xs -> Forall (fun y => y == c) ys).
Proof.
  intro Hs. unfold Pandas.ewm_mean.
  destruct (Z.ltb_spec span 1); [lia|].
  destruct (alpha_bounds span Hs) as [Ha0 Ha1].
  destruct xs as [|x xs].
  - exists []. repeat split; auto.
  - eexists. split; [reflexivity|]. simpl. rewrite ewm_from_length.
    split; [reflexivity|]. split; [reflexivity|]. split.
    + intros lo hi Hxs. inversion Hxs as [|? ? [Hx1 Hx2] Hrest]; subst.
      constructor; [split; assumption|].
      apply ewm_from_bounds; try assumption. lra.
    + intros c Hxs. inversion Hxs as [|? ? Hx Hrest]; subst.
      constructor; [exact Hx|]. apply ewm_from_const; assumption.
Qed.

Lemma ewm_mean_bad span xs :
  (span < 1)%Z -> Pandas.ewm_mean span xs = Raise ValueError.
Proof.
  intro Hs. unfold Pandas.ewm_mean. destruct (Z.ltb_spec span 1); [reflexivity|lia].
Qed.

(** X15.  [calculate_ema] raises [ValueError] for a period below 1;
    otherwise it returns a series of the same length that starts with the
    first input value and stays within any bounds that hold for the whole
    input (an average never leaves the range of the prices); on a constant
    series it is that constant. *)
Theorem calculate_ema_within_range (series : list Q) (period : Z) :
  ((period < 1)%Z -> calculate_ema series period = Raise ValueError) /\
  ((1 <= period)%Z ->
   exists ys, calculate_ema series period = Ok ys /\
     length ys = length series /\ hd_error ys = hd_error series /\
     (forall lo hi, Forall (fun x => lo <= x /\ x <= hi) series ->
                    Forall (fun y => lo <= y /\ y <= hi) ys) /\
     (forall c, Forall (fun x => x == c) series ->
                Forall (fun y => y == c) ys)).
Proof.
  split.
  - apply ewm_mean_bad.
  - apply ewm_mean_ok.
Qed.

Lemma calculate_ema_within_range_sample :
  exists ys, calculate_ema [10; 12; 11; 13] 3 = Ok ys /\
    length ys = 4%nat /\
    Forall (fun y => 10 <= y /\ y <= 13) ys.
Proof.
  destruct (proj2 (calculate_ema_within_range [10; 12; 11; 13] 3))
    as (ys & Hy & Hl & _ & Hb & _); [lia|].
  exists ys. split; [exact Hy|]. split; [exact Hl|].
  apply Hb. repeat constructor; discriminate.
Defined.

Lemma series_sub_length xs : forall ys,
  length ys = length xs -> length (series_sub xs ys) = length xs.
Proof.
  intros ys Hl. unfold series_sub. rewrite length_map, length_combine. lia.
Qed.

Lemma series_sub_const c xs : forall ys,
  Forall (fun x => x == c) xs -> Forall (fun y => y == c) ys ->
  Forall (fun d => d == 0) (series_sub xs ys).
Proof.
  unfold series_sub. induction xs as [|x xs IH]; intros ys Hx Hy; simpl;
    [constructor|].
  destruct ys as [|y ys]; simpl; [constructor|].
  inversion Hx; inversion Hy; subst.
  constructor; [|apply IH; assumption].
  match goal with H1 : x == c, H2 : y == c |- _ => rewrite H1, H2 end. ring.
Qed.

Lemma series_sub_nth xs ys k d :
  nth_error (series_sub xs ys) k = Some d ->
  exists x y, nth_error xs k = Some x /\ nth_error ys k = Some y /\ d = x - y.
Proof.
  unfold series_sub. rewrite nth_error_map.
  destruct (nth_error (combine xs ys) k) as [[x y]|] eqn:E; [|discriminate].
  simpl. intro H. inversion H; subst.
  revert ys k E. induction xs as [|a xs IH]; intros ys k E.
  - destruct k; discriminate.
  - destruct ys as [|b ys]; [destruct k; discriminate|].
    destruct k as [|k]; simpl in E.
    + inversion E; subst. exists x, y. auto.
    + apply IH in E. destruct E as (x' & y' & H1 & H2 & H3).
      exists x', y'. auto.
Qed.

(** X16.  [calculate_macd] raises [ValueError] when a period is below 1;
    otherwise its three lines have the length of the input, the histogram
    is the oscillator line minus the signal line at every position, and on
    a constant series all three lines are 0 in exact arithmetic. *)
Theorem calculate_macd_lines
        (series : list Q) (fast_period slow_period signal_period : Z) :
  ((fast_period < 1 \/ slow_period < 1 \/ signal_period < 1)%Z ->
   calculate_macd series fast_period slow_period signal_period
   = Raise ValueError) /\
  ((1 <= fast_period /\ 1 <= slow_period /\ 1 <= signal_period)%Z ->
   exists macd_line signal_line histogram,
     calculate_macd series fast_period slow_period signal_period
     = Ok (macd_line, signal_line, histogram) /\
     length macd_line = length series /\
     length signal_line = length series /\
     length histogram = length series /\
     (forall k h, nth_error histogram k = Some h ->
        exists m s, nth_error macd_line k = Some m /\
                    nth_error signal_line k = Some s /\ h = m - s) /\
     (forall c, Forall (fun x => x == c) series ->
        Forall (fun m => m == 0) macd_line /\
        Forall (fun s => s == 0) signal_line /\
        Forall (fun h => h == 0) histogram)).
Proof.
  unfold calculate_macd. split.
  - intro Hbad.
    destruct (Z.lt_ge_cases fast_period 1) as [Hf|Hf];
      [rewrite (ewm_mean_bad _ _ Hf); reflexivity|].
    destruct (ewm_mean_ok fast_period series) as (ef & -> & _); [lia|]. simpl.
    destruct (Z.lt_ge_cases slow_period 1) as [Hs|Hs];
      [rewrite (ewm_mean_bad _ _ Hs); reflexivity|].
    destruct (ewm_mean_ok slow_period series) as (es & -> & _); [lia|]. simpl.
    rewrite ewm_mean_bad by lia. reflexivity.
  - intros (Hf & Hs & Hg).
    destruct (ewm_mean_ok fast_period series Hf)
      as (ef & -> & Hfl & _ & _ & Hfc).
    destruct (ewm_mean_ok slow_period series Hs)
      as (es & -> & Hsl & _ & _ & Hsc).
    simpl.
    destruct (ewm_mean_ok signal_period (series_sub ef es) Hg)
      as (sg & -> & Hgl & _ & _ & Hgc).
    simpl. do 3 eexists. split; [reflexivity|].
    assert (length (series_sub ef es) = length series) as Hml
        by (rewrite series_sub_length; lia).
    split; [exact Hml|]. split; [lia|].
    split; [rewrite series_sub_length; lia|].
    split; [intros k h Hk; apply series_sub_nth, Hk|].
    intros c Hc.
    pose proof (series_sub_const c ef es (Hfc c Hc) (Hsc c Hc)) as Hm.
    pose proof (Hgc 0 Hm) as Hsg.
    split; [exact Hm|]. split; [exact Hsg|].
    apply (series_sub_const 0); assumption.
Qed.

Lemma calculate_macd_lines_sample :
  exists macd_line signal_line histogram,
    calculate_macd [100; 100; 100; 100] 12 26 9
    = Ok (macd_line, signal_line, histogram) /\
    Forall (fun m => m == 0) macd_line /\
    Forall (fun s => s == 0) signal_line.
Proof.
  destruct (proj2 (calculate_macd_lines [100; 100; 100; 100] 12 26 9))
    as (m & s & h & He & _ & _ & _ & _ & Hc); [lia|].
  destruct (Hc 100) as (Hm & Hs & _); [repeat constructor|].
  exists m, s, h. auto.
Defined.

(** ** Rolling means *)

Lemma of_nat_succ n : of_nat (Datatypes.S n) == of_nat n + 1.
Proof.
  unfold of_nat. rewrite Nat2Z.inj_succ. unfold Z.succ.
  rewrite inject_Z_plus. reflexivity.
Qed.

Lemma fold_sum_bounds lo hi xs : forall acc,
  Forall (fun x => lo <= x /\ x <= hi) xs ->
  acc + of_nat (length xs) * lo <= fold_left Qplus xs acc /\
  fold_left Qplus xs acc <= acc + of_nat (length xs) * hi.
Proof.
  induction xs as [|x xs IH]; intros acc Hxs.
  - simpl. change (of_nat 0) with 0. split; lra.
  - inversion Hxs as [|? ? [Hx1 Hx2] Hrest]; subst.
    destruct (IH (acc + x) Hrest) as [H1 H2].
    change (length (x :: xs)) with (Datatypes.S (length xs)).
    rewrite of_nat_succ. simpl. split; lra.
Qed.

Lemma mean_bounds lo hi xs :
  xs <> [] -> Forall (fun x => lo <= x /\ x <= hi) xs ->
  lo <= py_sum xs / of_nat (length xs) /\
  py_sum xs / of_nat (length xs) <= hi.
Proof.
  intros Hne Hxs.
  assert (0 < of_nat (length xs)) as Hn.
  { apply of_nat_pos. destruct xs; [congruence|simpl; lia]. }
  destruct (fold_sum_bounds lo hi xs 0 Hxs) as [H1 H2]. unfold py_sum.
  split.
  - apply Qle_shift_div_l; [exact Hn|]. lra.
  - apply Qle_shift_div_r; [exact Hn|]. lra.
Qed.

Lemma observations_length {A} (w : list (option A)) :
  (length (Pandas.observations w) <= length w)%nat.
Proof.
  induction w as [|[x|] w IH]; simpl; lia.
Qed.

Lemma observations_missing {A} (w : list (option A)) :
  In None w -> (length (Pandas.observations w) < length w)%nat.
Proof.
  induction w as [|[x|] w IH]; simpl; intro Hin.
  - contradiction.
  - destruct Hin as [C|Hin]; [discriminate|]. specialize (IH Hin). lia.
  - pose proof (observations_length w). lia.
Qed.

Lemma observations_all {A} (P : A -> Prop) (w : list (option A)) :
  Forall (fun o => exists x, o = Some x /\ P x) w ->
  length (Pandas.observations w) = length w /\
  Forall P (Pandas.observations w).
Proof.
  induction 1 as [|o w (x & -> & Hx) Hw [IH1 IH2]]; simpl.
  - split; constructor.
  - split; [lia|]. constructor; assumption.
Qed.

Lemma window_length {A} period i (xs : list (option A)) :
  length (Pandas.window period i xs) = Nat.min period (i + 1).
Proof. unfold Pandas.window. rewrite length_map, length_seq. reflexivity. Qed.

Lemma window_in {A} period i (xs : list (option A)) o :
  In o (Pandas.window period i xs) <->
  exists j, (i + 1 - period <= j <= i)%nat /\ nth j xs None = o.
Proof.
  unfold Pandas.window. rewrite in_map_iff. split.
  - intros (j & Hj & Hin). apply in_seq in Hin. exists j. split; [lia|exact Hj].
  - intros (j & Hj & Hn). exists j. split; [exact Hn|]. apply in_seq. lia.
Qed.

(** The entry of a rolling mean at position [i]. *)
Lemma rolling_mean_at period xs i :
  (0 <= period)%Z -> (i < length xs)%nat ->
  exists ys, Pandas.rolling_mean period xs = Ok ys /\
    length ys = length xs /\
    nth_error ys i
    = Some (let obs := Pandas.observations
                         (Pandas.window (Z.to_nat period) i xs) in
            if (length obs <? Z.to_nat period)%nat || (length obs =? 0)%nat
            then None
            else Some (py_sum obs / of_nat (length obs))).
Proof.
  intros Hp Hi. unfold Pandas.rolling_mean.
  destruct (Z.ltb_spec period 0); [lia|].
  eexists. split; [reflexivity|]. rewrite length_map, length_seq.
  split; [reflexivity|].
  rewrite nth_error_map, nth_error_seq.
  destruct (Nat.ltb_spec i (length xs)); [|lia]. reflexivity.
Qed.

Lemma rolling_cell_undefined period xs i :
  (1 <= period)%nat ->
  (i + 1 < period)%nat \/
  (exists j, (i + 1 - period <= j <= i)%nat /\ nth j xs None = None) ->
  (let obs := Pandas.observations (Pandas.window period i xs) in
   if (length obs <? period)%nat || (length obs =? 0)%nat
   then None
   else Some (py_sum obs / of_nat (length obs))) = @None Q.
Proof.
  intros Hp Hc. cbv zeta.
  assert (length (Pandas.observations (Pandas.window period i xs)) < period)%nat
    as Hlt.
  { destruct Hc as [Hshort | Hnone].
    - pose proof (observations_length (Pandas.window period i xs)) as Hl.
      rewrite window_length in Hl. lia.
    - apply window_in in Hnone. apply observations_missing in Hnone.
      rewrite window_length in Hnone. lia. }
  apply Nat.ltb_lt in Hlt. rewrite Hlt. reflexivity.
Qed.

Lemma rolling_cell_defined (P : Q -> Prop) period xs i :
  (1 <= period)%nat -> (period <= i + 1)%nat ->
  (forall j, (i + 1 - period <= j <= i)%nat ->
             exists x, nth j xs None = Some x /\ P x) ->
  exists obs,
    (let obs := Pandas.observations (Pandas.window period i xs) in
     if (length obs <? period)%nat || (length obs =? 0)%nat
     then None
     else Some (py_sum obs / of_nat (length obs)))
    = Some (py_sum obs / of_nat period) /\
    length obs = period /\ Forall P obs /\
    obs = Pandas.observations (Pandas.window period i xs).
Proof.
  intros Hp Hi Hall. cbv zeta.
  destruct (observations_all P (Pandas.window period i xs)) as [Hl Hf].
  { apply Forall_forall. intros o Ho. apply window_in in Ho.
    destruct Ho as (j & Hj & <-). apply Hall, Hj. }
  rewrite window_length in Hl.
  replace (Nat.min period (i + 1)) with period in Hl by lia.
  exists (Pandas.observations (Pandas.window period i xs)).
  rewrite Hl.
  destruct (Nat.ltb_spec period period); [lia|].
  destruct (Nat.eqb_spec period 0); [lia|]. simpl. auto.
Qed.

Lemma rolling_mean_bad period xs :
  (period < 0)%Z -> Pandas.rolling_mean period xs = Raise ValueError.
Proof.
  intro Hp. unfold Pandas.rolling_mean.
  destruct (Z.ltb_spec period 0); [reflexivity|lia].
Qed.

Lemma rolling_mean_entries period xs :
  (1 <= period)%Z ->
  exists ys, Pandas.rolling_mean period xs = Ok ys /\
    length ys = length xs /\
    (forall i, (i < length xs)%nat ->
       (Z.of_nat i + 1 < period)%Z \/
       (exists j, (i + 1 - Z.to_nat period <= j <= i)%nat /\
                  nth j xs None = None) ->
       nth_error ys i = Some None) /\
    (forall (P : Q -> Prop) i, (i < length xs)%nat ->
       (period <= Z.of_nat i + 1)%Z ->
       (forall j, (i + 1 - Z.to_nat period <= j <= i)%nat ->
                  exists x, nth j xs None = Some x /\ P x) ->
       exists obs,
         nth_error ys i = Some (Some (py_sum obs / inject_Z period)) /\
         Z.of_nat (length obs) = period /\ Forall P obs).
Proof.
  intro Hp.
  assert (exists ys, Pandas.rolling_mean period xs = Ok ys
                     /\ length ys = length xs) as (ys & Hys & Hlen).
  { unfold Pandas.rolling_mean. destruct (Z.ltb_spec period 0); [lia|].
    eexists. split; [reflexivity|]. rewrite length_map, length_seq. reflexivity. }
  exists ys. split; [exact Hys|]. split; [exact Hlen|].
  assert (forall i, (i < length xs)%nat ->
            nth_error ys i
            = Some (let obs := Pandas.observations
                                 (Pandas.window (Z.to_nat period) i xs) in
                    if (length obs <? Z.to_nat period)%nat
                       || (length obs =? 0)%nat
                    then None
                    else Some (py_sum obs / of_nat (length obs)))) as Hat.
  { intros i Hi.
    destruct (rolling_mean_at period xs i) as (ys' & Hys' & _ & Hn);
      [lia|exact Hi|].
    rewrite Hys in Hys'. inversion Hys'; subst ys'. exact Hn. }
  split.
  - intros i Hi Hc. rewrite (Hat i Hi). f_equal.
    apply rolling_cell_undefined; [lia|].
    destruct Hc as [Hc|Hc]; [left; lia|right; exact Hc].
  - intros P i Hi Hge Hall. rewrite (Hat i Hi).
    destruct (rolling_cell_defined P (Z.to_nat period) xs i)
      as (obs & Hcell & Hl & Hf & _); [lia|lia|exact Hall|].
    exists obs. rewrite Hcell. split; [|split; [lia|exact Hf]].
    unfold of_nat. rewrite Z2Nat.id by lia. reflexivity.
Qed.

Lemma map_some_nth (series : list Q) j :
  (j < length series)%nat ->
  nth j (map Some series) None = Some (nth j series 0) /\
  In (nth j series 0) series.
Proof.
  intro Hj. split.
  - rewrite (nth_indep _ None (Some 0)) by (rewrite length_map; exact Hj).
    apply (map_nth Some).
  - apply nth_In, Hj.
Qed.

Lemma mean_bounds_Z lo hi obs period :
  (1 <= period)%Z -> Z.of_nat (length obs) = period ->
  Forall (fun x => lo <= x /\ x <= hi) obs ->
  lo <= py_sum obs / inject_Z period /\ py_sum obs / inject_Z period <= hi.
Proof.
  intros Hp Hl Hf.
  assert (inject_Z period = of_nat (length obs)) as ->
      by (unfold of_nat; rewrite Hl; reflexivity).
  apply mean_bounds; [|exact Hf]. destruct obs; [simpl in Hl; lia|discriminate].
Qed.

(** X17.  [calculate_sma] (and [calculate_volume_sma], the same rolling
    mean) raises [ValueError] for a negative period; for a period of at
    least 1 it returns a series of the input's length whose first
    [period - 1] entries are undefined and whose later entries are the mean
    of the last [period] values, hence within any bounds that hold for the
    whole input. *)
Theorem calculate_sma_entries (series : list Q) (period : Z) :
  ((period < 0)%Z ->
   calculate_sma series period = Raise ValueError /\
   calculate_volume_sma series period = Raise ValueError) /\
  ((1 <= period)%Z ->
   exists ys,
     calculate_sma series period = Ok ys /\
     calculate_volume_sma series period = Ok ys /\
     length ys = length series /\
     (forall i, (i < length series)%nat -> (Z.of_nat i + 1 < period)%Z ->
                nth_error ys i = Some None) /\
     (forall i, (i < length series)%nat -> (period <= Z.of_nat i + 1)%Z ->
        exists obs,
          nth_error ys i = Some (Some (py_sum obs / inject_Z period)) /\
          Z.of_nat (length obs) = period /\
          Forall (fun x => In x series) obs /\
          (forall lo hi, Forall (fun x => lo <= x /\ x <= hi) series ->
             lo <= py_sum obs / inject_Z period /\
             py_sum obs / inject_Z period <= hi))).
Proof.
  unfold calculate_sma, calculate_volume_sma. split.
  - intro Hp. rewrite rolling_mean_bad by exact Hp. auto.
  - intro Hp.
    destruct (rolling_mean_entries period (map Some series) Hp)
      as (ys & Hys & Hlen & Hnone & Hsome).
    rewrite length_map in *.
    exists ys. split; [exact Hys|]. split; [exact Hys|]. split; [exact Hlen|].
    split.
    + intros i Hi Hshort. apply Hnone; [exact Hi|left; exact Hshort].
    + intros i Hi Hge.
      destruct (Hsome (fun x => In x series) i Hi Hge) as (obs & Hn & Hl & Hf).
      { intros j Hj. exists (nth j series 0). apply map_some_nth. lia. }
      exists obs. split; [exact Hn|]. split; [exact Hl|]. split; [exact Hf|].
      intros lo hi Hb. apply mean_bounds_Z; [exact Hp|exact Hl|].
      rewrite Forall_forall in *. intros x Hx. apply Hb, Hf, Hx.
Qed.

Lemma calculate_sma_entries_sample :
  exists ys,
    calculate_sma [10; 12; 11; 13] 3 = Ok ys /\
    nth_error ys 1 = Some None /\
    exists obs, nth_error ys 2 = Some (Some (py_sum obs / inject_Z 3)).
Proof.
  destruct (proj2 (calculate_sma_entries [10; 12; 11; 13] 3))
    as (ys & Hy & _ & _ & Hnone & Hsome); [lia|].
  exists ys. split; [exact Hy|]. split.
  - apply Hnone; simpl; lia.
  - destruct (Hsome 2%nat) as (obs & Hn & _); [simpl; lia|simpl; lia|].
    exists obs. exact Hn.
Defined.

(** *** True range *)

Lemma py_max_ge_r a b : b <= Num.py_max a b.
Proof.
  unfold Num.py_max. destruct (Num.gtb b a) eqn:E.
  - apply Qle_refl.
  - apply NumFacts.ltb_ge in E. exact E.
Qed.

Lemma removelast_length {A} (l : list A) :
  length (removelast l) = (length l - 1)%nat.
Proof.
  induction l as [|x l IH]; [reflexivity|].
  destruct l as [|y l]; [reflexivity|].
  change (removelast (x :: y :: l)) with (x :: removelast (y :: l)).
  simpl length in *. rewrite IH. lia.
Qed.

Lemma fold_sum_nonneg xs : forall acc,
  Forall (fun x => 0 <= x) xs -> acc <= fold_left Qplus xs acc.
Proof.
  induction xs as [|x xs IH]; intros acc Hxs; simpl; [apply Qle_refl|].
  inversion Hxs; subst. eapply Qle_trans; [|apply IH; assumption]. lra.
Qed.

(** The first entry of the true range is undefined (no previous close); the
    others are defined and not negative. *)
Lemma true_range_shape b rest :
  exists l,
    true_range (b :: rest) = None :: l /\ length l = length rest /\
    Forall (fun o => exists t, o = Some t /\ 0 <= t) l.
Proof.
  unfold true_range.
  set (closes := map (fun '(_, _, c) => c) (b :: rest)).
  assert (length closes = Datatypes.S (length rest)) as Hc
      by (unfold closes; rewrite length_map; reflexivity).
  destruct closes as [|c0 cs] eqn:Ecl; [discriminate Hc|].
  unfold Pandas.shift1.
  set (prev := map Some (removelast (c0 :: cs))).
  assert (length prev = length rest) as Hp.
  { unfold prev. rewrite length_map, removelast_length. simpl in *. lia. }
  destruct b as [[h0 l0] cl0]. simpl combine. simpl map.
  eexists. split; [reflexivity|]. split.
  - rewrite length_map, length_combine. lia.
  - apply Forall_forall. intros o Ho. apply in_map_iff in Ho.
    destruct Ho as ([[[h l] c] pc] & <- & Hin).
    apply in_combine_r in Hin. unfold prev in Hin. apply in_map_iff in Hin.
    destruct Hin as (p & <- & _).
    cbn [Pandas.sub_nan Pandas.abs_nan Pandas.maximum_nan].
    eexists. split; [reflexivity|].
    eapply Qle_trans; [|apply py_max_ge_r].
    eapply Qle_trans; [|apply NumFacts.py_max_ge].
    apply Qabs.Qabs_nonneg.
Qed.

(** X18.  [calculate_atr] raises [ValueError] for a negative period; for a
    period of at least 1 it returns a series of the input's length whose
    first [period] entries are undefined (one more than a rolling mean of
    the prices: the true range of the first bar has no previous close) and
    whose later entries are defined and not negative, whatever the bars. *)
Theorem calculate_atr_entries (bars : list (Q * Q * Q)) (period : Z) :
  ((period < 0)%Z -> calculate_atr bars period = Raise ValueError) /\
  ((1 <= period)%Z ->
   exists ys,
     calculate_atr bars period = Ok ys /\
     length ys = length bars /\
     (forall i, (i < length bars)%nat -> (Z.of_nat i < period)%Z ->
                nth_error ys i = Some None) /\
     (forall i, (i < length bars)%nat -> (period <= Z.of_nat i)%Z ->
                exists a, nth_error ys i = Some (Some a) /\ 0 <= a)).
Proof.
  unfold calculate_atr. split; [apply rolling_mean_bad|].
  intro Hp.
  destruct (rolling_mean_entries period (true_range bars) Hp)
    as (ys & Hys & Hlen & Hnone & Hsome).
  destruct bars as [|b rest].
  - exists ys. split; [exact Hys|]. split; [exact Hlen|].
    split; intros i Hi; simpl in Hi; lia.
  - destruct (true_range_shape b rest) as (l & Htr & Hl & Hf).
    rewrite Htr in *. simpl length in *.
    exists ys. split; [exact Hys|]. split; [lia|]. split.
    + intros i Hi Hlt. apply Hnone; [lia|].
      destruct (Z.lt_ge_cases (Z.of_nat i + 1) period) as [Hs|Hs];
        [left; exact Hs|right].
      exists 0%nat. split; [lia|reflexivity].
    + intros i Hi Hge.
      destruct (Hsome (fun x => 0 <= x) i) as (obs & Hn & Hlo & Hfo);
        [lia|lia| |].
      * intros j Hj. destruct j as [|j]; [lia|]. simpl.
        rewrite Forall_forall in Hf. apply Hf. apply nth_In. lia.
      * eexists. split; [exact Hn|].
        apply Qle_shift_div_l.
        -- change 0 with (inject_Z 0). rewrite <- Zlt_Qlt. lia.
        -- rewrite Qmult_0_l. apply (fold_sum_nonneg obs 0 Hfo).
Qed.

Lemma calculate_atr_entries_sample :
  exists ys,
    calculate_atr five_bars 2 = Ok ys /\
    nth_error ys 1 = Some None /\
    exists a, nth_error ys 2 = Some (Some a) /\ 0 <= a.
Proof.
  destruct (proj2 (calculate_atr_entries five_bars 2))
    as (ys & Hy & _ & Hnone & Hsome); [lia|].
  exists ys. split; [exact Hy|]. split.
  - apply Hnone; simpl; lia.
  - apply Hsome; simpl; lia.
Defined.

(** ** The grid and the log of the search *)

Lemma flat_map_length_const {A B} (f : A -> list B) k l :
  (forall x, length (f x) = k) -> length (flat_map f l) = (length l * k)%nat.
Proof.
  intro Hf. induction l as [|x l IH]; simpl; [reflexivity|].
  rewrite length_app, Hf, IH. reflexivity.
Qed.

Lemma product_length {A} (lists : list (list A)) :
  length (product lists)
  = fold_right (fun l n => (length l * n)%nat) 1%nat lists.
Proof.
  induction lists as [|l lists IH]; simpl; [reflexivity|].
  rewrite (flat_map_length_const _ (length (product lists))).
  - rewrite IH. reflexivity.
  - intro x. apply length_map.
Qed.

Lemma product_members {A} (lists : list (list A)) : forall combo,
  In combo (product lists) -> Forall2 (fun x l => In x l) combo lists.
Proof.
  induction lists as [|l lists IH]; intros combo Hin; simpl in Hin.
  - destruct Hin as [<-|[]]. constructor.
  - apply in_flat_map in Hin. destruct Hin as (x & Hx & Hin).
    apply in_map_iff in Hin. destruct Hin as (rest & <- & Hrest).
    constructor; [exact Hx|]. apply IH, Hrest.
Qed.

Lemma combine_keys (grid : ParamGrid) : forall combo,
  Forall2 (fun x l => In x l) combo (map snd grid) ->
  map fst (combine (map fst grid) combo) = map fst grid /\
  Forall2 (fun kv cand => fst kv = fst cand /\ In (snd kv) (snd cand))
          (combine (map fst grid) combo) grid.
Proof.
  induction grid as [|[k cands] grid IH]; intros combo Hc; simpl in *.
  - split; constructor.
  - inversion Hc as [|x l combo' ls Hx Hrest]; subst. simpl.
    destruct (IH combo' Hrest) as [H1 H2].
    split; [f_equal; exact H1|]. constructor; [simpl; auto|exact H2].
Qed.

Lemma grid_size_product (grid : ParamGrid) :
  fold_right (fun l n => (length l * n)%nat) 1%nat (map snd grid)
  = grid_size grid.
Proof.
  unfold grid_size. induction grid as [|kv grid IH]; simpl; [reflexivity|].
  rewrite IH. reflexivity.
Qed.

Lemma grid_size_zero (grid : ParamGrid) kv :
  In kv grid -> snd kv = [] -> grid_size grid = 0%nat.
Proof.
  unfold grid_size. induction grid as [|kv' grid IH]; intros Hin He; simpl.
  - contradiction.
  - destruct Hin as [->|Hin].
    + rewrite He. reflexivity.
    + rewrite (IH Hin He). lia.
Qed.

(** X19.  The grid search tries as many combinations as the product of the
    sizes of the candidate lists; every combination carries the keys of the
    grid, in order, each with one of its candidates; and when a candidate
    list is empty there is no combination and [run] raises [ValueError]. *)
Theorem grid_combinations (self : GridSearchOptimizer.t) :
  length (GridSearchOptimizer.combinations (GridSearchOptimizer.param_grid self))
  = grid_size (GridSearchOptimizer.param_grid self) /\
  (forall params,
      In params (GridSearchOptimizer.combinations
                   (GridSearchOptimizer.param_grid self)) ->
      map fst params = map fst (GridSearchOptimizer.param_grid self) /\
      Forall2 (fun kv cand => fst kv = fst cand /\ In (snd kv) (snd cand))
              params (GridSearchOptimizer.param_grid self)) /\
  (forall kv,
      In kv (GridSearchOptimizer.param_grid self) -> snd kv = [] ->
      GridSearchOptimizer.run self = Raise ValueError).
Proof.
  unfold GridSearchOptimizer.combinations.
  assert (length (map (fun combo =>
                         combine (map fst (GridSearchOptimizer.param_grid self))
                                 combo)
                      (product (map snd (GridSearchOptimizer.param_grid self))))
          = grid_size (GridSearchOptimizer.param_grid self)) as Hlen
      by (rewrite length_map, product_length; apply grid_size_product).
  split; [exact Hlen|]. split.
  - intros params Hin. apply in_map_iff in Hin.
    destruct Hin as (combo & <- & Hc).
    apply combine_keys, product_members, Hc.
  - intros kv Hin He.
    rewrite (grid_size_zero _ kv Hin He) in Hlen.
    unfold GridSearchOptimizer.run, GridSearchOptimizer.combinations.
    destruct (map _ (product _)); [reflexivity|discriminate Hlen].
Qed.

(** The default grid has 2916 combinations. *)
Lemma default_grid_size : grid_size DEFAULT_PARAM_GRID = 2916%nat.
Proof. reflexivity. Qed.

Section Log.
Import GridSearchOptimizer.
Variable self : GridSearchOptimizer.t.

Lemma loop_body_log done v params :
  log_inv self done v -> log_inv self (done ++ [params]) (loop_body self v params).
Proof.
  intros [Hlog Hbest]. unfold log_inv, loop_body, returns in *.
  rewrite filter_app. simpl.
  destruct (backtest_combo self params) as [[df res]|e] eqn:E.
  - destruct (l_best_score v) as [s|] eqn:Hs.
    + destruct Hbest as (p & d & r & Hp & Hd & Hr & Hb & Hsc & Hall & Hin).
      unfold beats.
      destruct (_calculate_score self res params >? s) eqn:C; simpl.
      * split; [rewrite map_app, Hlog; reflexivity|].
        exists params, df, res. repeat (split; [reflexivity || assumption|]).
        apply NumFacts.gtb_gt in C. split.
        -- apply Forall_app. split.
           ++ eapply Forall_impl; [|exact Hall]. simpl. intros a Ha.
              eapply Qle_trans; [exact Ha|apply Qlt_le_weak, C].
           ++ constructor; [apply Qle_refl|constructor].
        -- rewrite map_app. apply in_or_app. right. simpl. auto.
      * split; [rewrite map_app, Hlog; reflexivity|].
        exists p, d, r. repeat (split; [assumption|]).
        apply NumFacts.ltb_ge in C. split.
        -- apply Forall_app. split; [exact Hall|].
           constructor; [exact C|constructor].
        -- rewrite map_app. apply in_or_app. left. exact Hin.
    + destruct Hbest as [Hnil _]. simpl.
      split; [rewrite map_app, Hlog; reflexivity|].
      exists params, df, res. repeat (split; [reflexivity || assumption|]).
      rewrite Hnil. simpl. split.
      * constructor; [apply Qle_refl|constructor].
      * auto.
  - rewrite app_nil_r. split; assumption.
Qed.

Lemma fold_loop_log ps : forall done v,
  log_inv self done v ->
  log_inv self (done ++ ps) (fold_left (loop_body self) ps v).
Proof.
  induction ps as [|p ps IH]; intros done v Hv; simpl.
  - rewrite app_nil_r. exact Hv.
  - replace (done ++ p :: ps) with ((done ++ [p]) ++ ps)
      by (rewrite <- app_assoc; reflexivity).
    apply IH, loop_body_log, Hv.
Qed.

Lemma run_log o :
  run self = Ok o ->
  backtest_combo self (best_params o) = Ok (best_df o, best_result o) /\
  Forall (fun e => s_score e
                   <= _calculate_score self (best_result o) (best_params o))
         (all_results o) /\
  In (best_params o) (map s_params (all_results o)) /\
  map s_params (all_results o)
  = filter (returns self) (combinations (param_grid self)).
Proof.
  unfold run.
  pose proof (fold_loop_log (combinations (param_grid self)) [] initial_locals)
    as Hinv.
  simpl in Hinv. specialize (Hinv (conj eq_refl (conj eq_refl eq_refl))).
  destruct Hinv as [Hlog Hbest].
  set (v := fold_left (loop_body self) (combinations (param_grid self))
                      initial_locals) in *.
  destruct (l_best_score v) as [s|].
  - destruct Hbest as (p & d & r & Hp & Hd & Hr & Hb & Hsc & Hall & Hin).
    rewrite Hr, Hp, Hd. intro E. inversion E; subst o; clear E. simpl.
    rewrite <- Hsc. auto.
  - destruct Hbest as [_ Hr]. rewrite Hr. discriminate.
Qed.

End Log.

(** X20.  When [run] returns: [best_result] and [best_df] are what the
    backtest of [best_params] produced; [all_results] lists, in grid order,
    exactly the combinations whose backtest returned; [best_params] is one
    of them; and no logged score exceeds the score of the returned best. *)
Theorem run_best_is_maximal
        (self : GridSearchOptimizer.t) (o : OptimizationResult)
        (Hrun : GridSearchOptimizer.run self = Ok o) :
  GridSearchOptimizer.backtest_combo self (best_params o)
  = Ok (best_df o, best_result o) /\
  (forall e, In e (all_results o) ->
     s_score e
     <= GridSearchOptimizer._calculate_score self (best_result o)
                                             (best_params o)) /\
  In (best_params o) (map s_params (all_results o)) /\
  map s_params (all_results o)
  = filter (returns self)
           (GridSearchOptimizer.combinations
              (GridSearchOptimizer.param_grid self)).
Proof.
  destruct (run_log self o Hrun) as (H1 & H2 & H3 & H4).
  rewrite Forall_forall in H2. auto.
Qed.

Lemma run_best_is_maximal_sample :
  exists o,
    GridSearchOptimizer.run Samples.optimizer_2x2 = Ok o /\
    length (all_results o) = 4%nat /\
    forall e, In e (all_results o) ->
      s_score e
      <= GridSearchOptimizer._calculate_score Samples.optimizer_2x2
           (best_result o) (best_params o).
Proof.
  eexists. split; [vm_compute; reflexivity|]. split; [reflexivity|].
  refine (proj1 (proj2 (run_best_is_maximal Samples.optimizer_2x2 _ _))).
  vm_compute. reflexivity.
Defined.

(** ** The live bot's schedule *)

(** X21.  Whatever the configured interval, [_should_check_signal] is true
    only within the first 30 seconds of a minute that is a multiple of 5;
    a time accepted for [4h] is accepted for [1h], one accepted for [1h]
    is accepted for [15m], and one accepted for [15m] is accepted for [5m];
    an interval other than [1h], [4h], [15m], [5m] is treated as [1h]. *)
Theorem should_check_signal_schedule (interval : string) (now : datetime) :
  (_should_check_signal interval now = true ->
   (second now < 30)%nat /\ (minute now mod 5 = 0)%nat) /\
  (_should_check_signal "4h" now = true ->
   _should_check_signal "1h" now = true) /\
  (_should_check_signal "1h" now = true ->
   _should_check_signal "15m" now = true) /\
  (_should_check_signal "15m" now = true ->
   _should_check_signal "5m" now = true) /\
  (interval <> "1h" -> interval <> "4h" -> interval <> "15m" ->
   interval <> "5m" ->
   _should_check_signal interval now = _should_check_signal "1h" now).
Proof.
  assert (forall m, (m mod 15 = 0 -> m mod 5 = 0)%nat) as H15.
  { intros m Hm. apply Nat.Div0.mod_divides in Hm. destruct Hm as [k ->].
    replace (15 * k)%nat with ((3 * k) * 5)%nat by lia.
    apply Nat.Div0.mod_mul. }
  assert (forall i, _should_check_signal i now = true ->
                    Nat.ltb (second now) 30 = true /\
                    Nat.eqb (minute now mod 5) 0 = true) as Hany.
  { intros i H. unfold _should_check_signal in H.
    repeat match type of H with
           | (if ?c then _ else _) = true => destruct c
           end;
      repeat match goal with
             | E : _ && _ = true |- _ =>
                 apply andb_true_iff in E; destruct E
             end;
      (split; [assumption|]);
      repeat match goal with
             | E : (_ =? _)%nat = true |- _ => apply Nat.eqb_eq in E
             end;
      apply Nat.eqb_eq;
      first [ apply H15; assumption
            | assumption
            | match goal with E : minute now = 0%nat |- _ => rewrite E end;
              reflexivity ]. }
  split; [|split; [|split; [|split]]].
  - intro H. destruct (Hany interval H) as [Hs Hm].
    apply Nat.ltb_lt in Hs. apply Nat.eqb_eq in Hm. auto.
  - change (_should_check_signal "1h" now)
      with (Nat.eqb (minute now) 0 && Nat.ltb (second now) 30).
    change (_should_check_signal "4h" now)
      with (Nat.eqb (hour now mod 4) 0 && Nat.eqb (minute now) 0
            && Nat.ltb (second now) 30).
    intro H. apply andb_true_iff in H. destruct H as [H Hs].
    apply andb_true_iff in H. destruct H as [_ Hm].
    rewrite Hm, Hs. reflexivity.
  - change (_should_check_signal "1h" now)
      with (Nat.eqb (minute now) 0 && Nat.ltb (second now) 30).
    change (_should_check_signal "15m" now)
      with (Nat.eqb (minute now mod 15) 0 && Nat.ltb (second now) 30).
    intro H. apply andb_true_iff in H. destruct H as [Hm Hs].
    apply Nat.eqb_eq in Hm. rewrite Hm, Hs. reflexivity.
  - intro H. destruct (Hany "15m" H) as [Hs Hm].
    change (_should_check_signal "5m" now)
      with (Nat.eqb (minute now mod 5) 0 && Nat.ltb (second now) 30).
    rewrite Hm, Hs. reflexivity.
  - intros H1 H4 H15' H5. unfold _should_check_signal.
    destruct (String.eqb_spec interval "1h"); [contradiction|].
    destruct (String.eqb_spec interval "4h"); [contradiction|].
    destruct (String.eqb_spec interval "15m"); [contradiction|].
    destruct (String.eqb_spec interval "5m"); [contradiction|].
    reflexivity.
Qed.

(** ** Fills *)

Lemma cross_up_index df idx :
  check_macd_cross_up df idx = Ok true -> (1 <= idx)%nat.
Proof.
  unfold check_macd_cross_up. destruct (Nat.ltb_spec idx 1); [discriminate|].
  intros _. assumption.
Qed.

Lemma cross_down_index df idx :
  check_macd_cross_down df idx = Ok true -> (1 <= idx)%nat.
Proof.
  unfold check_macd_cross_down. destruct (Nat.ltb_spec idx 1); [discriminate|].
  intros _. assumption.
Qed.

Lemma generate_signal_entry df idx (s s' : MacdEmaBbStrategy.t) sg :
  generate_signal df idx None s = Ok (Some sg, s') ->
  (1 <= idx)%nat /\
  exists r, nth_error df idx = Some r /\ Signal.entry_price sg = close r.
Proof.
  intro E. apply generate_signal_sides in E.
  destruct E as (r & entry & Hr & He & _ & Hcase).
  simpl in He. rewrite (iloc_row _ _ _ _ Hr) in He. inversion He; subst entry.
  split.
  - destruct Hcase as [(Hl & _) | (_ & Hs & _)].
    + apply check_long_signal_true in Hl. destruct Hl as [Hu _].
      apply cross_up_index in Hu. exact Hu.
    + apply check_short_signal_true in Hs. destruct Hs as [Hd _].
      apply cross_down_index in Hd. exact Hd.
  - exists r. split; [exact Hr|].
    destruct Hcase as [(_ & ->) | (_ & _ & ->)]; reflexivity.
Qed.

Section Fills.
Variable use_trailing : bool.
Variable df : DataFrame.

Lemma loop_body_fills v i (s s' : MacdEmaBbStrategy.t) v' :
  fills_inv df v -> loop_body use_trailing df v i s = Ok (v', s') ->
  fills_inv df v'.
Proof.
  intros (Hf & Hp) E. apply loop_body_calls in E.
  destruct E as [(_ & _ & ->)|[(_ & sg & Hg & ->)|[(_ & E)|(_ & E)]]].
  - split; assumption.
  - split; [assumption|]. simpl. intros pos Hpos.
    inversion Hpos; subst; simpl.
    apply generate_signal_entry in Hg. exact Hg.
  - destruct E as (pos & pos' & s0 & price & reason & Hpos & Ht & Hx & ->).
    apply trail_inv in Ht. destruct Ht as (Hei & Hep & Hs & _).
    simpl in Hx. apply lift_ok in Hx. destruct Hx as [Hx _].
    apply check_exit_conditions_sound in Hx.
    destruct Hx as (r & Hr & _ & Htrue).
    destruct (Htrue eq_refl) as (_ & p & Hprice & _ & _ & Hclose & Hlong & Hshort).
    inversion Hprice; subst p; clear Hprice.
    destruct (Hp pos Hpos) as (H1 & Hentry).
    unfold fills_inv, close_position; simpl. split.
    + apply Forall_app. split; [assumption|].
      constructor; [|constructor]. unfold filled_on; simpl.
      rewrite Hei, Hep. split; [exact H1|]. split; [exact Hentry|].
      exists r. split; [exact Hr|]. split; [exact Hclose|].
      split; [exact Hlong|exact Hshort].
    + intros ? Hnone. discriminate Hnone.
  - destruct E as (pos & pos' & s0 & price & reason & Hpos & Ht & _ & ->).
    apply trail_inv in Ht. destruct Ht as (Hei & Hep & _).
    split; [assumption|]. simpl. intros p Hp'. inversion Hp'; subst.
    rewrite Hei, Hep. apply Hp, Hpos.
Qed.

Lemma run_fills max_lookback (s s' : MacdEmaBbStrategy.t) r :
  run use_trailing df max_lookback s = Ok (r, s') ->
  Forall (filled_on df) (trades r).
Proof.
  intro E. apply run_inv in E. destruct E as (v & s0 & Hloop & Hstats).
  assert (fills_inv df v) as (Hf & _).
  { apply (for_each_invariant (loop_body use_trailing df)
             (fun _ => fills_inv df))
      with (n := (length df - max_lookback)%nat) (a := max_lookback)
           (v := initial_locals) (s := s) (s' := s0).
    - intros. eapply loop_body_fills; eassumption.
    - split; [constructor|]. intros ? Hn. discriminate Hn.
    - exact Hloop. }
  apply calculate_stats_inv in Hstats.
  destruct Hstats as [(_ & Ht & _)|(_ & Ht & _)]; rewrite Ht;
    [constructor|exact Hf].
Qed.

End Fills.

(** X22.  Every trade recorded by a run over the MACD + EMA + Bollinger
    strategy was entered at the close of its entry bar, never on bar 0, and
    its exit price fits the bar it was closed on: the close for
    [macd_reverse]; for a long trade the stop is at or above that bar's low
    and the target or upper band at or below its high; mirrored for a short
    trade. *)
Theorem run_trades_filled_on_bars
        (use_trailing : bool) (df : DataFrame) (max_lookback : nat)
        (self self' : MacdEmaBbStrategy.t) (r : BacktestResult)
        (Hrun : run use_trailing df max_lookback self = Ok (r, self')) :
  forall t, In t (trades r) -> filled_on df t.
Proof.
  pose proof (run_fills use_trailing df max_lookback self self' r Hrun) as Hf.
  rewrite Forall_forall in Hf. exact Hf.
Qed.

Lemma run_trades_filled_on_bars_sample :
  exists r self',
    run true Samples.two_trades 1 (MacdEmaBbStrategy.init None) = Ok (r, self')
    /\ forall t, In t (trades r) -> filled_on Samples.two_trades t.
Proof.
  do 2 eexists. split; [vm_compute; reflexivity|].
  eapply (run_trades_filled_on_bars true Samples.two_trades 1
            (MacdEmaBbStrategy.init None)).
  vm_compute. reflexivity.
Defined.

(** ** Sign of the risk of a signal *)

Lemma check_long_signal_level df idx (s s' : MacdEmaBbStrategy.t) :
  MacdEmaBbStrategy.check_long_signal df idx s = Ok (true, s') ->
  MacdEmaBbStrategy.config s' = MacdEmaBbStrategy.config s /\
  if use_qml (MacdEmaBbStrategy.config s) then
    exists level,
      detect_qml_bull df idx (qml_order (MacdEmaBbStrategy.config s))
                      (qml_recency (MacdEmaBbStrategy.config s))
      = Ok (Some level) /\
      MacdEmaBbStrategy._last_qml_bull s' = Some level
  else MacdEmaBbStrategy._last_qml_bull s'
       = MacdEmaBbStrategy._last_qml_bull s.
Proof.
  intro E. split; [eapply check_long_signal_cfg; exact E|].
  apply check_long_signal_state in E. destruct E as [_ E].
  specialize (E eq_refl).
  destruct (use_qml (MacdEmaBbStrategy.config s)).
  - destruct E as (level & Hd & ->). exists level. split; [exact Hd|reflexivity].
  - rewrite E. reflexivity.
Qed.

Lemma check_short_signal_level df idx (s s' : MacdEmaBbStrategy.t) :
  MacdEmaBbStrategy.check_short_signal df idx s = Ok (true, s') ->
  MacdEmaBbStrategy.config s' = MacdEmaBbStrategy.config s /\
  if use_qml (MacdEmaBbStrategy.config s) then
    exists level,
      detect_qml_bear df idx (qml_order (MacdEmaBbStrategy.config s))
                      (qml_recency (MacdEmaBbStrategy.config s))
      = Ok (Some level) /\
      MacdEmaBbStrategy._last_qml_bear s' = Some level
  else MacdEmaBbStrategy._last_qml_bear s'
       = MacdEmaBbStrategy._last_qml_bear s.
Proof.
  intro E. split; [eapply check_short_signal_cfg; exact E|].
  apply check_short_signal_state in E. destruct E as [_ E].
  specialize (E eq_refl).
  destruct (use_qml (MacdEmaBbStrategy.config s)).
  - destruct E as (level & Hd & ->). exists level. split; [exact Hd|reflexivity].
  - rewrite E. reflexivity.
Qed.

(** C4 (amended).  For a signal returned by [generate_signal] on bar [r],
    with the stop offset ATR x atr_sl_mult and [rr_ratio] not negative: the
    reward is not negative whenever the risk is not negative; the risk is
    not negative when extreme-stop mode is off, and when it is on without
    pattern-gating and the strategy remembers no level for the signal's
    side.  In extreme-stop mode with pattern-gating the stop is taken from
    the level [L] that the detector returns on the signal's own bar, and
    the risk is not negative exactly when [L] - offset is at most the entry
    price for a long signal (the entry price at most [L] + offset for a
    short one); without pattern-gating the same holds of the level the
    strategy remembered before the call. *)
Theorem generate_signal_risk_reward
        (self self' : MacdEmaBbStrategy.t) (df : DataFrame) (idx : nat)
        (current_price : option Q) (sg : Signal.t) (r : Row)
        (Hsig : generate_signal df idx current_price self = Ok (Some sg, self'))
        (Hrow : nth_error df idx = Some r)
        (Hoffset : 0 <= atr r * atr_sl_mult (config self))
        (Hrr : 0 <= rr_ratio (config self)) :
  (0 <= Signal.risk sg -> 0 <= Signal.reward sg) /\
  (use_qml_extreme_sl (config self) = false -> 0 <= Signal.risk sg) /\
  (use_qml_extreme_sl (config self) = true ->
   use_qml (config self) = true ->
   (Signal.side sg = "long" ->
    exists L,
      detect_qml_bull df idx (qml_order (config self))
                      (qml_recency (config self)) = Ok (Some L) /\
      (0 <= Signal.risk sg <->
       L - atr r * atr_sl_mult (config self) <= Signal.entry_price sg)) /\
   (Signal.side sg = "short" ->
    exists L,
      detect_qml_bear df idx (qml_order (config self))
                      (qml_recency (config self)) = Ok (Some L) /\
      (0 <= Signal.risk sg <->
       Signal.entry_price sg <= L + atr r * atr_sl_mult (config self)))) /\
  (use_qml_extreme_sl (config self) = true ->
   use_qml (config self) = false ->
   (Signal.side sg = "long" ->
    match MacdEmaBbStrategy._last_qml_bull self with
    | Some L =>
        0 <= Signal.risk sg <->
        L - atr r * atr_sl_mult (config self) <= Signal.entry_price sg
    | None => 0 <= Signal.risk sg
    end) /\
   (Signal.side sg = "short" ->
    match MacdEmaBbStrategy._last_qml_bear self with
    | Some L =>
        0 <= Signal.risk sg <->
        Signal.entry_price sg <= L + atr r * atr_sl_mult (config self)
    | None => 0 <= Signal.risk sg
    end)).
Proof.
  pose proof (generate_signal_reward _ _ _ _ _ _ Hsig) as Hreward.
  apply generate_signal_sides in Hsig.
  destruct Hsig as (r0 & entry & Hr0 & _ & _ & Hcase).
  rewrite Hrow in Hr0. inversion Hr0; subst r0; clear Hr0.
  simpl config in *.
  set (cfg := MacdEmaBbStrategy.config self) in *.
  set (off := atr r * atr_sl_mult cfg) in *.
  split.
  { intro H0. rewrite Hreward. apply Qmult_le_0_compat; assumption. }
  clear Hreward.
  destruct Hcase as [(Hl & ->) | (_ & Hs & ->)].
  - apply check_long_signal_level in Hl. destruct Hl as [Hcfg Hlevel].
    fold cfg in Hcfg, Hlevel.
    unfold MacdEmaBbStrategy.calculate_sl_tp, Signal.risk.
    cbn [Signal.side Signal.entry_price Signal.stop_loss fst snd String.eqb
         Ascii.eqb Bool.eqb].
    rewrite Hcfg. fold off.
    split; [|split].
    + intros ->. lra.
    + intros Hx Hq. rewrite Hx, Hq in *. split; [|intro C; discriminate C].
      intros _. destruct Hlevel as (L & Hd & ->).
      exists L. split; [exact Hd|]. split; intro; lra.
    + intros Hx Hq. rewrite Hx, Hq in *. split; [|intro C; discriminate C].
      intros _. rewrite Hlevel.
      destruct (MacdEmaBbStrategy._last_qml_bull self) as [L|];
        [split; intro; lra|lra].
  - apply check_short_signal_level in Hs. destruct Hs as [Hcfg Hlevel].
    fold cfg in Hcfg, Hlevel.
    unfold MacdEmaBbStrategy.calculate_sl_tp, Signal.risk.
    cbn [Signal.side Signal.entry_price Signal.stop_loss fst snd String.eqb
         Ascii.eqb Bool.eqb].
    rewrite Hcfg. fold off.
    split; [|split].
    + intros ->. lra.
    + intros Hx Hq. rewrite Hx, Hq in *. split; [intro C; discriminate C|].
      intros _. destruct Hlevel as (L & Hd & ->).
      exists L. split; [exact Hd|]. split; intro; lra.
    + intros Hx Hq. rewrite Hx, Hq in *. split; [intro C; discriminate C|].
      intros _. rewrite Hlevel.
      destruct (MacdEmaBbStrategy._last_qml_bear self) as [L|];
        [split; intro; lra|lra].
Qed.

(** Extreme-stop mode with pattern-gating: bar 7 of the sample frame, price
    21 passed in; the detector returns the sweep level 16, the stop is
    16 - 3/2, below the entry. *)
Lemma generate_signal_risk_reward_sample :
  exists sg self',
    generate_signal Samples.below_sweep 7 (Some 21)
      (MacdEmaBbStrategy.init (Some Samples.extreme_config))
    = Ok (Some sg, self')
    /\ Signal.side sg = "long"
    /\ 0 <= Signal.risk sg /\ 0 <= Signal.reward sg.
Proof.
  do 2 eexists. split; [vm_compute; reflexivity|].
  assert (forall sg self',
             generate_signal Samples.below_sweep 7 (Some 21)
               (MacdEmaBbStrategy.init (Some Samples.extreme_config))
             = Ok (Some sg, self') ->
             Signal.side sg = "long"
             /\ 0 <= Signal.risk sg /\ 0 <= Signal.reward sg) as P.
  { intros sg self' Hsig.
    destruct (generate_signal_risk_reward
                (MacdEmaBbStrategy.init (Some Samples.extreme_config)) self'
                Samples.below_sweep 7 (Some 21) sg
                (mkRow 7 5 6 10 5 1 0 30 20 10 2 1 10) Hsig eq_refl)
      as (Hreward & _ & Hextreme & _).
    - vm_compute. discriminate.
    - vm_compute. discriminate.
    - destruct (Hextreme eq_refl eq_refl) as [Hlong _].
      vm_compute in Hsig. inversion Hsig; subst sg self'; clear Hsig.
      destruct (Hlong eq_refl) as (L & Hd & Hiff).
      vm_compute in Hd. inversion Hd; subst L; clear Hd.
      split; [reflexivity|].
      assert (0 <= Signal.risk
                     {| Signal.side := "long"; Signal.entry_price := 21;
                        Signal.stop_loss := 29 # 2;
                        Signal.take_profit := 68 # 2;
                        Signal.quantity := None |}) as Hrisk
          by (apply Hiff; vm_compute; discriminate).
      split; [exact Hrisk|apply Hreward, Hrisk]. }
  eapply P. vm_compute. reflexivity.
Defined.

(** ** Statistics of a run on positive prices *)

(** X1.  On a frame whose closes are all positive, every trade of a result
    returned by [run] over the MACD + EMA + Bollinger strategy has a positive
    entry price, so every PNL quotient is defined; [num_trades] is the length
    of the trade list, [total_pnl_pct] is the sum of the trades' PNLs,
    [win_rate] lies in [0, 100] and [max_drawdown] is not negative; with no
    recorded trade the five statistics are 0. *)
Theorem run_result_statistics
        (use_trailing : bool) (df : DataFrame) (max_lookback : nat)
        (self self' : MacdEmaBbStrategy.t) (r : BacktestResult)
        (Hrun : run use_trailing df max_lookback self = Ok (r, self'))
        (Hclose : Forall (fun row => 0 < close row) df) :
  (forall t, In t (trades r) -> 0 < Trade.entry_price t) /\
  num_trades r = length (trades r) /\
  total_pnl_pct r == py_sum (map Trade.pnl_pct (trades r)) /\
  0 <= win_rate r /\ win_rate r <= 100 /\
  0 <= max_drawdown r /\
  (trades r = [] ->
   total_pnl_pct r = 0 /\ win_rate r = 0 /\ num_trades r = 0%nat /\
   avg_pnl r = 0 /\ max_drawdown r = 0).
Proof.
  split.
  { intros t Ht.
    pose proof (run_fills use_trailing df max_lookback self self' r Hrun) as Hf.
    rewrite Forall_forall in Hf. destruct (Hf t Ht) as (_ & (row & Hrow & ->) & _).
    rewrite Forall_forall in Hclose. apply Hclose.
    eapply nth_error_In. exact Hrow. }
  destruct (run_statistics use_trailing df max_lookback self r self' Hrun)
    as (H1 & H2 & H3 & H4 & H6).
  repeat (split; [assumption|]).
  intro Hnil. apply run_inv in Hrun. destruct Hrun as (v & s0 & _ & Hstats).
  destruct (l_trades v) as [|t ts] eqn:Ht.
  - inversion Hstats; subst. simpl. repeat split.
  - apply stats_fields in Hstats. destruct Hstats as (_ & _ & _ & _ & Htr & _).
    congruence.
Qed.

Lemma run_result_statistics_sample :
  exists r self',
    run true Samples.two_trades 1 (MacdEmaBbStrategy.init None) = Ok (r, self')
    /\ num_trades r = 2%nat /\ 0 <= win_rate r /\ win_rate r <= 100
    /\ 0 <= max_drawdown r.
Proof.
  do 2 eexists. split; [vm_compute; reflexivity|].
  assert (forall self' r,
             run true Samples.two_trades 1 (MacdEmaBbStrategy.init None)
             = Ok (r, self') ->
             num_trades r = length (trades r) /\ 0 <= win_rate r
             /\ win_rate r <= 100 /\ 0 <= max_drawdown r) as P.
  { intros self' r Hrun.
    destruct (run_result_statistics true Samples.two_trades 1
                (MacdEmaBbStrategy.init None) self' r Hrun)
      as (_ & H1 & _ & H3 & H4 & H6 & _).
    - repeat (apply Forall_cons; [reflexivity|]). apply Forall_nil.
    - auto. }
  eapply P. vm_compute. reflexivity.
Defined.
